(** * Simbody: one node of the multibody tree, and the uniform gravity force

    A shallow embedding of the parts of [RigidBodyNode.cpp] (the per-node
    kinematics and dynamics steps, and the mobilizer classes derived from
    [RigidBodyNodeSpec<dof>]) and of [Force_Gravity.cpp] (the [Force::Gravity]
    handle and its [GravityImpl]) that the specification talks about, and
    beyond them of the custom mobilizer, of the passes of the recursions at
    Ground and at a weld, of the position kinematics and the kinetic energy,
    of the package version file and of [MatterSubsystem::resetForces].

    Conventions.
    - [Real] is a typedef of the C++ code: it is kept abstract behind the
      interface [Scalar] (arithmetic and comparisons), [Sqrt], [Trig] (sin,
      cos) and [HasNaN].  Everything that is a matter of which slot is
      written, which branch is taken or which constant is stored is proved for
      every implementation of the interface, binary64 included.  The
      instance [R] (the real numbers, the ideal arithmetic the C++ doubles
      approximate) is used where only the laws of 0 and 1 are needed, which
      binary64 reproduces.  Where the specification asks for an exact result,
      the instance [float] (binary64) decides: an identity that holds over
      [R] alone is not said of the code, and the places where rounding breaks
      one are computed on [float], as are the non-finite results.
    - A [Vector] is a [list] of scalars; a node owns the slots that start at
      its [qIndex] (coordinates) and [uIndex] (speeds).  An in-place write
      [v[i] = x] is [<[i:=x]> v]; the C++ code does not check the index and
      neither does the model (an out-of-range write leaves the list alone,
      an out-of-range read gives [0]); the theorems say where they need the
      slots to exist.
    - An output parameter ([Transform& X_FM], [HType& H_FM], [Vector& q]) is
      the returned value; H matrices are the list of their columns. *)

From Stdlib Require Import Reals Lra ZArith Floats String.
From stdpp Require Import base list.

(** ** The scalar type [Real] *)

Class Scalar (T : Type) := {
  rzero : T;
  rone  : T;
  radd  : T -> T -> T;
  rsub  : T -> T -> T;
  rmul  : T -> T -> T;
  rdiv  : T -> T -> T;
  rneg  : T -> T;
  rleb  : T -> T -> bool;
  rltb  : T -> T -> bool;
  reqb  : T -> T -> bool }.

Class Sqrt (T : Type) := { rsqrt : T -> T }.

Class Trig (T : Type) := {
  rsin : T -> T;
  rcos : T -> T }.

Class HasNaN (T : Type) := { NaN : T; isFinite : T -> bool }.

Declare Scope real_scope.
Delimit Scope real_scope with r.
Notation "0" := rzero : real_scope.
Notation "1" := rone : real_scope.
Notation "2" := (radd rone rone) : real_scope.
Infix "+" := radd : real_scope.
Infix "-" := rsub : real_scope.
Infix "*" := rmul : real_scope.
Infix "/" := rdiv : real_scope.
Notation "- x" := (rneg x) : real_scope.
Infix "<=?" := rleb : real_scope.
Infix "<?" := rltb : real_scope.
Infix "=?" := reqb : real_scope.

(** The real numbers.  Comparisons are decided by the order's decision
    procedures. *)
Definition Rleb (a b : R) : bool := if Rle_dec a b then true else false.
Definition Rltb (a b : R) : bool := if Rlt_dec a b then true else false.
Definition Reqb (a b : R) : bool := if Req_dec_T a b then true else false.

#[export] Instance R_Scalar : Scalar R := {|
  rzero := 0%R; rone := 1%R;
  radd := Rplus; rsub := Rminus; rmul := Rmult; rdiv := Rdiv; rneg := Ropp;
  rleb := Rleb; rltb := Rltb; reqb := Reqb |}.

#[export] Instance R_Sqrt : Sqrt R := {| rsqrt := R_sqrt.sqrt |}.

#[export] Instance R_Trig : Trig R := {|
  rsin := Rtrigo_def.sin; rcos := Rtrigo_def.cos |}.

(** Binary64 floating point numbers, with IEEE 754 operations. *)
#[export] Instance float_Scalar : Scalar float := {|
  rzero := 0%float; rone := 1%float;
  radd := PrimFloat.add; rsub := PrimFloat.sub;
  rmul := PrimFloat.mul; rdiv := PrimFloat.div;
  rneg := PrimFloat.opp;
  rleb := PrimFloat.leb; rltb := PrimFloat.ltb; reqb := PrimFloat.eqb |}.

(** A float is not finite when it is an infinity or a NaN. *)
Definition nonfinite (x : float) : bool :=
  match Prim2SF x with
  | S754_infinity _ | S754_nan => true
  | _ => false
  end.

#[export] Instance float_Sqrt : Sqrt float := {| rsqrt := PrimFloat.sqrt |}.

#[export] Instance float_HasNaN : HasNaN float := {|
  NaN := nan; isFinite := fun x => negb (nonfinite x) |}.

(** ** Small vectors and matrices (SimTKcommon) *)

Record Vec3 (T : Type) := mkVec3 { vx : T; vy : T; vz : T }.
Arguments mkVec3 {T} _ _ _.
Arguments vx {T} _.
Arguments vy {T} _.
Arguments vz {T} _.

Record Vec4 (T : Type) := mkVec4 { q0 : T; q1 : T; q2 : T; q3 : T }.
Arguments mkVec4 {T} _ _ _ _.
Arguments q0 {T} _.
Arguments q1 {T} _.
Arguments q2 {T} _.
Arguments q3 {T} _.

(** [SpatialVec] is [Vec<2,Vec3>]: element 0 is the angular part, element 1
    the linear part. *)
Record SpatialVec (T : Type) := mkSpatialVec { ang : Vec3 T; lin : Vec3 T }.
Arguments mkSpatialVec {T} _ _.
Arguments ang {T} _.
Arguments lin {T} _.

(** [Mat33], by rows. *)
Record Mat33 (T : Type) := mkMat33 { row0 : Vec3 T; row1 : Vec3 T; row2 : Vec3 T }.
Arguments mkMat33 {T} _ _ _.
Arguments row0 {T} _.
Arguments row1 {T} _.
Arguments row2 {T} _.

(** [SpatialMat] is [Mat<2,2,Mat33>]. *)
Record SpatialMat (T : Type) := mkSpatialMat {
  m00 : Mat33 T; m01 : Mat33 T; m10 : Mat33 T; m11 : Mat33 T }.
Arguments mkSpatialMat {T} _ _ _ _.
Arguments m00 {T} _.
Arguments m01 {T} _.
Arguments m10 {T} _.
Arguments m11 {T} _.

(** [Transform]: a rotation [R] and a translation [p]. *)
Record Transform (T : Type) := mkTransform { R_ : Mat33 T; p_ : Vec3 T }.
Arguments mkTransform {T} _ _.
Arguments R_ {T} _.
Arguments p_ {T} _.

(** The shift operator; it stores the offset only. *)
Record PhiMatrix (T : Type) := mkPhiMatrix { l_ : Vec3 T }.
Arguments mkPhiMatrix {T} _.
Arguments l_ {T} _.

Section LinearAlgebra.
Context {T : Type} {SC : Scalar T}.
Local Open Scope real_scope.

(** Modelled from the spec: the vector and matrix classes of SimTKcommon
    (Vec, Mat, SpatialVec, PhiMatrix) are not in the sources; section 1 takes
    them as a correct linear-algebra library, so the operators are the
    textbook ones, element by element. *)
Definition Vec3_0 : Vec3 T := mkVec3 0 0 0.        (* Vec3(0) *)
Definition Vec4_0 : Vec4 T := mkVec4 0 0 0 0.      (* Vec4(0) *)
Definition SpatialVec_0 : SpatialVec T := mkSpatialVec Vec3_0 Vec3_0.

Definition vadd (a b : Vec3 T) : Vec3 T :=
  mkVec3 (vx a + vx b) (vy a + vy b) (vz a + vz b).
Definition vsub (a b : Vec3 T) : Vec3 T :=
  mkVec3 (vx a - vx b) (vy a - vy b) (vz a - vz b).
Definition vneg (a : Vec3 T) : Vec3 T := mkVec3 (- vx a) (- vy a) (- vz a).
Definition vscale (s : T) (a : Vec3 T) : Vec3 T :=
  mkVec3 (s * vx a) (s * vy a) (s * vz a).
Definition vdiv (a : Vec3 T) (s : T) : Vec3 T :=
  mkVec3 (vx a / s) (vy a / s) (vz a / s).
Definition vdot (a b : Vec3 T) : T := vx a * vx b + vy a * vy b + vz a * vz b.
(** [a % b], the cross product. *)
Definition cross (a b : Vec3 T) : Vec3 T :=
  mkVec3 (vy a * vz b - vz a * vy b)
         (vz a * vx b - vx a * vz b)
         (vx a * vy b - vy a * vx b).

Definition svadd (a b : SpatialVec T) : SpatialVec T :=
  mkSpatialVec (vadd (ang a) (ang b)) (vadd (lin a) (lin b)).
Definition svsub (a b : SpatialVec T) : SpatialVec T :=
  mkSpatialVec (vsub (ang a) (ang b)) (vsub (lin a) (lin b)).

Definition mvmul (m : Mat33 T) (v : Vec3 T) : Vec3 T :=
  mkVec3 (vdot (row0 m) v) (vdot (row1 m) v) (vdot (row2 m) v).
Definition Mat33_1 : Mat33 T :=                      (* Mat33(1), Rotation() *)
  mkMat33 (mkVec3 1 0 0) (mkVec3 0 1 0) (mkVec3 0 0 1).
Definition transpose (m : Mat33 T) : Mat33 T :=
  mkMat33 (mkVec3 (vx (row0 m)) (vx (row1 m)) (vx (row2 m)))
          (mkVec3 (vy (row0 m)) (vy (row1 m)) (vy (row2 m)))
          (mkVec3 (vz (row0 m)) (vz (row1 m)) (vz (row2 m))).
(** The axes of a rotation are its columns. *)
Definition col_x (m : Mat33 T) : Vec3 T := row0 (transpose m).
Definition col_y (m : Mat33 T) : Vec3 T := row1 (transpose m).
Definition col_z (m : Mat33 T) : Vec3 T := row2 (transpose m).
Definition mmul (a b : Mat33 T) : Mat33 T :=
  mkMat33 (mkVec3 (vdot (row0 a) (col_x b)) (vdot (row0 a) (col_y b)) (vdot (row0 a) (col_z b)))
          (mkVec3 (vdot (row1 a) (col_x b)) (vdot (row1 a) (col_y b)) (vdot (row1 a) (col_z b)))
          (mkVec3 (vdot (row2 a) (col_x b)) (vdot (row2 a) (col_y b)) (vdot (row2 a) (col_z b))).

(** [SpatialMat * SpatialVec]. *)
Definition smvmul (m : SpatialMat T) (v : SpatialVec T) : SpatialVec T :=
  mkSpatialVec (vadd (mvmul (m00 m) (ang v)) (mvmul (m01 m) (lin v)))
               (vadd (mvmul (m10 m) (ang v)) (mvmul (m11 m) (lin v))).

(** Modelled from the spec: PhiMatrix and its operators are not in the sources;
    by the glossary Phi shifts spatial quantities between two points rigidly
    connected by its offset [l], and its transpose shifts velocities outward.
    [~phi * V] keeps the angular part and adds [w % l] to the linear
    part. *)
Definition phiT_mul (phi : PhiMatrix T) (v : SpatialVec T) : SpatialVec T :=
  mkSpatialVec (ang v) (vadd (lin v) (cross (ang v) (l_ phi))).

(** Vec4: norm squared, dot product, and the elementwise operators. *)
Definition dot4 (a b : Vec4 T) : T :=
  q0 a * q0 b + q1 a * q1 b + q2 a * q2 b + q3 a * q3 b.
Definition v4div (a : Vec4 T) (s : T) : Vec4 T :=
  mkVec4 (q0 a / s) (q1 a / s) (q2 a / s) (q3 a / s).
Definition v4scale (s : T) (a : Vec4 T) : Vec4 T :=
  mkVec4 (s * q0 a) (s * q1 a) (s * q2 a) (s * q3 a).
Definition v4sub (a b : Vec4 T) : Vec4 T :=
  mkVec4 (q0 a - q0 b) (q1 a - q1 b) (q2 a - q2 b) (q3 a - q3 b).

(** *** Slots of a [Vector] *)

Definition slot (v : list T) (i : nat) : T := default 0 (v !! i).
Definition getVec3 (v : list T) (i : nat) : Vec3 T :=
  mkVec3 (slot v i) (slot v (i + 1)%nat) (slot v (i + 2)%nat).
Definition setVec3 (v : list T) (i : nat) (x : Vec3 T) : list T :=
  <[(i + 2)%nat := vz x]> (<[(i + 1)%nat := vy x]> (<[i := vx x]> v)).
Definition getVec4 (v : list T) (i : nat) : Vec4 T :=
  mkVec4 (slot v i) (slot v (i + 1)%nat) (slot v (i + 2)%nat) (slot v (i + 3)%nat).
Definition setVec4 (v : list T) (i : nat) (x : Vec4 T) : list T :=
  <[(i + 3)%nat := q3 x]>
    (<[(i + 2)%nat := q2 x]> (<[(i + 1)%nat := q1 x]> (<[i := q0 x]> v))).

(** Modelled from the spec: more of SimTKcommon that is not in the sources.
    Negation and dot product of spatial vectors, the cross product matrix
    ([crossMat(v) * w = v % w]), a matrix times a scalar, and a matrix
    negated; [phi * F] shifts a spatial force inward: it keeps the linear
    part and adds [l % f] to the angular part. *)
Definition svneg (a : SpatialVec T) : SpatialVec T :=
  mkSpatialVec (vneg (ang a)) (vneg (lin a)).
Definition svdot (a b : SpatialVec T) : T :=
  vdot (ang a) (ang b) + vdot (lin a) (lin b).
Definition crossMat (v : Vec3 T) : Mat33 T :=
  mkMat33 (mkVec3 0 (- vz v) (vy v))
          (mkVec3 (vz v) 0 (- vx v))
          (mkVec3 (- vy v) (vx v) 0).
Definition mscale (s : T) (m : Mat33 T) : Mat33 T :=
  mkMat33 (vscale s (row0 m)) (vscale s (row1 m)) (vscale s (row2 m)).
Definition mneg (m : Mat33 T) : Mat33 T :=
  mkMat33 (vneg (row0 m)) (vneg (row1 m)) (vneg (row2 m)).
Definition phi_mul (phi : PhiMatrix T) (v : SpatialVec T) : SpatialVec T :=
  mkSpatialVec (vadd (ang v) (cross (l_ phi) (lin v))) (lin v).
End LinearAlgebra.

Section Rotations.
Context {T : Type} {SC : Scalar T} {SQ : Sqrt T} {TR : Trig T}.
Local Open Scope real_scope.

Definition norm3 (a : Vec3 T) : T := rsqrt (vdot a a).
Definition norm4 (a : Vec4 T) : T := rsqrt (dot4 a a).

(** Modelled from the spec: the Rotation and Quaternion classes of
    SimTKcommon are not in the sources; section 1 takes rotations as a correct
    library.  [setRotationFromAngleAboutZ] is the rotation by an angle about
    the z axis, [setRotationToBodyFixedXYZ] the product of the rotations
    about x, then the new y, then the new z, [Quaternion(v)] normalizes
    its argument and [setRotationFromQuaternion] is the usual quadratic
    map. *)
Definition setRotationFromAngleAboutZ (theta : T) : Mat33 T :=
  let c := rcos theta in
  let s := rsin theta in
  mkMat33 (mkVec3 c (- s) 0) (mkVec3 s c 0) (mkVec3 0 0 1).

Definition setRotationToBodyFixedXYZ (a : Vec3 T) : Mat33 T :=
  let c0 := rcos (vx a) in let s0 := rsin (vx a) in
  let c1 := rcos (vy a) in let s1 := rsin (vy a) in
  let c2 := rcos (vz a) in let s2 := rsin (vz a) in
  let s0s1 := s0 * s1 in let s2c0 := s2 * c0 in
  let c0c2 := c0 * c2 in let nc1 := - c1 in
  mkMat33 (mkVec3 (c1 * c2) (nc1 * s2) s1)
          (mkVec3 (s2c0 + s0s1 * c2) (c0c2 - s0s1 * s2) (s0 * nc1))
          (mkVec3 (s0 * s2 - s1 * c0c2) (s0 * c2 + s1 * s2c0) (c0 * c1)).

(** The rotations by an angle about x and about y, to check the
    body-fixed sequence against. *)
Definition rotationAboutX (theta : T) : Mat33 T :=
  let c := rcos theta in
  let s := rsin theta in
  mkMat33 (mkVec3 1 0 0) (mkVec3 0 c (- s)) (mkVec3 0 s c).
Definition rotationAboutY (theta : T) : Mat33 T :=
  let c := rcos theta in
  let s := rsin theta in
  mkMat33 (mkVec3 c 0 s) (mkVec3 0 1 0) (mkVec3 (- s) 0 c).

Definition Quaternion (v : Vec4 T) : Vec4 T := v4div v (norm4 v).

Definition setRotationFromQuaternion (q : Vec4 T) : Mat33 T :=
  let q00 := q0 q * q0 q in let q11 := q1 q * q1 q in
  let q22 := q2 q * q2 q in let q33 := q3 q * q3 q in
  let q01 := q0 q * q1 q in let q02 := q0 q * q2 q in
  let q03 := q0 q * q3 q in let q12 := q1 q * q2 q in
  let q13 := q1 q * q3 q in let q23 := q2 q * q3 q in
  mkMat33 (mkVec3 (q00 + q11 - q22 - q33) (2 * (q12 - q03)) (2 * (q13 + q02)))
          (mkVec3 (2 * (q12 + q03)) (q00 - q11 + q22 - q33) (2 * (q23 - q01)))
          (mkVec3 (2 * (q13 - q02)) (2 * (q23 + q01)) (q00 - q11 - q22 + q33)).
End Rotations.

#[export] Instance Vec3_inhabited {T} {SC : Scalar T} : Inhabited (Vec3 T) :=
  populate Vec3_0.
#[export] Instance SpatialVec_inhabited {T} {SC : Scalar T} : Inhabited (SpatialVec T) :=
  populate SpatialVec_0.
#[export] Instance Mat33_inhabited {T} {SC : Scalar T} : Inhabited (Mat33 T) :=
  populate Mat33_1.
#[export] Instance SpatialMat_inhabited {T} {SC : Scalar T} : Inhabited (SpatialMat T) :=
  populate (mkSpatialMat Mat33_1 Mat33_1 Mat33_1 Mat33_1).
#[export] Instance Transform_inhabited {T} {SC : Scalar T} : Inhabited (Transform T) :=
  populate (mkTransform Mat33_1 Vec3_0).
#[export] Instance PhiMatrix_inhabited {T} {SC : Scalar T} : Inhabited (PhiMatrix T) :=
  populate (mkPhiMatrix Vec3_0).

(** ** The tree node and the caches of the state *)

(** What a node knows about its place in the tree: its number (Ground is
    node 0), its parent's number, the first speed and coordinate slot it
    owns, and its mass. *)
Record RigidBodyNode (T : Type) := mkRigidBodyNode {
  nodeNum : nat;
  parent  : nat;
  uIndex  : nat;
  qIndex  : nat;
  getMass : T }.
Arguments mkRigidBodyNode {T} _ _ _ _ _.
Arguments nodeNum {T} _.
Arguments parent {T} _.
Arguments uIndex {T} _.
Arguments qIndex {T} _.
Arguments getMass {T} _.

(** Modelled from the spec: the cache structs are declared outside the sources; by
    section 3 each holds, per node, the quantities of its stage.  One array
    per quantity, indexed by the node number (what [fromB] and [toB] do in
    the C++ code); the fields are named after their accessors. *)
Record SBPositionCache (T : Type) := mkSBPositionCache {
  X_FM         : list (Transform T);
  Phi          : list (PhiMatrix T);
  Inertia_OB_G : list (Mat33 T);
  CB_G         : list (Vec3 T) }.
Arguments mkSBPositionCache {T} _ _ _ _.
Arguments X_FM {T} _.
Arguments Phi {T} _.
Arguments Inertia_OB_G {T} _.
Arguments CB_G {T} _.

Record SBVelocityCache (T : Type) := mkSBVelocityCache {
  V_FM   : list (SpatialVec T);
  V_PB_G : list (SpatialVec T);
  V_GB   : list (SpatialVec T) }.
Arguments mkSBVelocityCache {T} _ _ _.
Arguments V_FM {T} _.
Arguments V_PB_G {T} _.
Arguments V_GB {T} _.

Record SBDynamicsCache (T : Type) := mkSBDynamicsCache {
  P                        : list (SpatialMat T);
  VD_PB_G                  : list (SpatialVec T);
  GyroscopicForce          : list (SpatialVec T);
  CoriolisAcceleration     : list (SpatialVec T);
  TotalCoriolisAcceleration : list (SpatialVec T);
  CentrifugalForces        : list (SpatialVec T);
  TotalCentrifugalForces   : list (SpatialVec T) }.
Arguments mkSBDynamicsCache {T} _ _ _ _ _ _ _.
Arguments P {T} _.
Arguments VD_PB_G {T} _.
Arguments GyroscopicForce {T} _.
Arguments CoriolisAcceleration {T} _.
Arguments TotalCoriolisAcceleration {T} _.
Arguments CentrifugalForces {T} _.
Arguments TotalCentrifugalForces {T} _.

(** The digest of a state: the modelling option and the caches. *)
Record SBStateDigest (T : Type) := mkSBStateDigest {
  useEulerAngles   : bool;
  getPositionCache : SBPositionCache T;
  getVelocityCache : SBVelocityCache T;
  getDynamicsCache : SBDynamicsCache T }.
Arguments mkSBStateDigest {T} _ _ _ _.
Arguments useEulerAngles {T} _.
Arguments getPositionCache {T} _.
Arguments getVelocityCache {T} _.
Arguments getDynamicsCache {T} _.

Section CacheAccess.
Context {T : Type} {SC : Scalar T}.

(** [getX(c)] reads the entry of a node, [updX(c) = v] writes it. *)
Definition getPhi (n : nat) (pc : SBPositionCache T) := Phi pc !!! n.
Definition getInertia_OB_G (n : nat) (pc : SBPositionCache T) := Inertia_OB_G pc !!! n.
Definition getCB_G (n : nat) (pc : SBPositionCache T) := CB_G pc !!! n.
Definition getV_PB_G (n : nat) (vc : SBVelocityCache T) := V_PB_G vc !!! n.
Definition getV_GB (n : nat) (vc : SBVelocityCache T) := V_GB vc !!! n.
Definition getV_FM (n : nat) (vc : SBVelocityCache T) := V_FM vc !!! n.
Definition getP (n : nat) (dc : SBDynamicsCache T) := P dc !!! n.
Definition getVD_PB_G (n : nat) (dc : SBDynamicsCache T) := VD_PB_G dc !!! n.
Definition getGyroscopicForce (n : nat) (dc : SBDynamicsCache T) :=
  GyroscopicForce dc !!! n.
Definition getCoriolisAcceleration (n : nat) (dc : SBDynamicsCache T) :=
  CoriolisAcceleration dc !!! n.
Definition getTotalCoriolisAcceleration (n : nat) (dc : SBDynamicsCache T) :=
  TotalCoriolisAcceleration dc !!! n.
Definition getCentrifugalForces (n : nat) (dc : SBDynamicsCache T) :=
  CentrifugalForces dc !!! n.
Definition getTotalCentrifugalForces (n : nat) (dc : SBDynamicsCache T) :=
  TotalCentrifugalForces dc !!! n.

Definition updV_FM (n : nat) (vc : SBVelocityCache T) (v : SpatialVec T) :=
  mkSBVelocityCache (<[n := v]> (V_FM vc)) (V_PB_G vc) (V_GB vc).
Definition updV_PB_G (n : nat) (vc : SBVelocityCache T) (v : SpatialVec T) :=
  mkSBVelocityCache (V_FM vc) (<[n := v]> (V_PB_G vc)) (V_GB vc).
Definition updV_GB (n : nat) (vc : SBVelocityCache T) (v : SpatialVec T) :=
  mkSBVelocityCache (V_FM vc) (V_PB_G vc) (<[n := v]> (V_GB vc)).

Definition updVD_PB_G (n : nat) (dc : SBDynamicsCache T) (v : SpatialVec T) :=
  mkSBDynamicsCache (P dc) (<[n := v]> (VD_PB_G dc)) (GyroscopicForce dc)
    (CoriolisAcceleration dc) (TotalCoriolisAcceleration dc)
    (CentrifugalForces dc) (TotalCentrifugalForces dc).
Definition updGyroscopicForce (n : nat) (dc : SBDynamicsCache T) (v : SpatialVec T) :=
  mkSBDynamicsCache (P dc) (VD_PB_G dc) (<[n := v]> (GyroscopicForce dc))
    (CoriolisAcceleration dc) (TotalCoriolisAcceleration dc)
    (CentrifugalForces dc) (TotalCentrifugalForces dc).
Definition updCoriolisAcceleration (n : nat) (dc : SBDynamicsCache T) (v : SpatialVec T) :=
  mkSBDynamicsCache (P dc) (VD_PB_G dc) (GyroscopicForce dc)
    (<[n := v]> (CoriolisAcceleration dc)) (TotalCoriolisAcceleration dc)
    (CentrifugalForces dc) (TotalCentrifugalForces dc).
Definition updTotalCoriolisAcceleration (n : nat) (dc : SBDynamicsCache T)
    (v : SpatialVec T) :=
  mkSBDynamicsCache (P dc) (VD_PB_G dc) (GyroscopicForce dc)
    (CoriolisAcceleration dc) (<[n := v]> (TotalCoriolisAcceleration dc))
    (CentrifugalForces dc) (TotalCentrifugalForces dc).
Definition updCentrifugalForces (n : nat) (dc : SBDynamicsCache T) (v : SpatialVec T) :=
  mkSBDynamicsCache (P dc) (VD_PB_G dc) (GyroscopicForce dc)
    (CoriolisAcceleration dc) (TotalCoriolisAcceleration dc)
    (<[n := v]> (CentrifugalForces dc)) (TotalCentrifugalForces dc).
Definition updTotalCentrifugalForces (n : nat) (dc : SBDynamicsCache T)
    (v : SpatialVec T) :=
  mkSBDynamicsCache (P dc) (VD_PB_G dc) (GyroscopicForce dc)
    (CoriolisAcceleration dc) (TotalCoriolisAcceleration dc)
    (CentrifugalForces dc) (<[n := v]> (TotalCentrifugalForces dc)).
End CacheAccess.

(** ** Implementation of the RigidBodyNode methods *)

Section RigidBodyNodeMethods.
Context {T : Type} {SC : Scalar T}.

(** Velocity kinematics, base to tip: the spatial velocity of the body from
    its parent's and the cross-joint velocity just calculated. *)
Definition calcJointIndependentKinematicsVel (node : RigidBodyNode T)
    (pc : SBPositionCache T) (mc : SBVelocityCache T) : SBVelocityCache T :=
  updV_GB (nodeNum node) mc
    (svadd (phiT_mul (getPhi (nodeNum node) pc) (getV_GB (parent node) mc))
           (getV_PB_G (nodeNum node) mc)).

(** The gyroscopic force and the Coriolis acceleration, base to tip. *)
Definition calcJointIndependentDynamicsVel (node : RigidBodyNode T)
    (pc : SBPositionCache T) (mc : SBVelocityCache T)
    (dc : SBDynamicsCache T) : SBDynamicsCache T :=
  let n := nodeNum node in
  if Nat.eqb n 0 then (* ground, just in case *)
    let dc := updGyroscopicForce n dc (mkSpatialVec Vec3_0 Vec3_0) in
    let dc := updCoriolisAcceleration n dc (mkSpatialVec Vec3_0 Vec3_0) in
    let dc := updTotalCoriolisAcceleration n dc (mkSpatialVec Vec3_0 Vec3_0) in
    let dc := updCentrifugalForces n dc (mkSpatialVec Vec3_0 Vec3_0) in
    updTotalCentrifugalForces n dc (mkSpatialVec Vec3_0 Vec3_0)
  else
    let w_GB := ang (getV_GB n mc) in
    let v_GB := lin (getV_GB n mc) in
    let dc := updGyroscopicForce n dc
      (mkSpatialVec (cross w_GB (mvmul (getInertia_OB_G n pc) w_GB))
                    (vscale (getMass node) (cross w_GB (cross w_GB (getCB_G n pc))))) in
    let w_GP := ang (getV_GB (parent node) mc) in
    let v_GP := lin (getV_GB (parent node) mc) in
    let dc := updCoriolisAcceleration n dc
      (svadd (mkSpatialVec Vec3_0 (cross w_GP (vsub v_GB v_GP))) (getVD_PB_G n dc)) in
    let dc := updTotalCoriolisAcceleration n dc
      (svadd (phiT_mul (getPhi n pc) (getTotalCoriolisAcceleration (parent node) dc))
             (getCoriolisAcceleration n dc)) in
    let dc := updCentrifugalForces n dc
      (svadd (smvmul (getP n dc) (getCoriolisAcceleration n dc))
             (getGyroscopicForce n dc)) in
    updTotalCentrifugalForces n dc
      (svadd (smvmul (getP n dc) (getTotalCoriolisAcceleration n dc))
             (getGyroscopicForce n dc)).
End RigidBodyNodeMethods.

(** Modelled from the spec: the mass properties of a body in its own frame
    (MassProperties, Inertia) and the entries of the position cache that hold
    frames and the spatial inertia are declared outside the sources; by
    section 3 the position cache holds, per node, the transforms X_PB and
    X_GB, the mass center COM_G and the spatial inertia Mk.  They are kept in
    a record of their own, beside [SBPositionCache]. *)
Record MassProperties (T : Type) := mkMassProperties {
  getCOM_B        : Vec3 T;
  getInertia_OB_B : Mat33 T }.
Arguments mkMassProperties {T} _ _.
Arguments getCOM_B {T} _.
Arguments getInertia_OB_B {T} _.

Record SBPositionCacheFrames (T : Type) := mkSBPositionCacheFrames {
  X_PB  : list (Transform T);
  X_GB  : list (Transform T);
  COM_G : list (Vec3 T);
  Mk    : list (SpatialMat T) }.
Arguments mkSBPositionCacheFrames {T} _ _ _ _.
Arguments X_PB {T} _.
Arguments X_GB {T} _.
Arguments COM_G {T} _.
Arguments Mk {T} _.

Section RigidBodyNodeMass.
Context {T : Type} {SC : Scalar T}.
Local Open Scope real_scope.

(** Modelled from the spec: [I.reexpress(R_AB)] gives the inertia re-expressed
    from frame A in frame B, [~R_AB * I * R_AB]. *)
Definition reexpress (I : Mat33 T) (R_AB : Mat33 T) : Mat33 T :=
  mmul (mmul (transpose R_AB) I) R_AB.

Definition getX_PB (n : nat) (pf : SBPositionCacheFrames T) := X_PB pf !!! n.
Definition getX_GB (n : nat) (pf : SBPositionCacheFrames T) := X_GB pf !!! n.
Definition getMk (n : nat) (pf : SBPositionCacheFrames T) := Mk pf !!! n.
Definition getCOM_G (n : nat) (pf : SBPositionCacheFrames T) := COM_G pf !!! n.
(** The parent's frame in Ground. *)
Definition getX_GP (node : RigidBodyNode T) (pf : SBPositionCacheFrames T) :=
  X_GB pf !!! parent node.

(** Calc posCM, mass, Mk, phi, inertia.  Should be calc'd from base to tip;
    depends on the transforms X_PB and X_GB being available. *)
Definition calcJointIndependentKinematicsPos (node : RigidBodyNode T)
    (mProps_B : MassProperties T) (pc : SBPositionCache T)
    (pf : SBPositionCacheFrames T) : SBPositionCache T * SBPositionCacheFrames T :=
  let n := nodeNum node in
  (* Re-express parent-to-child shift vector (OB-OP) into the ground frame. *)
  let p_PB_G := mvmul (R_ (getX_GP node pf)) (p_ (getX_PB n pf)) in
  let pc := mkSBPositionCache (X_FM pc) (<[n := mkPhiMatrix p_PB_G]> (Phi pc))
              (Inertia_OB_G pc) (CB_G pc) in
  let pc := mkSBPositionCache (X_FM pc) (Phi pc)
              (<[n := reexpress (getInertia_OB_B mProps_B)
                        (transpose (R_ (getX_GB n pf)))]> (Inertia_OB_G pc))
              (CB_G pc) in
  let pc := mkSBPositionCache (X_FM pc) (Phi pc) (Inertia_OB_G pc)
              (<[n := mvmul (R_ (getX_GB n pf)) (getCOM_B mProps_B)]> (CB_G pc)) in
  let pf := mkSBPositionCacheFrames (X_PB pf) (X_GB pf)
              (<[n := vadd (p_ (getX_GB n pf)) (getCB_G n pc)]> (COM_G pf))
              (Mk pf) in
  (* Calc Mk: the spatial inertia matrix about the body origin. *)
  let offDiag := mscale (getMass node) (crossMat (getCB_G n pc)) in
  let pf := mkSBPositionCacheFrames (X_PB pf) (X_GB pf) (COM_G pf)
              (<[n := mkSpatialMat (getInertia_OB_G n pc) offDiag
                        (mneg offDiag) (mscale (getMass node) Mat33_1)]> (Mk pf)) in
  (pc, pf).

Definition calcKineticEnergy (node : RigidBodyNode T)
    (pf : SBPositionCacheFrames T) (mc : SBVelocityCache T) : T :=
  let n := nodeNum node in
  let ret := svdot (getV_GB n mc) (smvmul (getMk n pf) (getV_GB n mc)) in
  (1 / 2) * ret.
End RigidBodyNodeMass.

(** ** RBGroundBody and RBNodeWeld *)

Module RBGroundBody.
Section WithReal.
Context {T : Type} {SC : Scalar T}.

Definition getDOF : nat := 0.

(** Ground realizes nothing at any stage. *)
Definition realizeVelocity (node : RigidBodyNode T) (sbs : SBStateDigest T)
  : SBStateDigest T := sbs.
Definition realizeDynamics (node : RigidBodyNode T) (sbs : SBStateDigest T)
  : SBStateDigest T := sbs.

(** The passes of the force and acceleration recursions, at Ground. *)
Definition calcEquivalentJointForces (bodyForces allZ : list (SpatialVec T))
  : list (SpatialVec T) :=
  <[0%nat := bodyForces !!! 0%nat]> allZ.

Definition calcUDotPass1Inward (bodyForces allZ allGepsilon : list (SpatialVec T))
  : list (SpatialVec T) * list (SpatialVec T) :=
  (<[0%nat := svneg (bodyForces !!! 0%nat)]> allZ,
   <[0%nat := mkSpatialVec Vec3_0 Vec3_0]> allGepsilon).

Definition calcUDotPass2Outward (allA_GB : list (SpatialVec T))
  : list (SpatialVec T) :=
  <[0%nat := mkSpatialVec Vec3_0 Vec3_0]> allA_GB.

Definition calcMInverseFPass1Inward (allZ allGepsilon : list (SpatialVec T))
  : list (SpatialVec T) * list (SpatialVec T) :=
  (<[0%nat := mkSpatialVec Vec3_0 Vec3_0]> allZ,
   <[0%nat := mkSpatialVec Vec3_0 Vec3_0]> allGepsilon).

Definition calcMInverseFPass2Outward (allA_GB : list (SpatialVec T))
  : list (SpatialVec T) :=
  <[0%nat := mkSpatialVec Vec3_0 Vec3_0]> allA_GB.

Definition calcMAPass1Outward (allA_GB : list (SpatialVec T))
  : list (SpatialVec T) :=
  <[0%nat := mkSpatialVec Vec3_0 Vec3_0]> allA_GB.

Definition calcMAPass2Inward (allFTmp : list (SpatialVec T))
  : list (SpatialVec T) :=
  <[0%nat := mkSpatialVec Vec3_0 Vec3_0]> allFTmp.
End WithReal.
End RBGroundBody.

Module RBNodeWeld.
Section WithReal.
Context {T : Type} {SC : Scalar T}.

Definition realizeVelocity (node : RigidBodyNode T) (sbs : SBStateDigest T)
  : SBStateDigest T :=
  let pc := getPositionCache sbs in
  let vc := getVelocityCache sbs in
  let vc := updV_FM (nodeNum node) vc SpatialVec_0 in
  let vc := updV_PB_G (nodeNum node) vc SpatialVec_0 in
  mkSBStateDigest (useEulerAngles sbs) pc
    (calcJointIndependentKinematicsVel node pc vc) (getDynamicsCache sbs).

Definition realizeDynamics (node : RigidBodyNode T) (sbs : SBStateDigest T)
  : SBStateDigest T :=
  (* Mobilizer-specific. *)
  let pc := getPositionCache sbs in
  let vc := getVelocityCache sbs in
  let dc := getDynamicsCache sbs in
  let dc := updVD_PB_G (nodeNum node) dc SpatialVec_0 in
  (* Mobilizer independent. *)
  mkSBStateDigest (useEulerAngles sbs) pc vc
    (calcJointIndependentDynamicsVel node pc vc dc).

(** The passes of the recursions at a weld.  The children of the node, a
    field of the C++ object, are an argument.  [z] and [F] are references
    into the arrays: every [+=] of the loops is a write to the node's own
    entry. *)
Definition calcUDotPass1Inward (node : RigidBodyNode T)
    (children : list (RigidBodyNode T)) (pc : SBPositionCache T)
    (dc : SBDynamicsCache T) (bodyForces allZ allGepsilon : list (SpatialVec T))
  : list (SpatialVec T) * list (SpatialVec T) :=
  let n := nodeNum node in
  let myBodyForce := bodyForces !!! n in
  let allZ := <[n := svsub (getCentrifugalForces n dc) myBodyForce]> allZ in
  let allZ :=
    foldl (fun allZ child =>
             let phiChild := getPhi (nodeNum child) pc in
             let zChild := allZ !!! nodeNum child in
             let GepsChild := allGepsilon !!! nodeNum child in
             <[n := svadd (allZ !!! n) (phi_mul phiChild (svadd zChild GepsChild))]> allZ)
          allZ children in
  (allZ, <[n := SpatialVec_0]> allGepsilon).

Definition calcUDotPass2Outward (node : RigidBodyNode T) (pc : SBPositionCache T)
    (dc : SBDynamicsCache T) (allA_GB : list (SpatialVec T))
  : list (SpatialVec T) :=
  (* Shift parent's A_GB outward. (Ground A_GB is zero.) *)
  let A_GP := if Nat.eqb (parent node) 0
              then mkSpatialVec Vec3_0 Vec3_0
              else phiT_mul (getPhi (nodeNum node) pc) (allA_GB !!! parent node) in
  <[nodeNum node := svadd A_GP (getCoriolisAcceleration (nodeNum node) dc)]> allA_GB.

Definition calcMInverseFPass1Inward (node : RigidBodyNode T)
    (children : list (RigidBodyNode T)) (pc : SBPositionCache T)
    (allZ allGepsilon : list (SpatialVec T))
  : list (SpatialVec T) * list (SpatialVec T) :=
  let n := nodeNum node in
  let allZ := <[n := mkSpatialVec Vec3_0 Vec3_0]> allZ in
  let allZ :=
    foldl (fun allZ child =>
             let phiChild := getPhi (nodeNum child) pc in
             let zChild := allZ !!! nodeNum child in
             let GepsChild := allGepsilon !!! nodeNum child in
             <[n := svadd (allZ !!! n) (phi_mul phiChild (svadd zChild GepsChild))]> allZ)
          allZ children in
  (allZ, <[n := SpatialVec_0]> allGepsilon).

Definition calcMInverseFPass2Outward (node : RigidBodyNode T)
    (pc : SBPositionCache T) (allA_GB : list (SpatialVec T))
  : list (SpatialVec T) :=
  (* Shift parent's A_GB outward. (Ground A_GB is zero.) *)
  let A_GP := if Nat.eqb (parent node) 0
              then mkSpatialVec Vec3_0 Vec3_0
              else phiT_mul (getPhi (nodeNum node) pc) (allA_GB !!! parent node) in
  <[nodeNum node := A_GP]> allA_GB.

Definition calcMAPass1Outward (node : RigidBodyNode T)
    (pc : SBPositionCache T) (allA_GB : list (SpatialVec T))
  : list (SpatialVec T) :=
  (* Shift parent's A_GB outward. (Ground A_GB is zero.) *)
  let A_GP := if Nat.eqb (parent node) 0
              then mkSpatialVec Vec3_0 Vec3_0
              else phiT_mul (getPhi (nodeNum node) pc) (allA_GB !!! parent node) in
  <[nodeNum node := A_GP]> allA_GB.

Definition calcMAPass2Inward (node : RigidBodyNode T)
    (children : list (RigidBodyNode T)) (pc : SBPositionCache T)
    (pf : SBPositionCacheFrames T) (allA_GB allF : list (SpatialVec T))
  : list (SpatialVec T) :=
  let n := nodeNum node in
  let A_GB := allA_GB !!! n in
  let allF := <[n := mkSpatialVec Vec3_0 Vec3_0]> allF in
  let allF :=
    foldl (fun allF child =>
             let phiChild := getPhi (nodeNum child) pc in
             let FChild := allF !!! nodeNum child in
             <[n := svadd (allF !!! n) (phi_mul phiChild FChild)]> allF)
          allF children in
  <[n := svadd (allF !!! n) (smvmul (getMk n pf) A_GB)]> allF.
End WithReal.
End RBNodeWeld.

(** ** The mobilizers (classes derived from RigidBodyNodeSpec<dof>) *)

(** Modelled from the spec: the views of a node's own slots of a coordinate
    vector [q] or of a speed vector [u] ([from1Q], [toQ], [toQuat],
    [toQVec3], ... of RigidBodyNodeSpec) are not in the sources; by section 3 a
    node owns a contiguous range of slots of the global vectors, which starts
    at its [qIndex], [uIndex]. *)
Section SlotViews.
Context {T : Type} {SC : Scalar T}.
Variable node : RigidBodyNode T.

Definition from1Q (q : list T) : T := slot q (qIndex node).
Definition to1Q (q : list T) (x : T) : list T := <[qIndex node := x]> q.
Definition from1U (u : list T) : T := slot u (uIndex node).
Definition to1U (u : list T) (x : T) : list T := <[uIndex node := x]> u.
(** [fromQ(q)[i]] and [toQ(q)[i] = x]. *)
Definition fromQ_at (q : list T) (i : nat) : T := slot q (qIndex node + i).
Definition toQ_at (q : list T) (i : nat) (x : T) : list T :=
  <[qIndex node + i := x]> q.
Definition toU_at (u : list T) (i : nat) (x : T) : list T :=
  <[uIndex node + i := x]> u.
(** [fromQ], [toQ], [toU] of a node with three slots. *)
Definition fromQ3 (q : list T) : Vec3 T := getVec3 q (qIndex node).
Definition toQ3 (q : list T) (v : Vec3 T) : list T := setVec3 q (qIndex node) v.
Definition fromU3 (u : list T) : Vec3 T := getVec3 u (uIndex node).
Definition toU3 (u : list T) (v : Vec3 T) : list T := setVec3 u (uIndex node) v.
Definition fromQuat (q : list T) : Vec4 T := getVec4 q (qIndex node).
Definition toQuat (q : list T) (v : Vec4 T) : list T := setVec4 q (qIndex node) v.
Definition fromQVec3 (q : list T) (offs : nat) : Vec3 T :=
  getVec3 q (qIndex node + offs).
Definition toQVec3 (q : list T) (offs : nat) (v : Vec3 T) : list T :=
  setVec3 q (qIndex node + offs) v.
Definition toUVec3 (u : list T) (offs : nat) (v : Vec3 T) : list T :=
  setVec3 u (uIndex node + offs) v.
End SlotViews.

(** The cross-mobilizer transform and velocity in the frames that define the
    mobilizer, whether or not it is reversed.  The finders belong to
    RigidBodyNodeSpec, which is not in the sources: they are an interface
    here. *)
Class Finders (T : Type) := {
  findX_F0M0  : RigidBodyNode T -> SBPositionCache T -> Transform T;
  findV_F0M0  : RigidBodyNode T -> SBPositionCache T -> SBVelocityCache T -> SpatialVec T;
  find_w_F0M0 : RigidBodyNode T -> SBPositionCache T -> SBVelocityCache T -> Vec3 T }.

(** *** Translation (Cartesian) *)
Module RBNodeTranslate.
Section WithReal.
Context {T : Type} {SC : Scalar T}.
Local Open Scope real_scope.
Variable node : RigidBodyNode T.

Definition getDOF : nat := 3.

Definition setQToFitRotationImpl (sbs : SBStateDigest T) (R_FM : Mat33 T)
    (q : list T) : list T :=
  (* the only rotation this mobilizer can represent is identity *)
  q.
Definition setQToFitTranslationImpl (sbs : SBStateDigest T) (p_FM : Vec3 T)
    (q : list T) : list T :=
  toQ3 node q p_FM.
Definition setUToFitAngularVelocityImpl (sbs : SBStateDigest T) (q : list T)
    (w_FM : Vec3 T) (u : list T) : list T :=
  (* The only angular velocity this can represent is zero. *)
  u.
Definition setUToFitLinearVelocityImpl (sbs : SBStateDigest T) (q : list T)
    (v_FM : Vec3 T) (u : list T) : list T :=
  toU3 node u v_FM.

Definition calcAcrossJointTransform (sbs : SBStateDigest T) (q : list T)
  : Transform T :=
  mkTransform Mat33_1 (fromQ3 node q).

Definition calcAcrossJointVelocityJacobian (sbs : SBStateDigest T)
  : list (SpatialVec T) :=
  [ mkSpatialVec Vec3_0 (mkVec3 1 0 0);
    mkSpatialVec Vec3_0 (mkVec3 0 1 0);
    mkSpatialVec Vec3_0 (mkVec3 0 0 1) ].

(** Since the Jacobian above is constant in F, its time derivative is zero. *)
Definition calcAcrossJointVelocityJacobianDot (sbs : SBStateDigest T)
  : list (SpatialVec T) :=
  [ mkSpatialVec Vec3_0 Vec3_0;
    mkSpatialVec Vec3_0 Vec3_0;
    mkSpatialVec Vec3_0 Vec3_0 ].

(** Override the computation of reverse-H for this simple mobilizer. *)
Definition calcReverseMobilizerH_FM (sbs : SBStateDigest T)
  : list (SpatialVec T) :=
  [ mkSpatialVec Vec3_0 (mkVec3 (rneg 1) 0 0);
    mkSpatialVec Vec3_0 (mkVec3 0 (rneg 1) 0);
    mkSpatialVec Vec3_0 (mkVec3 0 0 (rneg 1)) ].

Definition calcReverseMobilizerHDot_FM (sbs : SBStateDigest T)
  : list (SpatialVec T) :=
  [ mkSpatialVec Vec3_0 Vec3_0;
    mkSpatialVec Vec3_0 Vec3_0;
    mkSpatialVec Vec3_0 Vec3_0 ].
End WithReal.
End RBNodeTranslate.

(** *** Sliding (prismatic) *)
Module RBNodeSlider.
Section WithReal.
Context {T : Type} {SC : Scalar T}.
Local Open Scope real_scope.
Variable node : RigidBodyNode T.

Definition getDOF : nat := 1.

Definition setQToFitRotationImpl (sbs : SBStateDigest T) (R_FM : Mat33 T)
    (q : list T) : list T :=
  (* The only rotation a slider can represent is identity. *)
  q.
Definition setQToFitTranslationImpl (sbs : SBStateDigest T) (p_FM : Vec3 T)
    (q : list T) : list T :=
  (* We can only represent the x coordinate with this joint. *)
  to1Q node q (vx p_FM).
Definition setUToFitAngularVelocityImpl (sbs : SBStateDigest T) (q : list T)
    (w_FM : Vec3 T) (u : list T) : list T :=
  u.
Definition setUToFitLinearVelocityImpl (sbs : SBStateDigest T) (q : list T)
    (v_FM : Vec3 T) (u : list T) : list T :=
  to1U node u (vx v_FM).

Definition calcAcrossJointTransform (sbs : SBStateDigest T) (q : list T)
  : Transform T :=
  mkTransform Mat33_1 (mkVec3 (from1Q node q) 0 0).

Definition calcAcrossJointVelocityJacobian (sbs : SBStateDigest T)
  : list (SpatialVec T) :=
  [ mkSpatialVec Vec3_0 (mkVec3 1 0 0) ].

Definition calcAcrossJointVelocityJacobianDot (sbs : SBStateDigest T)
  : list (SpatialVec T) :=
  [ mkSpatialVec Vec3_0 Vec3_0 ].

Definition calcReverseMobilizerH_FM (sbs : SBStateDigest T)
  : list (SpatialVec T) :=
  [ mkSpatialVec Vec3_0 (mkVec3 (rneg 1) 0 0) ].

Definition calcReverseMobilizerHDot_FM (sbs : SBStateDigest T)
  : list (SpatialVec T) :=
  [ mkSpatialVec Vec3_0 Vec3_0 ].
End WithReal.
End RBNodeSlider.

(** *** Pin (torsion) *)
Module RBNodeTorsion.
Section WithReal.
Context {T : Type} {SC : Scalar T} {SQ : Sqrt T} {TR : Trig T}.
Local Open Scope real_scope.
Variable node : RigidBodyNode T.

Definition getDOF : nat := 1.

Definition setQToFitTranslationImpl (sbs : SBStateDigest T) (p_FM : Vec3 T)
    (q : list T) : list T :=
  (* the only translation we can represent is 0 *)
  q.
Definition setUToFitAngularVelocityImpl (sbs : SBStateDigest T) (q : list T)
    (w_FM : Vec3 T) (u : list T) : list T :=
  to1U node u (vz w_FM). (* project angular velocity onto z axis *)
Definition setUToFitLinearVelocityImpl (sbs : SBStateDigest T) (q : list T)
    (v_FM : Vec3 T) (u : list T) : list T :=
  u.

Definition calcAcrossJointTransform (sbs : SBStateDigest T) (q : list T)
  : Transform T :=
  let theta := from1Q node q in (* angular coordinate *)
  mkTransform (setRotationFromAngleAboutZ theta) Vec3_0.

Definition calcAcrossJointVelocityJacobian (sbs : SBStateDigest T)
  : list (SpatialVec T) :=
  [ mkSpatialVec (mkVec3 0 0 1) Vec3_0 ].

Definition calcAcrossJointVelocityJacobianDot (sbs : SBStateDigest T)
  : list (SpatialVec T) :=
  [ mkSpatialVec Vec3_0 Vec3_0 ].

Definition calcReverseMobilizerH_FM (sbs : SBStateDigest T)
  : list (SpatialVec T) :=
  [ mkSpatialVec (mkVec3 0 0 (rneg 1)) Vec3_0 ].

Definition calcReverseMobilizerHDot_FM (sbs : SBStateDigest T)
  : list (SpatialVec T) :=
  [ mkSpatialVec Vec3_0 Vec3_0 ]. (* doesn't get better than this! *)
End WithReal.
End RBNodeTorsion.

(** *** Screw: rotation about z coupled to translation along z by the pitch *)
Module RBNodeScrew.
Section WithReal.
Context {T : Type} {SC : Scalar T} {SQ : Sqrt T} {TR : Trig T}.
Local Open Scope real_scope.
Variable node : RigidBodyNode T.
Variable pitch : T.

Definition getDOF : nat := 1.

Definition setQToFitTranslationImpl (sbs : SBStateDigest T) (p_FM : Vec3 T)
    (q : list T) : list T :=
  to1Q node q (vz p_FM / pitch).
Definition setUToFitAngularVelocityImpl (sbs : SBStateDigest T) (q : list T)
    (w_FM : Vec3 T) (u : list T) : list T :=
  to1U node u (vz w_FM).
Definition setUToFitLinearVelocityImpl (sbs : SBStateDigest T) (q : list T)
    (v_FM : Vec3 T) (u : list T) : list T :=
  to1U node u (vz v_FM / pitch).

Definition calcAcrossJointTransform (sbs : SBStateDigest T) (q : list T)
  : Transform T :=
  let theta := from1Q node q in (* angular coordinate *)
  mkTransform (setRotationFromAngleAboutZ theta) (mkVec3 0 0 (theta * pitch)).

Definition calcAcrossJointVelocityJacobian (sbs : SBStateDigest T)
  : list (SpatialVec T) :=
  [ mkSpatialVec (mkVec3 0 0 1) (mkVec3 0 0 pitch) ].

Definition calcAcrossJointVelocityJacobianDot (sbs : SBStateDigest T)
  : list (SpatialVec T) :=
  [ mkSpatialVec Vec3_0 Vec3_0 ].

Definition calcReverseMobilizerH_FM (sbs : SBStateDigest T)
  : list (SpatialVec T) :=
  [ mkSpatialVec (mkVec3 0 0 (rneg 1)) (mkVec3 0 0 (- pitch)) ].

Definition calcReverseMobilizerHDot_FM (sbs : SBStateDigest T)
  : list (SpatialVec T) :=
  [ mkSpatialVec Vec3_0 Vec3_0 ].
End WithReal.
End RBNodeScrew.

(** *** Cylinder: rotation about z and translation along z *)
Module RBNodeCylinder.
Section WithReal.
Context {T : Type} {SC : Scalar T} {SQ : Sqrt T} {TR : Trig T}.
Local Open Scope real_scope.
Variable node : RigidBodyNode T.

Definition getDOF : nat := 2.

Definition setQToFitTranslationImpl (sbs : SBStateDigest T) (p_FM : Vec3 T)
    (q : list T) : list T :=
  toQ_at node q 1 (vz p_FM).

Definition calcAcrossJointTransform (sbs : SBStateDigest T) (q : list T)
  : Transform T :=
  mkTransform (setRotationFromAngleAboutZ (fromQ_at node q 0))
              (mkVec3 0 0 (fromQ_at node q 1)).

Definition calcAcrossJointVelocityJacobian (sbs : SBStateDigest T)
  : list (SpatialVec T) :=
  [ mkSpatialVec (mkVec3 0 0 1) Vec3_0;
    mkSpatialVec Vec3_0 (mkVec3 0 0 1) ].

Definition calcAcrossJointVelocityJacobianDot (sbs : SBStateDigest T)
  : list (SpatialVec T) :=
  [ mkSpatialVec Vec3_0 Vec3_0;
    mkSpatialVec Vec3_0 Vec3_0 ].

Definition calcReverseMobilizerH_FM (sbs : SBStateDigest T)
  : list (SpatialVec T) :=
  [ mkSpatialVec (mkVec3 0 0 (rneg 1)) Vec3_0;
    mkSpatialVec Vec3_0 (mkVec3 0 0 (rneg 1)) ].

Definition calcReverseMobilizerHDot_FM (sbs : SBStateDigest T)
  : list (SpatialVec T) :=
  [ mkSpatialVec Vec3_0 Vec3_0;
    mkSpatialVec Vec3_0 Vec3_0 ].
End WithReal.
End RBNodeCylinder.

(** *** Bend-stretch: rotation about z, translation along M's x *)
Module RBNodeBendStretch.
Section WithReal.
Context {T : Type} {SC : Scalar T} {FI : Finders T}.
Local Open Scope real_scope.
Variable node : RigidBodyNode T.

Definition getDOF : nat := 2.

Definition calcAcrossJointVelocityJacobianDot (sbs : SBStateDigest T)
  : list (SpatialVec T) :=
  let pc := getPositionCache sbs in
  let vc := getVelocityCache sbs in
  let X_F0M0 := findX_F0M0 node pc in
  let R_F0M0 := R_ X_F0M0 in
  let V_F0M0 := findV_F0M0 node pc vc in
  let Mx_F := col_x R_F0M0 in (* M's x axis, expressed in F *)
  let w_FM := ang V_F0M0 in
  let v_FM := lin V_F0M0 in
  [ mkSpatialVec Vec3_0 (cross (mkVec3 0 0 1) v_FM);
    mkSpatialVec Vec3_0 (cross w_FM Mx_F) ].
End WithReal.

Section Position.
Context {T : Type} {SC : Scalar T} {TR : Trig T} {FI : Finders T}.
Local Open Scope real_scope.
Variable node : RigidBodyNode T.

Definition setUToFitAngularVelocityImpl (sbs : SBStateDigest T) (q : list T)
    (w_FM : Vec3 T) (u : list T) : list T :=
  (* We can only represent an angular velocity along z with this joint. *)
  toU_at node u 0 (vz w_FM).

Definition calcAcrossJointTransform (sbs : SBStateDigest T) (q : list T)
  : Transform T :=
  let R := setRotationFromAngleAboutZ (fromQ_at node q 0) in
  (* because translation is in M frame *)
  mkTransform R (mvmul R (mkVec3 (fromQ_at node q 1) 0 0)).

Definition calcAcrossJointVelocityJacobian (sbs : SBStateDigest T)
  : list (SpatialVec T) :=
  let pc := getPositionCache sbs in
  let X_F0M0 := findX_F0M0 node pc in
  let R_F0M0 := R_ X_F0M0 in
  let p_FM := p_ X_F0M0 in
  let Mx_F := col_x R_F0M0 in (* M's x axis, expressed in F *)
  [ mkSpatialVec (mkVec3 0 0 1) (cross (mkVec3 0 0 1) p_FM);
    mkSpatialVec Vec3_0 Mx_F ].
End Position.
End RBNodeBendStretch.

(** *** Universal joint *)
Module RBNodeUJoint.
Section WithReal.
Context {T : Type} {SC : Scalar T} {FI : Finders T}.
Local Open Scope real_scope.
Variable node : RigidBodyNode T.

Definition getDOF : nat := 2.

Definition calcAcrossJointVelocityJacobianDot (sbs : SBStateDigest T)
  : list (SpatialVec T) :=
  let pc := getPositionCache sbs in
  let vc := getVelocityCache sbs in
  let X_F0M0 := findX_F0M0 node pc in
  let R_FM := R_ X_F0M0 in
  let w_FM := find_w_F0M0 node pc vc in
  [ mkSpatialVec Vec3_0 Vec3_0;
    mkSpatialVec (cross w_FM (col_y R_FM)) Vec3_0 ].
End WithReal.
End RBNodeUJoint.

(** *** Planar *)
Module RBNodePlanar.
Section WithReal.
Context {T : Type} {SC : Scalar T}.
Local Open Scope real_scope.

Definition getDOF : nat := 3.

Definition calcAcrossJointVelocityJacobian (sbs : SBStateDigest T)
  : list (SpatialVec T) :=
  [ mkSpatialVec (mkVec3 0 0 1) Vec3_0;
    mkSpatialVec Vec3_0 (mkVec3 1 0 0);
    mkSpatialVec Vec3_0 (mkVec3 0 1 0) ].

Definition calcAcrossJointVelocityJacobianDot (sbs : SBStateDigest T)
  : list (SpatialVec T) :=
  [ mkSpatialVec Vec3_0 Vec3_0;
    mkSpatialVec Vec3_0 Vec3_0;
    mkSpatialVec Vec3_0 Vec3_0 ].
End WithReal.

Section Position.
Context {T : Type} {SC : Scalar T} {TR : Trig T}.
Local Open Scope real_scope.
Variable node : RigidBodyNode T.

Definition setQToFitTranslationImpl (sbs : SBStateDigest T) (p_FM : Vec3 T)
    (q : list T) : list T :=
  (* Ignore translation in the z direction. *)
  let q := toQ_at node q 1 (vx p_FM) in (* x *)
  toQ_at node q 2 (vy p_FM).            (* y *)

Definition setUToFitAngularVelocityImpl (sbs : SBStateDigest T) (q : list T)
    (w_FM : Vec3 T) (u : list T) : list T :=
  (* We can represent the z angular velocity exactly, but nothing else. *)
  toU_at node u 0 (vz w_FM).

Definition setUToFitLinearVelocityImpl (sbs : SBStateDigest T) (q : list T)
    (v_FM : Vec3 T) (u : list T) : list T :=
  (* Ignore translational velocity in the z direction. *)
  let u := toU_at node u 1 (vx v_FM) in (* x *)
  toU_at node u 2 (vy v_FM).            (* y *)

Definition calcAcrossJointTransform (sbs : SBStateDigest T) (q : list T)
  : Transform T :=
  (* Rotational q is about common z axis, translational q's along Fx and Fy. *)
  mkTransform (setRotationFromAngleAboutZ (fromQ_at node q 0))
              (mkVec3 (fromQ_at node q 1) (fromQ_at node q 2) 0).
End Position.
End RBNodePlanar.

(** *** Gimbal: three body-fixed Euler angles *)
Module RBNodeGimbal.
Section WithReal.
Context {T : Type} {SC : Scalar T}.
Local Open Scope real_scope.

Definition getDOF : nat := 3.

Definition calcAcrossJointVelocityJacobian (sbs : SBStateDigest T)
  : list (SpatialVec T) :=
  [ mkSpatialVec (mkVec3 1 0 0) Vec3_0;
    mkSpatialVec (mkVec3 0 1 0) Vec3_0;
    mkSpatialVec (mkVec3 0 0 1) Vec3_0 ].

Definition calcAcrossJointVelocityJacobianDot (sbs : SBStateDigest T)
  : list (SpatialVec T) :=
  [ mkSpatialVec Vec3_0 Vec3_0;
    mkSpatialVec Vec3_0 Vec3_0;
    mkSpatialVec Vec3_0 Vec3_0 ].
End WithReal.

Section Position.
Context {T : Type} {SC : Scalar T} {TR : Trig T}.
Local Open Scope real_scope.
Variable node : RigidBodyNode T.

Definition setUToFitAngularVelocityImpl (sbs : SBStateDigest T) (q : list T)
    (w_FM : Vec3 T) (u : list T) : list T :=
  toU3 node u w_FM. (* relative angular velocity always used as generalized speeds *)

(** Precalculate sines and cosines. *)
Definition calcJointSinCosQNorm (q sine cosine qErr qnorm : list T)
  : list T * list T * list T * list T :=
  let a := fromQ3 node q in (* angular coordinates *)
  (toQ3 node sine (mkVec3 (rsin (vx a)) (rsin (vy a)) (rsin (vz a))),
   toQ3 node cosine (mkVec3 (rcos (vx a)) (rcos (vy a)) (rcos (vz a))),
   qErr, qnorm). (* no quaternions *)

Definition calcAcrossJointTransform (sbs : SBStateDigest T) (q : list T)
  : Transform T :=
  (* This joint can't translate. *)
  mkTransform (setRotationToBodyFixedXYZ (fromQ3 node q)) Vec3_0.
End Position.
End RBNodeGimbal.

(** The quaternion renormalization that every quaternion-capable mobilizer
    repeats word for word in its [enforceQuaternionConstraints]: nothing
    when Euler angles are in use; otherwise the quaternion slots of [q] are
    divided by their norm and, when an error estimate is supplied, its
    component along the new quaternion is removed. *)
Section EnforceQuaternionConstraints.
Context {T : Type} {SC : Scalar T} {SQ : Sqrt T} {TR : Trig T}.
Variable node : RigidBodyNode T.

Definition enforceQuaternionConstraints_body (sbs : SBStateDigest T)
    (q qErrest : list T) : bool * list T * list T :=
  if useEulerAngles sbs then (false, q, qErrest) (* no change *)
  else
    let quat := fromQuat node q in
    let q := toQuat node q (v4div quat (norm4 quat)) in
    let quat := fromQuat node q in
    let qErrest :=
      if Nat.eqb (length qErrest) 0 then qErrest
      else
        let qerr := fromQuat node qErrest in
        toQuat node qErrest (v4sub qerr (v4scale (dot4 qerr quat) quat)) in
    (true, q, qErrest).
End EnforceQuaternionConstraints.

(** *** Orientation (ball) *)
Module RBNodeBall.
Section WithReal.
Context {T : Type} {SC : Scalar T} {SQ : Sqrt T} {TR : Trig T}.
Local Open Scope real_scope.
Variable node : RigidBodyNode T.

Definition getDOF : nat := 3.

Definition calcAcrossJointTransform (sbs : SBStateDigest T) (q : list T)
  : Transform T :=
  (* This joint can't translate. *)
  if useEulerAngles sbs
  then mkTransform (setRotationToBodyFixedXYZ (fromQ3 node q)) Vec3_0
  else mkTransform (setRotationFromQuaternion (Quaternion (fromQuat node q))) Vec3_0.

Definition calcAcrossJointVelocityJacobian (sbs : SBStateDigest T)
  : list (SpatialVec T) :=
  [ mkSpatialVec (mkVec3 1 0 0) Vec3_0;
    mkSpatialVec (mkVec3 0 1 0) Vec3_0;
    mkSpatialVec (mkVec3 0 0 1) Vec3_0 ].

Definition calcAcrossJointVelocityJacobianDot (sbs : SBStateDigest T)
  : list (SpatialVec T) :=
  [ mkSpatialVec Vec3_0 Vec3_0;
    mkSpatialVec Vec3_0 Vec3_0;
    mkSpatialVec Vec3_0 Vec3_0 ].

Definition enforceQuaternionConstraints (sbs : SBStateDigest T)
    (q qErrest : list T) : bool * list T * list T :=
  enforceQuaternionConstraints_body node sbs q qErrest.

Definition setQToFitTranslationImpl (sbs : SBStateDigest T) (p_FM : Vec3 T)
    (q : list T) : list T :=
  (* the only translation we can represent is 0 *)
  q.

Definition setUToFitAngularVelocityImpl (sbs : SBStateDigest T) (q : list T)
    (w_FM : Vec3 T) (u : list T) : list T :=
  toU3 node u w_FM. (* relative angular velocity always used as generalized speeds *)

Definition setUToFitLinearVelocityImpl (sbs : SBStateDigest T) (q : list T)
    (v_FM : Vec3 T) (u : list T) : list T :=
  (* the only linear velocity we can represent is 0 *)
  u.

(** Precalculate sines and cosines, or the norm of the quaternion and its
    error.  [qErrSlot] is the node's slot in the pool of quaternion errors,
    [ic.firstQuaternionQErrSlot + bInfo.quaternionPoolIndex]. *)
Definition calcJointSinCosQNorm (useEuler : bool) (qErrSlot : nat) (q : list T)
    (sine cosine qErr qnorm : list T) : list T * list T * list T * list T :=
  if useEuler then
    let a := fromQ3 node q in (* angular coordinates *)
    (toQ3 node sine (mkVec3 (rsin (vx a)) (rsin (vy a)) (rsin (vz a))),
     toQ3 node cosine (mkVec3 (rcos (vx a)) (rcos (vy a)) (rcos (vz a))),
     qErr, qnorm) (* no quaternions *)
  else
    (* no angles *)
    let quat := fromQuat node q in (* unnormalized quaternion from state *)
    let quatLen := norm4 quat in
    (sine, cosine,
     <[qErrSlot := quatLen - 1]> qErr,
     toQuat node qnorm (v4div quat quatLen)).

Definition copyQ (useEuler : bool) (qIn q : list T) : list T :=
  if useEuler then toQ3 node q (fromQ3 node qIn)
  else toQuat node q (fromQuat node qIn).

Definition setMobilizerDefaultPositionValues (useEuler : bool) (q : list T)
  : list T :=
  if useEuler then
    let q := toQuat node q Vec4_0 in (* clear unused element *)
    toQ3 node q Vec3_0
  else toQuat node q (mkVec4 1 0 0 0).
End WithReal.
End RBNodeBall.

(** *** Ellipsoid: the M origin rides on an ellipsoid fixed in F *)
Module RBNodeEllipsoid.
Section WithReal.
Context {T : Type} {SC : Scalar T} {SQ : Sqrt T} {TR : Trig T} {FI : Finders T}.
Local Open Scope real_scope.
Variable node : RigidBodyNode T.
Variable semi : Vec3 T. (* semi axis dimensions in x,y,z resp. *)

Definition getDOF : nat := 3.

Definition setUToFitAngularVelocityImpl (sbs : SBStateDigest T) (q : list T)
    (w_FM : Vec3 T) (u : list T) : list T :=
  toU3 node u w_FM.

Definition calcAcrossJointTransform (sbs : SBStateDigest T) (q : list T)
  : Transform T :=
  (* Calcuate the rotation R_FM first. *)
  let R_F0M0 :=
    if useEulerAngles sbs
    then setRotationToBodyFixedXYZ (fromQ3 node q)
    else setRotationFromQuaternion (Quaternion (fromQuat node q)) in
  let n := col_z R_F0M0 in
  mkTransform R_F0M0 (mkVec3 (vx semi * vx n) (vy semi * vy n) (vz semi * vz n)).

Definition calcAcrossJointVelocityJacobian (sbs : SBStateDigest T)
  : list (SpatialVec T) :=
  let pc := getPositionCache sbs in
  let n := col_z (R_ (findX_F0M0 node pc)) in
  [ mkSpatialVec (mkVec3 1 0 0) (mkVec3 0 (- vz n * vy semi) (vy n * vz semi));
    mkSpatialVec (mkVec3 0 1 0) (mkVec3 (vz n * vx semi) 0 (- vx n * vz semi));
    mkSpatialVec (mkVec3 0 0 1) (mkVec3 (- vy n * vx semi) (vx n * vy semi) 0) ].

Definition calcAcrossJointVelocityJacobianDot (sbs : SBStateDigest T)
  : list (SpatialVec T) :=
  let pc := getPositionCache sbs in
  let vc := getVelocityCache sbs in
  let n := col_z (R_ (findX_F0M0 node pc)) in
  let w_F0M0 := find_w_F0M0 node pc vc in
  let ndot := cross w_F0M0 n in (* w_FM x n *)
  [ mkSpatialVec Vec3_0 (mkVec3 0 (- vz ndot * vy semi) (vy ndot * vz semi));
    mkSpatialVec Vec3_0 (mkVec3 (vz ndot * vx semi) 0 (- vx ndot * vz semi));
    mkSpatialVec Vec3_0 (mkVec3 (- vy ndot * vx semi) (vx ndot * vy semi) 0) ].

Definition enforceQuaternionConstraints (sbs : SBStateDigest T)
    (q qErrest : list T) : bool * list T * list T :=
  enforceQuaternionConstraints_body node sbs q qErrest.
End WithReal.
End RBNodeEllipsoid.

(** *** Free: orientation and translation, six degrees of freedom *)
Module RBNodeFree.
Section WithReal.
Context {T : Type} {SC : Scalar T} {SQ : Sqrt T} {TR : Trig T}.
Local Open Scope real_scope.
Variable node : RigidBodyNode T.

Definition getDOF : nat := 6.

Definition setQToFitTranslationImpl (sbs : SBStateDigest T) (p_FM : Vec3 T)
    (q : list T) : list T :=
  if useEulerAngles sbs
  then toQVec3 node q 3 p_FM (* skip the 3 Euler angles *)
  else toQVec3 node q 4 p_FM. (* skip the 4 quaternions *)

Definition calcAcrossJointTransform (sbs : SBStateDigest T) (q : list T)
  : Transform T :=
  if useEulerAngles sbs
  then mkTransform (setRotationToBodyFixedXYZ (fromQVec3 node q 0))
                   (fromQVec3 node q 3)
  else mkTransform (setRotationFromQuaternion (Quaternion (fromQuat node q)))
                   (fromQVec3 node q 4).

Definition calcAcrossJointVelocityJacobian (sbs : SBStateDigest T)
  : list (SpatialVec T) :=
  [ mkSpatialVec (mkVec3 1 0 0) Vec3_0;  (* rotations *)
    mkSpatialVec (mkVec3 0 1 0) Vec3_0;
    mkSpatialVec (mkVec3 0 0 1) Vec3_0;
    mkSpatialVec Vec3_0 (mkVec3 1 0 0);  (* translations *)
    mkSpatialVec Vec3_0 (mkVec3 0 1 0);
    mkSpatialVec Vec3_0 (mkVec3 0 0 1) ].

(** Since the Jacobian above is constant in F, its derivative in F is 0. *)
Definition calcAcrossJointVelocityJacobianDot (sbs : SBStateDigest T)
  : list (SpatialVec T) :=
  [ mkSpatialVec Vec3_0 Vec3_0;
    mkSpatialVec Vec3_0 Vec3_0;
    mkSpatialVec Vec3_0 Vec3_0;
    mkSpatialVec Vec3_0 Vec3_0;
    mkSpatialVec Vec3_0 Vec3_0;
    mkSpatialVec Vec3_0 Vec3_0 ].

Definition enforceQuaternionConstraints (sbs : SBStateDigest T)
    (q qErrest : list T) : bool * list T * list T :=
  enforceQuaternionConstraints_body node sbs q qErrest.

Definition setUToFitAngularVelocityImpl (sbs : SBStateDigest T) (q : list T)
    (w_FM : Vec3 T) (u : list T) : list T :=
  toUVec3 node u 0 w_FM. (* relative angular velocity always used as generalized speeds *)

Definition setUToFitLinearVelocityImpl (sbs : SBStateDigest T) (q : list T)
    (v_FM : Vec3 T) (u : list T) : list T :=
  toUVec3 node u 3 v_FM.

(** [toQ(q) = fromQ(qIn)] copies the six slots of the node. *)
Definition copyQ (useEuler : bool) (qIn q : list T) : list T :=
  if useEuler then
    toQVec3 node (toQVec3 node q 0 (fromQVec3 node qIn 0)) 3 (fromQVec3 node qIn 3)
  else
    let q := toQuat node q (fromQuat node qIn) in
    toQVec3 node q 4 (fromQVec3 node qIn 4).

Definition setMobilizerDefaultPositionValues (useEuler : bool) (q : list T)
  : list T :=
  if useEuler then
    let q := toQVec3 node q 4 Vec3_0 in (* clear unused element *)
    toQVec3 node (toQVec3 node q 0 Vec3_0) 3 Vec3_0
  else
    let q := toQuat node q (mkVec4 1 0 0 0) in
    toQVec3 node q 4 Vec3_0.
End WithReal.
End RBNodeFree.

(** *** Line orientation and free line *)
Module RBNodeLineOrientation.
Section WithReal.
Context {T : Type} {SC : Scalar T} {SQ : Sqrt T} {TR : Trig T} {FI : Finders T}.
Variable node : RigidBodyNode T.

Definition getDOF : nat := 2.

Definition calcAcrossJointVelocityJacobianDot (sbs : SBStateDigest T)
  : list (SpatialVec T) :=
  let pc := getPositionCache sbs in
  let vc := getVelocityCache sbs in
  let R_FM := R_ (findX_F0M0 node pc) in
  let Mx_F := col_x R_FM in
  let My_F := col_y R_FM in
  let w_FM := find_w_F0M0 node pc vc in
  [ mkSpatialVec (cross w_FM Mx_F) Vec3_0;
    mkSpatialVec (cross w_FM My_F) Vec3_0 ].

Definition enforceQuaternionConstraints (sbs : SBStateDigest T)
    (q qErrest : list T) : bool * list T * list T :=
  enforceQuaternionConstraints_body node sbs q qErrest.
End WithReal.
End RBNodeLineOrientation.

Module RBNodeFreeLine.
Section WithReal.
Context {T : Type} {SC : Scalar T} {SQ : Sqrt T} {TR : Trig T} {FI : Finders T}.
Variable node : RigidBodyNode T.

Definition getDOF : nat := 5.

Definition calcAcrossJointVelocityJacobianDot (sbs : SBStateDigest T)
  : list (SpatialVec T) :=
  let pc := getPositionCache sbs in
  let vc := getVelocityCache sbs in
  let R_FM := R_ (findX_F0M0 node pc) in
  let Mx_F := col_x R_FM in
  let My_F := col_y R_FM in
  let w_FM := find_w_F0M0 node pc vc in
  [ mkSpatialVec (cross w_FM Mx_F) Vec3_0;
    mkSpatialVec (cross w_FM My_F) Vec3_0;
    (* For translation in F. *)
    mkSpatialVec Vec3_0 Vec3_0;
    mkSpatialVec Vec3_0 Vec3_0;
    mkSpatialVec Vec3_0 Vec3_0 ].

Definition enforceQuaternionConstraints (sbs : SBStateDigest T)
    (q qErrest : list T) : bool * list T * list T :=
  enforceQuaternionConstraints_body node sbs q qErrest.
End WithReal.
End RBNodeFreeLine.

(** *** Custom mobilizers *)

(** Modelled from the spec: MobilizedBody::Custom::Implementation, the user's
    side of a custom mobilizer, is not in the sources; by section 4.1 a joint
    variant declares its coordinates and provides its Jacobian.  What
    RBNodeCustom asks of it here: the number of coordinates, how many of them
    are angles (four angles are a quaternion), and the products of H and of
    HDot with a vector of speeds. *)
Record CustomImplementation (T : Type) := mkCustomImplementation {
  getNQ                : nat;
  getNumAngles         : nat;
  multiplyByHMatrix    : SBStateDigest T -> nat -> list T -> SpatialVec T;
  multiplyByHDotMatrix : SBStateDigest T -> nat -> list T -> SpatialVec T }.
Arguments mkCustomImplementation {T} _ _ _ _.
Arguments getNQ {T} _.
Arguments getNumAngles {T} _.
Arguments multiplyByHMatrix {T} _ _ _ _.
Arguments multiplyByHDotMatrix {T} _ _ _ _.

Module RBNodeCustom.
Section WithReal.
Context {T : Type} {SC : Scalar T} {SQ : Sqrt T}.
Local Open Scope real_scope.
Variable node : RigidBodyNode T.
Variable nu : nat.
Variable impl : CustomImplementation T.

Definition nq : nat := getNQ impl.
Definition nAngles : nat := getNumAngles impl.

Definition getDOF : nat := nu.

Definition getNQInUse (useEuler : bool) : nat :=
  if Nat.eqb nAngles 4 && useEuler then (nq - 1)%nat else nq.

Definition enforceQuaternionConstraints (sbs : SBStateDigest T)
    (q qErrest : list T) : bool * list T * list T :=
  if negb (Nat.eqb nAngles 4) || useEulerAngles sbs then (false, q, qErrest)
  else
    let quat := fromQuat node q in
    let q := toQuat node q (v4div quat (norm4 quat)) in
    let quat := fromQuat node q in
    let qErrest :=
      if Nat.eqb (length qErrest) 0 then qErrest
      else
        let qerr := fromQuat node qErrest in
        toQuat node qErrest (v4sub qerr (v4scale (dot4 qerr quat) quat)) in
    (true, q, qErrest).

(** [Vec<nu> u(0); u[i] = 1]. *)
Definition unitSpeeds (i : nat) : list T := <[i := 1]> (replicate nu 0).

Definition calcAcrossJointVelocityJacobian (sbs : SBStateDigest T)
  : list (SpatialVec T) :=
  (fun i => multiplyByHMatrix impl sbs nu (unitSpeeds i)) <$> seq 0 nu.

Definition calcAcrossJointVelocityJacobianDot (sbs : SBStateDigest T)
  : list (SpatialVec T) :=
  (fun i => multiplyByHDotMatrix impl sbs nu (unitSpeeds i)) <$> seq 0 nu.
End WithReal.
End RBNodeCustom.

(** ** The closed set of mobilizers, and the virtual calls *)

Inductive Mobilizer (T : Type) : Type :=
  | Translate | Slider | Torsion
  | Screw (pitch : T)
  | Cylinder | BendStretch | UJoint | Planar | Gimbal | Ball
  | Ellipsoid (semi : Vec3 T)
  | Free | LineOrientation | FreeLine
  | Custom (nu : nat) (impl : CustomImplementation T).
Arguments Translate {T}.
Arguments Slider {T}.
Arguments Torsion {T}.
Arguments Screw {T} _.
Arguments Cylinder {T}.
Arguments BendStretch {T}.
Arguments UJoint {T}.
Arguments Planar {T}.
Arguments Gimbal {T}.
Arguments Ball {T}.
Arguments Ellipsoid {T} _.
Arguments Free {T}.
Arguments LineOrientation {T}.
Arguments FreeLine {T}.
Arguments Custom {T} _ _.

(** What each class passes to the RigidBodyNodeSpec constructor. *)
Inductive QuaternionUse := QuaternionIsNeverUsed | QuaternionMayBeUsed.

Section VirtualCalls.
Context {T : Type} {SC : Scalar T} {SQ : Sqrt T} {TR : Trig T} {FI : Finders T}.

Definition getDOF (m : Mobilizer T) : nat :=
  match m with
  | Translate => RBNodeTranslate.getDOF
  | Slider => RBNodeSlider.getDOF
  | Torsion => RBNodeTorsion.getDOF
  | Screw _ => RBNodeScrew.getDOF
  | Cylinder => RBNodeCylinder.getDOF
  | BendStretch => RBNodeBendStretch.getDOF
  | UJoint => RBNodeUJoint.getDOF
  | Planar => RBNodePlanar.getDOF
  | Gimbal => RBNodeGimbal.getDOF
  | Ball => RBNodeBall.getDOF
  | Ellipsoid _ => RBNodeEllipsoid.getDOF
  | Free => RBNodeFree.getDOF
  | LineOrientation => RBNodeLineOrientation.getDOF
  | FreeLine => RBNodeFreeLine.getDOF
  | Custom nu _ => RBNodeCustom.getDOF nu
  end.

Definition quaternionUse (m : Mobilizer T) : QuaternionUse :=
  match m with
  | Ball | Ellipsoid _ | Free | LineOrientation | FreeLine => QuaternionMayBeUsed
  | Custom _ impl =>
      if Nat.eqb (getNumAngles impl) 4 then QuaternionMayBeUsed
      else QuaternionIsNeverUsed
  | _ => QuaternionIsNeverUsed
  end.

(** The mobilizers whose Jacobian H has columns that are fixed axes of F
    (the source says so above each of their
    [calcAcrossJointVelocityJacobianDot]; section 8 lists them). *)
Definition hIsConstantInF (m : Mobilizer T) : bool :=
  match m with
  | Translate | Slider | Torsion | Screw _ | Cylinder | Planar | Gimbal
  | Ball | Free => true
  | BendStretch | UJoint | Ellipsoid _ | LineOrientation | FreeLine
  | Custom _ _ => false
  end.

Definition calcAcrossJointVelocityJacobianDot (m : Mobilizer T)
    (node : RigidBodyNode T) (sbs : SBStateDigest T) : list (SpatialVec T) :=
  match m with
  | Translate => RBNodeTranslate.calcAcrossJointVelocityJacobianDot sbs
  | Slider => RBNodeSlider.calcAcrossJointVelocityJacobianDot sbs
  | Torsion => RBNodeTorsion.calcAcrossJointVelocityJacobianDot sbs
  | Screw _ => RBNodeScrew.calcAcrossJointVelocityJacobianDot sbs
  | Cylinder => RBNodeCylinder.calcAcrossJointVelocityJacobianDot sbs
  | BendStretch => RBNodeBendStretch.calcAcrossJointVelocityJacobianDot node sbs
  | UJoint => RBNodeUJoint.calcAcrossJointVelocityJacobianDot node sbs
  | Planar => RBNodePlanar.calcAcrossJointVelocityJacobianDot sbs
  | Gimbal => RBNodeGimbal.calcAcrossJointVelocityJacobianDot sbs
  | Ball => RBNodeBall.calcAcrossJointVelocityJacobianDot sbs
  | Ellipsoid semi => RBNodeEllipsoid.calcAcrossJointVelocityJacobianDot node semi sbs
  | Free => RBNodeFree.calcAcrossJointVelocityJacobianDot sbs
  | LineOrientation => RBNodeLineOrientation.calcAcrossJointVelocityJacobianDot node sbs
  | FreeLine => RBNodeFreeLine.calcAcrossJointVelocityJacobianDot node sbs
  | Custom nu impl => RBNodeCustom.calcAcrossJointVelocityJacobianDot nu impl sbs
  end.
End VirtualCalls.

Section VirtualQuaternion.
Context {T : Type} {SC : Scalar T} {SQ : Sqrt T} {TR : Trig T}.

(** Modelled from the spec: the classes that do not override
    [enforceQuaternionConstraints] inherit RigidBodyNodeSpec's, which is not
    in the sources; section 4.1 gives the renormalization to the
    quaternion-capable joints only, so the inherited method changes nothing
    and returns false. *)
Definition enforceQuaternionConstraints (m : Mobilizer T)
    (node : RigidBodyNode T) (sbs : SBStateDigest T) (q qErrest : list T)
  : bool * list T * list T :=
  match m with
  | Ball => RBNodeBall.enforceQuaternionConstraints node sbs q qErrest
  | Ellipsoid _ => RBNodeEllipsoid.enforceQuaternionConstraints node sbs q qErrest
  | Free => RBNodeFree.enforceQuaternionConstraints node sbs q qErrest
  | LineOrientation =>
      RBNodeLineOrientation.enforceQuaternionConstraints node sbs q qErrest
  | FreeLine => RBNodeFreeLine.enforceQuaternionConstraints node sbs q qErrest
  | Custom _ impl => RBNodeCustom.enforceQuaternionConstraints node impl sbs q qErrest
  | _ => (false, q, qErrest)
  end.
End VirtualQuaternion.

(** ** Force::Gravity *)

(** An exception of SimTK_ERRCHK: the method that checked, the message
    format, and the values printed into it. *)
Inductive FmtArg (T : Type) : Type :=
  | ArgReal (x : T)
  | ArgInt (n : Z).
Arguments ArgReal {T} _.
Arguments ArgInt {T} _.

Record Exception (T : Type) := mkException {
  whereChecked : string;
  fmt          : string;
  fmtArgs      : list (FmtArg T) }.
Arguments mkException {T} _ _ _.
Arguments whereChecked {T} _.
Arguments fmt {T} _.
Arguments fmtArgs {T} _.

Module GravityImpl.

(** The settable parameters: gravity direction and magnitude, zero height,
    and which mobilized bodies are immune to gravity. *)
Record InstanceVars (T : Type) := mkInstanceVars {
  d : Vec3 T;
  g : T;
  z : T;
  mobodIsImmune : list bool (* [nb] *) }.
Arguments mkInstanceVars {T} _ _ _ _.
Arguments d {T} _.
Arguments g {T} _.
Arguments z {T} _.
Arguments mobodIsImmune {T} _.

(** A SpatialVec for each mobilized body and a Vec3 for each particle. *)
Record ForceCache (T : Type) := mkForceCache {
  F_GB : list (SpatialVec T); (* rigid body forces *)
  f_GP : list (Vec3 T);       (* particle forces *)
  pe   : T                    (* total potential energy *) }.
Arguments mkForceCache {T} _ _ _.
Arguments F_GB {T} _.
Arguments f_GP {T} _.
Arguments pe {T} _.

(** Modelled from the spec: SimbodyMatterSubsystem is not in the sources; by
    section 6 a force element consumes the per-body transform and mass
    accessors.  What the gravity element reads from it (and, through it, from
    the state): the numbers of bodies and particles, the mass properties and
    ground transform of each body, the particles. *)
Record SimbodyMatterSubsystem (T : Type) := mkMatter {
  getNumBodies            : nat;
  getNumParticles         : nat;
  getMass                 : nat -> T;
  getMassCenter           : nat -> Vec3 T;
  getBodyTransform        : nat -> Transform T;
  getAllParticleMasses    : list T;
  getAllParticleLocations : list (Vec3 T) }.
Arguments mkMatter {T} _ _ _ _ _ _ _.
Arguments getNumBodies {T} _.
Arguments getNumParticles {T} _.
Arguments getMass {T} _ _.
Arguments getMassCenter {T} _ _.
Arguments getBodyTransform {T} _ _.
Arguments getAllParticleMasses {T} _.
Arguments getAllParticleLocations {T} _.

(** The element itself (its topology state). *)
Record t (T : Type) := mkImpl {
  matter           : SimbodyMatterSubsystem T;
  defDirection     : Vec3 T;
  defMagnitude     : T;
  defZeroHeight    : T;
  defMobodIsImmune : list bool;
  numEvaluations   : nat }.
Arguments mkImpl {T} _ _ _ _ _ _.
Arguments matter {T} _.
Arguments defDirection {T} _.
Arguments defMagnitude {T} _.
Arguments defZeroHeight {T} _.
Arguments defMobodIsImmune {T} _.
Arguments numEvaluations {T} _.

(** Modelled from the spec: State is not in the sources.  The part of it that
    belongs to the element: its discrete variable, its cache entry, and
    whether the cache entry is marked valid (section 9: an explicit per-stage
    cache with a validity bit).  Of the stage bookkeeping of State only what
    reaches this bit is kept: see [updInstanceVars]. *)
Record State (T : Type) := mkState {
  getInstanceVars   : InstanceVars T;
  getForceCache     : ForceCache T;
  isForceCacheValid : bool }.
Arguments mkState {T} _ _ _.
Arguments getInstanceVars {T} _.
Arguments getForceCache {T} _.
Arguments isForceCacheValid {T} _.

Section WithReal.
Context {T : Type} {SC : Scalar T} {NN : HasNaN T}.
Local Open Scope real_scope.

Definition Vec3_NaN : Vec3 T := mkVec3 NaN NaN NaN.
Definition SpatialVec_NaN : SpatialVec T := mkSpatialVec Vec3_NaN Vec3_NaN.

(** *** ForceCache *)
Definition setToZero (fc : ForceCache T) : ForceCache T :=
  mkForceCache (replicate (length (F_GB fc)) SpatialVec_0)
               (replicate (length (f_GP fc)) Vec3_0) 0.
Definition setToNaN (fc : ForceCache T) : ForceCache T :=
  mkForceCache (<[0%nat := mkSpatialVec Vec3_0 Vec3_0]>
                  (replicate (length (F_GB fc)) SpatialVec_NaN)) (* Ground *)
               (replicate (length (f_GP fc)) Vec3_NaN) NaN.
Definition allocate (fc : ForceCache T) (nb np : nat) : ForceCache T :=
  setToNaN (mkForceCache (resize nb SpatialVec_0 (F_GB fc))
                         (resize np Vec3_0 (f_GP fc)) (pe fc)).

(** *** GravityImpl *)
Definition GravityImpl (matter : SimbodyMatterSubsystem T) (direction : Vec3 T)
    (magnitude zeroHeight : T) : t T :=
  mkImpl matter direction magnitude zeroHeight
    (<[0%nat := true]> (replicate (getNumBodies matter) false)) (* Ground is always immune *)
    0%nat.

Definition setMobodIsImmuneByDefault (this : t T) (mbx : nat) (isImmune : bool)
  : t T :=
  if Nat.eqb mbx 0 then this (* can't change Ground's innate immunity *)
  else
    let def := defMobodIsImmune this in
    let def := if Nat.ltb (length def) (mbx + 1)
               then resize (mbx + 1)%nat false def else def in
    mkImpl (matter this) (defDirection this) (defMagnitude this)
      (defZeroHeight this) (<[mbx := isImmune]> def) (numEvaluations this).

Definition getMobodIsImmuneByDefault (this : t T) (mbx : nat) : bool :=
  if Nat.ltb (length (defMobodIsImmune this)) (mbx + 1) then false
  else defMobodIsImmune this !!! mbx.

(** Modelled from the spec: [updDiscreteVariable] of State is not in the
    sources.  [realizeTopology] allocates the instance variables at
    Stage::Instance and the force cache as an entry that depends on
    Stage::Position, and says of the cache that it is invalidated when that
    stage has changed; by section 3 a change to a state variable invalidates
    the caches of its stage and above.  So asking for write access to the
    instance variables leaves the force cache marked not valid (its contents
    stay where they are). *)
Definition updInstanceVars (state : State T) (iv : InstanceVars T) : State T :=
  mkState iv (getForceCache state) false.
Definition updForceCache (state : State T) (fc : ForceCache T) : State T :=
  mkState (getInstanceVars state) fc (isForceCacheValid state).
Definition markForceCacheValid (state : State T) : State T :=
  mkState (getInstanceVars state) (getForceCache state) true.

Definition setMobodIsImmune (this : t T) (state : State T) (mbx : nat)
    (isImmune : bool) : State T :=
  if Nat.eqb mbx 0 then state (* no messing with Ground *)
  else
    let iv := getInstanceVars state in
    updInstanceVars state
      (mkInstanceVars (d iv) (g iv) (z iv) (<[mbx := isImmune]> (mobodIsImmune iv))).

Definition getMobodIsImmune (this : t T) (state : State T) (mbx : nat) : bool :=
  mobodIsImmune (getInstanceVars state) !!! mbx.

(** Allocate the state variable and the cache entry. *)
Definition realizeTopology (this : t T) : t T * State T :=
  let nb := getNumBodies (matter this) in
  (* In case more mobilized bodies were added after this Gravity element
     was constructed, make room for the rest now. *)
  let def := defMobodIsImmune this in
  let def := if negb (Nat.eqb (length def) nb) then resize nb false def else def in
  let this := mkImpl (matter this) (defDirection this) (defMagnitude this)
                (defZeroHeight this) def (numEvaluations this) in
  let iv := mkInstanceVars (defDirection this) (defMagnitude this)
              (defZeroHeight this) (defMobodIsImmune this) in
  let fc := allocate (mkForceCache [] [] 0) nb (getNumParticles (matter this)) in
  (this, mkState iv fc false).

(** If the magnitude of gravity was set to zero then all the forces are
    zero; the forces on the immune bodies are zero in any case. *)
Definition realizeInstance (this : t T) (s : State T) : State T :=
  let iv := getInstanceVars s in
  let fc := getForceCache s in
  let fc := if (g iv =? 0) then setToZero fc else setToNaN fc in
  let F := foldl (fun F mbx =>
                    if (mobodIsImmune iv !!! mbx : bool)
                    then <[mbx := mkSpatialVec Vec3_0 Vec3_0]> F else F)
                 (F_GB fc) (seq 0 (length (mobodIsImmune iv))) in
  (* This doesn't mean the ForceCache is valid yet. *)
  updForceCache s (mkForceCache F (f_GP fc) (pe fc)).

(** One turn of the loop over the bodies in [ensureForceCacheValid]. *)
Definition bodyForceStep (this : t T) (iv : InstanceVars T) (gravity : Vec3 T)
    (zeroPEOffset : T) (fc : ForceCache T) (mbx : nat) : ForceCache T :=
  if (mobodIsImmune iv !!! mbx : bool)
  then fc (* don't apply gravity to this body; F already zero *)
  else
    let X_GB := getBodyTransform (matter this) mbx in
    let m := getMass (matter this) mbx in
    let p_CB := getMassCenter (matter this) mbx in (* in B *)
    let p_CB_G := mvmul (R_ X_GB) p_CB in          (* exp. in G *)
    let p_G_CB := vadd (p_ X_GB) p_CB_G in         (* meas. in G *)
    let F_CB_G := vscale m gravity in (* force at mass center *)
    mkForceCache (<[mbx := mkSpatialVec (cross p_CB_G F_CB_G) F_CB_G]> (F_GB fc))
                 (f_GP fc)
                 (pe fc - m * (vdot gravity p_G_CB + zeroPEOffset)).

(** One turn of the loop over the particles. *)
Definition particleForceStep (this : t T) (gravity : Vec3 T) (zeroPEOffset : T)
    (fc : ForceCache T) (px : nat) : ForceCache T :=
  let m := getAllParticleMasses (matter this) in
  let p_GP := getAllParticleLocations (matter this) in
  mkForceCache (F_GB fc)
               (<[px := vscale (slot m px) gravity]> (f_GP fc))
               (pe fc - slot m px * (vdot gravity (p_GP !!! px) + zeroPEOffset)).

(** Calculate the gravity forces if needed, and bump the counter of
    evaluations if there was work to do. *)
Definition ensureForceCacheValid (this : t T) (state : State T) : t T * State T :=
  if isForceCacheValid state then (this, state)
  else
    let iv := getInstanceVars state in
    if (g iv =? 0) then (this, markForceCacheValid state)
    else
      (* Gravity is non-zero and not valid, so this counts as an evaluation. *)
      let this := mkImpl (matter this) (defDirection this) (defMagnitude this)
                    (defZeroHeight this) (defMobodIsImmune this)
                    (S (numEvaluations this)) in
      let gravity := vscale (g iv) (d iv) in
      let zeroPEOffset := g iv * z iv in
      let fc := getForceCache state in
      let fc := mkForceCache (F_GB fc) (f_GP fc) 0 in
      let nb := getNumBodies (matter this) in
      (* Skip Ground since we know it is immune. *)
      let fc := foldl (bodyForceStep this iv gravity zeroPEOffset) fc
                      (seq 1 (nb - 1)) in
      let np := getNumParticles (matter this) in
      let fc := if Nat.eqb np 0 then fc
                else foldl (particleForceStep this gravity zeroPEOffset) fc
                           (seq 0 np) in
      (this, markForceCacheValid (updForceCache state fc)).

(** [bodyForces += fc.F_GB; particleForces += fc.f_GP]. *)
Definition calcForce (this : t T) (state : State T)
    (bodyForces : list (SpatialVec T)) (particleForces : list (Vec3 T))
  : t T * State T * list (SpatialVec T) * list (Vec3 T) :=
  let '(this, state) := ensureForceCacheValid this state in
  let fc := getForceCache state in
  (this, state,
   zip_with svadd bodyForces (F_GB fc),
   zip_with vadd particleForces (f_GP fc)).

Definition calcPotentialEnergy (this : t T) (state : State T) : t T * State T * T :=
  let '(this, state) := ensureForceCacheValid this state in
  (this, state, pe (getForceCache state)).
End WithReal.
End GravityImpl.

Module Gravity.
Section WithReal.
Context {T : Type} {SC : Scalar T} {SQ : Sqrt T} {TR : Trig T} {NN : HasNaN T}.
Local Open Scope real_scope.
Import GravityImpl.

(** A method that works on a store [S] (the State, or the element
    itself) and may throw: it gives an exception or a value, and the store
    it leaves behind in either case. *)
Definition M (S A : Type) : Type := S -> (Exception T + A) * S.
Definition ret {S A} (a : A) : M S A := fun s => (inr a, s).
Definition bind {S A B} (c : M S A) (k : A -> M S B) : M S B :=
  fun s => match c s with
           | (inl e, s') => (inl e, s')
           | (inr a, s') => k a s'
           end.
Definition throw {S A} (e : Exception T) : M S A := fun s => (inl e, s).
Definition upd {S} (f : S -> S) : M S unit := fun s => (inr tt, f s).

(** Modelled from the spec: the SimTK_ERRCHK macros are not in the sources;
    by section 7 a failed check rejects the call with its message, and
    nothing after the check runs. *)
Definition SimTK_ERRCHK_ALWAYS {S} (cond : bool) (whereChecked fmt : string)
    (args : list (FmtArg T)) : M S unit :=
  if cond then ret tt else throw (mkException whereChecked fmt args).
End WithReal.
Arguments M : clear implicits.

Notation "x <- c ;; k" := (bind c (fun x => k))
  (at level 100, c at next level, right associativity).
Notation "c ;; k" := (bind c (fun _ => k))
  (at level 100, right associativity).

Section Handle.
Context {T : Type} {SC : Scalar T} {SQ : Sqrt T} {TR : Trig T} {NN : HasNaN T}.
Local Open Scope string_scope.
Local Open Scope real_scope.
Import GravityImpl.

Definition Vec3_isFinite (v : Vec3 T) : bool :=
  isFinite (vx v) && isFinite (vy v) && isFinite (vz v).

Definition with_d (iv : InstanceVars T) (x : Vec3 T) : InstanceVars T :=
  mkInstanceVars x (g iv) (z iv) (mobodIsImmune iv).
Definition with_g (iv : InstanceVars T) (x : T) : InstanceVars T :=
  mkInstanceVars (d iv) x (z iv) (mobodIsImmune iv).
Definition with_z (iv : InstanceVars T) (x : T) : InstanceVars T :=
  mkInstanceVars (d iv) (g iv) x (mobodIsImmune iv).

(** *** Constructors and default (topology) setters *)
Definition Gravity (matter : SimbodyMatterSubsystem T) (defDirection : Vec3 T)
    (defMagnitude defZeroHeight : T) : Exception T + GravityImpl.t T :=
  let impl := GravityImpl matter defDirection defMagnitude defZeroHeight in
  if negb (0 <=? defMagnitude) then
    inl (mkException "Force::Gravity::ctor(downDirection,magnitude)"
           "The gravity magnitude g must be nonnegative but was specified as %g."
           [ArgReal defMagnitude])
  else if negb (Vec3_isFinite defDirection) then
    inl (mkException "Force::Gravity::ctor(downDirection,magnitude)"
           "A non-finite 'down' direction was received; did you specify a zero-length Vec3? The direction must be non-zero."
           [])
  else inr impl.

Definition setDefaultBodyIsExcluded (mobod : nat) (isExcluded : bool)
  : M T (GravityImpl.t T) unit :=
  upd (fun impl => setMobodIsImmuneByDefault impl mobod isExcluded).

Definition setDefaultMagnitude (g : T) : M T (GravityImpl.t T) unit :=
  SimTK_ERRCHK_ALWAYS (0 <=? g) "Force::Gravity::setDefaultMagnitude()"
    "The gravity magnitude g must be nonnegative but was specified as %g."
    [ArgReal g] ;;
  upd (fun impl => mkImpl (matter impl) (defDirection impl) g
                     (defZeroHeight impl) (defMobodIsImmune impl)
                     (numEvaluations impl)).

Definition setDefaultGravityVector (gravity : Vec3 T) : M T (GravityImpl.t T) unit :=
  let g := norm3 gravity in
  SimTK_ERRCHK_ALWAYS (0 <? g) "Force::Gravity::setDefaultGravityVector()"
    "This method requires a non-zero Vec3 as the gravity vector because it has to determine the 'down' direction. If you want to set the default gravity strength to zero, use setDefaultMagnitude(0) instead of this method."
    [] ;;
  upd (fun impl => mkImpl (matter impl) (defDirection impl) g
                     (defZeroHeight impl) (defMobodIsImmune impl)
                     (numEvaluations impl)) ;;
  upd (fun impl => mkImpl (matter impl) (vdiv gravity g) (defMagnitude impl)
                     (defZeroHeight impl) (defMobodIsImmune impl)
                     (numEvaluations impl)).

Definition setDefaultDownDirection (down : Vec3 T) : M T (GravityImpl.t T) unit :=
  SimTK_ERRCHK_ALWAYS (Vec3_isFinite down) "Force::Gravity::setDefaultDownDirection()"
    "A non-finite 'down' direction was received; did you specify a zero-length Vec3? The direction must be non-zero."
    [] ;;
  upd (fun impl => mkImpl (matter impl) down (defMagnitude impl)
                     (defZeroHeight impl) (defMobodIsImmune impl)
                     (numEvaluations impl)).

Definition setDefaultZeroHeight (zeroHeight : T) : M T (GravityImpl.t T) unit :=
  upd (fun impl => mkImpl (matter impl) (defDirection impl) (defMagnitude impl)
                     zeroHeight (defMobodIsImmune impl) (numEvaluations impl)).

(** *** Setters of instance variables in a State *)
Definition setBodyIsExcluded (this : GravityImpl.t T) (mobod : nat)
    (isExcluded : bool) : M T (State T) unit :=
  SimTK_ERRCHK_ALWAYS (Nat.ltb mobod (getNumBodies (matter this)))
    "Force::Gravity::setBodyIsExcluded()"
    "Attemped to exclude mobilized body with index %d but only mobilized bodies with indices between 0 and %d exist in this System."
    [ArgInt (Z.of_nat mobod); ArgInt (Z.of_nat (getNumBodies (matter this)) - 1)%Z] ;;
  upd (fun state => setMobodIsImmune this state mobod isExcluded).

Definition setGravityVector (this : GravityImpl.t T) (gravity : Vec3 T)
  : M T (State T) unit :=
  let g := norm3 gravity in
  SimTK_ERRCHK_ALWAYS (0 <? g) "Force::Gravity::setGravityVector()"
    "This method requires a non-zero Vec3 as the gravity vector because it has to separate the gravity direction and magnitude. If you want to disable this Gravity force element in this State use setMagnitude(0) instead which leaves the direction unchanged but sets the magnitude to zero."
    [] ;;
  upd (fun state => updInstanceVars state
                      (with_d (getInstanceVars state) (vdiv gravity g))) ;;
  upd (fun state => updInstanceVars state (with_g (getInstanceVars state) g)).

Definition getGravityVector (this : GravityImpl.t T) (state : State T) : Vec3 T :=
  let iv := getInstanceVars state in
  vscale (g iv) (d iv).

Definition setDownDirection (this : GravityImpl.t T) (down : Vec3 T)
  : M T (State T) unit :=
  SimTK_ERRCHK_ALWAYS (Vec3_isFinite down) "Force::Gravity::setDownDirection()"
    "A non-finite 'down' direction was received; did you specify a zero-length Vec3? The direction must be non-zero."
    [] ;;
  upd (fun state => updInstanceVars state (with_d (getInstanceVars state) down)).

Definition setMagnitude (this : GravityImpl.t T) (g : T) : M T (State T) unit :=
  SimTK_ERRCHK_ALWAYS (0 <=? g) "Force::Gravity::setMagnitude()"
    "The gravity magnitude g must be nonnegative but was specified as %g."
    [ArgReal g] ;;
  upd (fun state => updInstanceVars state (with_g (getInstanceVars state) g)).

Definition getMagnitude (this : GravityImpl.t T) (state : State T) : T :=
  g (getInstanceVars state).

Definition setZeroHeight (this : GravityImpl.t T) (zeroHeight : T)
  : M T (State T) unit :=
  upd (fun state => updInstanceVars state
                      (with_z (getInstanceVars state) zeroHeight)).

Definition getBodyIsExcluded (this : GravityImpl.t T) (state : State T)
    (mobod : nat) : bool :=
  getMobodIsImmune this state mobod.

Definition getBodyForce (this : GravityImpl.t T) (s : State T) (mbx : nat)
  : GravityImpl.t T * State T * SpatialVec T :=
  let '(this, s) := ensureForceCacheValid this s in
  (this, s, F_GB (getForceCache s) !!! mbx).

(** The second constructor, from a gravity vector. *)
Definition Gravity' (matter : SimbodyMatterSubsystem T) (defGravity : Vec3 T)
  : Exception T + GravityImpl.t T :=
  let impl := GravityImpl matter (vdiv defGravity (norm3 defGravity))
                (norm3 defGravity) 0 in
  if negb (0 <? norm3 defGravity) then
    inl (mkException "Force::Gravity::ctor(Vec3)"
           "This constructor requires a non-zero Vec3 as the gravity vector because it has to extract the gravity direction. If you want to create a Gravity force element for which the default gravity strength is zero, use the other constructor that allows strength and direction to be supplied separately."
           [])
  else inr impl.
End Handle.
End Gravity.

(** ** The life of a gravity element

    The element and, once the topology has been realized, the State that
    holds its variables; the calls a client can make, and the states they
    lead to. *)
Module GravityLife.
Import GravityImpl.

Record World (T : Type) := mkWorld {
  impl  : GravityImpl.t T;
  state : option (State T) }.
Arguments mkWorld {T} _ _.
Arguments impl {T} _.
Arguments state {T} _.

Inductive Op (T : Type) : Type :=
  (* on the element *)
  | SetDefaultBodyIsExcluded (mobod : nat) (isExcluded : bool)
  | SetDefaultGravityVector (gravity : Vec3 T)
  | SetDefaultDownDirection (down : Vec3 T)
  | SetDefaultMagnitude (g : T)
  | SetDefaultZeroHeight (zeroHeight : T)
  (* bodies are added to the matter subsystem: the topology is stale *)
  | AddBodies (matter' : SimbodyMatterSubsystem T)
  | RealizeTopology
  (* on a State *)
  | RealizeInstance
  | SetBodyIsExcluded (mobod : nat) (isExcluded : bool)
  | SetGravityVector (gravity : Vec3 T)
  | SetDownDirection (down : Vec3 T)
  | SetMagnitude (g : T)
  | SetZeroHeight (zeroHeight : T)
  | EnsureForceCacheValid.
Arguments SetDefaultBodyIsExcluded {T} _ _.
Arguments SetDefaultGravityVector {T} _.
Arguments SetDefaultDownDirection {T} _.
Arguments SetDefaultMagnitude {T} _.
Arguments SetDefaultZeroHeight {T} _.
Arguments AddBodies {T} _.
Arguments RealizeTopology {T}.
Arguments RealizeInstance {T}.
Arguments SetBodyIsExcluded {T} _ _.
Arguments SetGravityVector {T} _.
Arguments SetDownDirection {T} _.
Arguments SetMagnitude {T} _.
Arguments SetZeroHeight {T} _.
Arguments EnsureForceCacheValid {T}.

Section WithReal.
Context {T : Type} {SC : Scalar T} {SQ : Sqrt T} {TR : Trig T} {NN : HasNaN T}.

Definition with_matter (this : GravityImpl.t T) (m : SimbodyMatterSubsystem T)
  : GravityImpl.t T :=
  mkImpl m (defDirection this) (defMagnitude this) (defZeroHeight this)
    (defMobodIsImmune this) (numEvaluations this).

(** A call on the element; a call that throws leaves what the method left. *)
Definition onImpl (w : World T) (c : Gravity.M T (GravityImpl.t T) unit)
  : option (World T) :=
  Some (mkWorld (snd (c (impl w))) (state w)).

(** A call on the State, which must have been allocated. *)
Definition onState (w : World T) (c : Gravity.M T (State T) unit)
  : option (World T) :=
  match state w with
  | None => None
  | Some st => Some (mkWorld (impl w) (Some (snd (c st))))
  end.

Definition step (w : World T) (op : Op T) : option (World T) :=
  match op with
  | SetDefaultBodyIsExcluded mobod b =>
      onImpl w (Gravity.setDefaultBodyIsExcluded mobod b)
  | SetDefaultGravityVector v => onImpl w (Gravity.setDefaultGravityVector v)
  | SetDefaultDownDirection v => onImpl w (Gravity.setDefaultDownDirection v)
  | SetDefaultMagnitude x => onImpl w (Gravity.setDefaultMagnitude x)
  | SetDefaultZeroHeight x => onImpl w (Gravity.setDefaultZeroHeight x)
  | AddBodies m' =>
      if Nat.leb (getNumBodies (matter (impl w))) (getNumBodies m')
      then Some (mkWorld (with_matter (impl w) m') None)
      else None
  | RealizeTopology =>
      let '(this, st) := realizeTopology (impl w) in
      Some (mkWorld this (Some st))
  | RealizeInstance =>
      match state w with
      | None => None
      | Some st => Some (mkWorld (impl w) (Some (realizeInstance (impl w) st)))
      end
  | SetBodyIsExcluded mobod b => onState w (Gravity.setBodyIsExcluded (impl w) mobod b)
  | SetGravityVector v => onState w (Gravity.setGravityVector (impl w) v)
  | SetDownDirection v => onState w (Gravity.setDownDirection (impl w) v)
  | SetMagnitude x => onState w (Gravity.setMagnitude (impl w) x)
  | SetZeroHeight x => onState w (Gravity.setZeroHeight (impl w) x)
  | EnsureForceCacheValid =>
      match state w with
      | None => None
      | Some st =>
          let '(this, st) := ensureForceCacheValid (impl w) st in
          Some (mkWorld this (Some st))
      end
  end.

Fixpoint run (w : World T) (ops : list (Op T)) : option (World T) :=
  match ops with
  | [] => Some w
  | op :: ops => match step w op with
                 | Some w' => run w' ops
                 | None => None
                 end
  end.

(** A world is initial when a constructor has just built its element over
    a matter subsystem, which always has its Ground body. *)
Definition initial (w : World T) : Prop :=
  state w = None /\
  exists matter,
    1 <= getNumBodies matter /\
    ((exists direction magnitude zeroHeight,
        Gravity.Gravity matter direction magnitude zeroHeight = inr (impl w))
     \/ (exists defGravity, Gravity.Gravity' matter defGravity = inr (impl w))).

Inductive reachable : World T -> Prop :=
  | reachable_initial w : initial w -> reachable w
  | reachable_step w op w' : reachable w -> step w op = Some w' -> reachable w'.
End WithReal.
End GravityLife.

(** ** Sample configurations (binary64), used to run the code *)

Module Samples.
Local Open Scope float_scope.

(** The defining frames of a mobilizer that is not reversed are F and M. *)
Definition unreversed : Finders float := {|
  findX_F0M0 := fun node pc => X_FM pc !!! nodeNum node;
  findV_F0M0 := fun node pc vc => V_FM vc !!! nodeNum node;
  find_w_F0M0 := fun node pc vc => ang (V_FM vc !!! nodeNum node) |}.

Definition v3 (x y z : float) : Vec3 float := mkVec3 x y z.
Definition sv (a b : Vec3 float) : SpatialVec float := mkSpatialVec a b.
Definition O3 : Vec3 float := v3 0 0 0.
Definition I33 : Mat33 float := mkMat33 (v3 1 0 0) (v3 0 1 0) (v3 0 0 1).
Definition I66 : SpatialMat float :=
  mkSpatialMat I33 (mkMat33 O3 O3 O3) (mkMat33 O3 O3 O3) I33.

(** Ground (0), a body on a pin (1) that spins about z at 1 rad/s, and a
    body (2) welded to it one unit along x, with unit mass and its mass
    center one unit along x. *)
Definition ground : RigidBodyNode float := mkRigidBodyNode 0 0 0 0 0.
Definition pinned : RigidBodyNode float := mkRigidBodyNode 1 0 0 0 1.
Definition welded : RigidBodyNode float := mkRigidBodyNode 2 1 1 1 1.

Definition spinning : SBStateDigest float :=
  mkSBStateDigest false
    (mkSBPositionCache
       (replicate 3 (mkTransform I33 O3))
       [mkPhiMatrix O3; mkPhiMatrix O3; mkPhiMatrix (v3 1 0 0)]
       (replicate 3 I33)
       [O3; O3; v3 1 0 0])
    (mkSBVelocityCache
       [sv O3 O3; sv (v3 0 0 1) O3; sv O3 O3]
       [sv O3 O3; sv (v3 0 0 1) O3; sv O3 O3]
       [sv O3 O3; sv (v3 0 0 1) O3; sv O3 O3])
    (mkSBDynamicsCache
       (replicate 3 I66) (replicate 3 (sv O3 O3)) (replicate 3 (sv O3 O3))
       (replicate 3 (sv O3 O3)) (replicate 3 (sv O3 O3))
       (replicate 3 (sv O3 O3)) (replicate 3 (sv O3 O3))).

(** A node whose coordinates start at slot 1 and speeds at slot 2. *)
Definition slid : RigidBodyNode float := mkRigidBodyNode 1 0 2 1 1.

(** A node that owns the slots of q and of u from 0 on, and a custom
    mobilizer with three speeds whose four coordinates are a quaternion. *)
Definition oriented : RigidBodyNode float := mkRigidBodyNode 1 0 0 0 1.
Definition quaternionOnly : CustomImplementation float :=
  mkCustomImplementation 4 4
    (fun _ _ u => sv (getVec3 u 0) O3) (fun _ _ _ => sv O3 O3).
End Samples.

Module GravitySamples.
Import GravityImpl GravityLife.

(** Ground and one body of mass 2 at height 3, no particles; gravity of
    magnitude 10 along -z. *)
Definition matterF : SimbodyMatterSubsystem float :=
  mkMatter 2 0 (fun _ => 2%float) (fun _ => Samples.O3)
    (fun _ => mkTransform Samples.I33 (Samples.v3 0 0 3)) [] [].
Definition earthF : GravityImpl.t float :=
  GravityImpl matterF (Samples.v3 0 0 (-1)) 10%float 0%float.
Definition born : World float := mkWorld earthF None.
Definition script : list (Op float) :=
  [ SetDefaultBodyIsExcluded 0 false; RealizeTopology; SetBodyIsExcluded 0 false;
    RealizeInstance; EnsureForceCacheValid ].

(** Where the script leaves the element and its State. *)
Definition settled : World float := default born (run born script).

(** The same element over the reals, and a state of it. *)
Definition matterR : SimbodyMatterSubsystem R :=
  mkMatter 2 0 (fun _ => 2%R) (fun _ => mkVec3 0 0 0)%R
    (fun _ => mkTransform Mat33_1 (mkVec3 0 0 3)%R) [] [].
Definition earthR : GravityImpl.t R :=
  GravityImpl matterR (mkVec3 0 0 (-1))%R 10%R 0%R.
Definition restR : State R :=
  mkState (mkInstanceVars (mkVec3 0 0 (-1))%R 10%R 0%R [true; false])
          (mkForceCache [SpatialVec_0; SpatialVec_0] [] 0%R) false.
End GravitySamples.

(** What "Ground is immune" means for a world: the matter subsystem has its
    Ground body, body 0 is flagged immune in the element's defaults and in
    the state's instance variables, and its cached force is zero. *)
Definition groundIsImmune {T : Type} {SC : Scalar T} (w : GravityLife.World T) : Prop :=
  1 <= GravityImpl.getNumBodies (GravityImpl.matter (GravityLife.impl w)) /\
  GravityImpl.defMobodIsImmune (GravityLife.impl w) !! 0%nat = Some true /\
  forall st, GravityLife.state w = Some st ->
    GravityImpl.mobodIsImmune (GravityImpl.getInstanceVars st) !! 0%nat = Some true /\
    GravityImpl.F_GB (GravityImpl.getForceCache st) !! 0%nat = Some SpatialVec_0.

Module RealSamples.
Local Open Scope R_scope.

(** A state digest over the reals with quaternions in use, and a node
    whose slots start at 0. *)
Definition noCaches (euler : bool) : SBStateDigest R :=
  mkSBStateDigest euler (mkSBPositionCache [] [] [] [])
    (mkSBVelocityCache [] [] []) (mkSBDynamicsCache [] [] [] [] [] [] []).
Definition body : RigidBodyNode R := mkRigidBodyNode 1 0 0 0 1.
End RealSamples.

(** The entries of a node exist in every array of the dynamics cache. *)
Definition allocated {T : Type} (n : nat) (dc : SBDynamicsCache T) : Prop :=
  n < length (VD_PB_G dc) /\ n < length (GyroscopicForce dc) /\
  n < length (CoriolisAcceleration dc) /\
  n < length (TotalCoriolisAcceleration dc) /\
  n < length (CentrifugalForces dc) /\ n < length (TotalCentrifugalForces dc).

(** ** The package version file (SimbodyConfigVersion.cmake.in)

    find_package runs the script with the requested version in
    PACKAGE_FIND_VERSION_MAJOR, _MINOR and _PATCH (a component that was not
    requested is 0); the script answers by setting PACKAGE_VERSION_COMPATIBLE
    and PACKAGE_VERSION_EXACT, which are unset (false) to start with. *)
Module SimbodyConfigVersion.

Record Version := mkVersion {
  SIMBODY_MAJOR_VERSION : nat;
  SIMBODY_MINOR_VERSION : nat;
  SIMBODY_PATCH_VERSION : nat }.

Record Answer := mkAnswer {
  PACKAGE_VERSION_COMPATIBLE : bool;
  PACKAGE_VERSION_EXACT      : bool }.

(** Modelled from the spec: CMake's comparison of version strings is not in
    the sources; it compares the dot-separated components as numbers, from
    the left, a missing component counting as 0.  A version string is the
    list of its components. *)
Fixpoint VERSION_compare_rest (a : list nat) : comparison :=
  match a with
  | [] => Eq
  | x :: a' => match Nat.compare x 0 with Eq => VERSION_compare_rest a' | c => c end
  end.
Fixpoint VERSION_compare (a b : list nat) : comparison :=
  match a, b with
  | [], _ => CompOpp (VERSION_compare_rest b)
  | _, [] => VERSION_compare_rest a
  | x :: a', y :: b' =>
      match Nat.compare x y with Eq => VERSION_compare a' b' | c => c end
  end.
Definition VERSION_EQUAL (a b : list nat) : bool :=
  match VERSION_compare a b with Eq => true | _ => false end.
Definition VERSION_LESS (a b : list nat) : bool :=
  match VERSION_compare a b with Lt => true | _ => false end.

(** General behavior: compatibility requires same major and minor
    versions. *)
Definition check (this : Version)
    (PACKAGE_FIND_VERSION_MAJOR PACKAGE_FIND_VERSION_MINOR
     PACKAGE_FIND_VERSION_PATCH : nat) : Answer :=
  if VERSION_EQUAL [SIMBODY_MAJOR_VERSION this; SIMBODY_MINOR_VERSION this]
                   [PACKAGE_FIND_VERSION_MAJOR; PACKAGE_FIND_VERSION_MINOR]
  then
    if negb (VERSION_LESS [SIMBODY_PATCH_VERSION this] [PACKAGE_FIND_VERSION_PATCH])
    then
      mkAnswer true
        (if VERSION_EQUAL [SIMBODY_PATCH_VERSION this] [PACKAGE_FIND_VERSION_PATCH]
         then true else false)
    else mkAnswer false false
  else mkAnswer false false.
End SimbodyConfigVersion.

(** ** MatterSubsystem::resetForces *)
Module MatterSubsystem.
Section WithReal.
Context {T : Type} {SC : Scalar T}.

(** Modelled from the spec: [Vector_::resize] and [setToZero] are not in the
    sources; resizing gives the vector the requested length (what the new
    entries hold does not matter here, they are zeroed next) and
    [setToZero] writes zero to every entry. *)
Definition setToZero {A : Type} (zero : A) (v : list A) : list A :=
  replicate (length v) zero.

(** It sizes a set of force arrays (if necessary) and then sets them to
    zero. *)
Definition resetForces (getNBodies getNMobilities : nat)
    (bodyForces : list (SpatialVec T)) (particleForces : list (Vec3 T))
    (mobilityForces : list T)
  : list (SpatialVec T) * list (Vec3 T) * list T :=
  let bodyForces := resize getNBodies SpatialVec_0 bodyForces in
  let bodyForces := setToZero SpatialVec_0 bodyForces in
  let particleForces := resize 0 Vec3_0 particleForces in
  let mobilityForces := resize getNMobilities rzero mobilityForces in
  let mobilityForces := setToZero rzero mobilityForces in
  (bodyForces, particleForces, mobilityForces).
End WithReal.
End MatterSubsystem.

(** ** More sample configurations *)

Module CacheSamples.
Import GravityImpl GravityLife.

(** The state that [realizeTopology] allocates for the sample element, the
    same state with gravity switched off, and a body-force array to add
    gravity into. *)
Definition fresh : State float := snd (realizeTopology GravitySamples.earthF).
Definition weightless : State float :=
  mkState (mkInstanceVars (Samples.v3 0 0 (-1)) 0%float 0%float [true; false])
          (getForceCache fresh) false.
Definition settledState : State float :=
  default fresh (state GravitySamples.settled).
Definition applied : list (SpatialVec float) :=
  [Samples.sv Samples.O3 Samples.O3; Samples.sv (Samples.v3 1 2 3) (Samples.v3 4 5 6)].
End CacheSamples.

(** The arrays of a State have one entry per mobilized body (and the particle
    array one per particle) of the element's matter subsystem. *)
Definition sized {T : Type} (w : GravityLife.World T) : Prop :=
  forall st, GravityLife.state w = Some st ->
    length (GravityImpl.mobodIsImmune (GravityImpl.getInstanceVars st))
      = GravityImpl.getNumBodies (GravityImpl.matter (GravityLife.impl w)) /\
    length (GravityImpl.F_GB (GravityImpl.getForceCache st))
      = GravityImpl.getNumBodies (GravityImpl.matter (GravityLife.impl w)) /\
    length (GravityImpl.f_GP (GravityImpl.getForceCache st))
      = GravityImpl.getNumParticles (GravityImpl.matter (GravityLife.impl w)).

(** ** Trees of nodes

    The passes of a recursion visit the nodes base to tip (a node after its
    parent) or tip to base (a node after its children). *)

(** Every node of the list hangs from Ground or from a node before it. *)
Definition baseToTip {T : Type} (nodes : list (RigidBodyNode T)) : Prop :=
  forall k node, nodes !! k = Some node ->
    parent node = 0 \/
    exists j p, j < k /\ nodes !! j = Some p /\ nodeNum p = parent node.

(** Every child of a node of the list is a node before it. *)
Definition tipToBase {T : Type}
    (nodes : list (RigidBodyNode T * list (RigidBodyNode T))) : Prop :=
  forall k node children child,
    nodes !! k = Some (node, children) -> child ∈ children ->
    exists j c cs, j < k /\ nodes !! j = Some (c, cs) /\ nodeNum c = nodeNum child.

(** The entries of the nodes exist in an array. *)
Definition inRange {T A : Type} (nodes : list (RigidBodyNode T)) (a : list A) : Prop :=
  forall node, node ∈ nodes -> nodeNum node < length a.

(** Every array of the velocity and dynamics caches has the entries of the
    nodes. *)
Definition fits {T : Type} (nodes : list (RigidBodyNode T)) (sbs : SBStateDigest T)
  : Prop :=
  forall node, node ∈ nodes ->
    nodeNum node <> 0 /\
    nodeNum node < length (V_FM (getVelocityCache sbs)) /\
    nodeNum node < length (V_PB_G (getVelocityCache sbs)) /\
    nodeNum node < length (V_GB (getVelocityCache sbs)) /\
    allocated (nodeNum node) (getDynamicsCache sbs).

(** Ground is at rest: its entries of the velocity and of the total Coriolis
    acceleration are zero. *)
Definition groundAtRest {T : Type} {SC : Scalar T} (sbs : SBStateDigest T) : Prop :=
  getV_GB 0 (getVelocityCache sbs) = SpatialVec_0 /\
  getTotalCoriolisAcceleration 0 (getDynamicsCache sbs) = SpatialVec_0.

(** Modelled from the spec: the driver that walks the tree is not in the
    sources; by section 2 it invokes the per-node operation of a stage on
    every node, base to tip for the kinematics, the velocity-dependent terms
    and the outward passes, tip to base for the inward passes.  Here for a
    tree whose nodes other than Ground are all welds. *)
Definition realizeVelocityOfWelds {T : Type} {SC : Scalar T}
    (nodes : list (RigidBodyNode T)) (sbs : SBStateDigest T) : SBStateDigest T :=
  foldl (fun sbs node => RBNodeWeld.realizeVelocity node sbs) sbs nodes.
Definition realizeDynamicsOfWelds {T : Type} {SC : Scalar T}
    (nodes : list (RigidBodyNode T)) (sbs : SBStateDigest T) : SBStateDigest T :=
  foldl (fun sbs node => RBNodeWeld.realizeDynamics node sbs) sbs nodes.
Definition calcMInverseFPass1InwardOfWelds {T : Type} {SC : Scalar T}
    (nodes : list (RigidBodyNode T * list (RigidBodyNode T)))
    (pc : SBPositionCache T) (allZ allGepsilon : list (SpatialVec T))
  : list (SpatialVec T) * list (SpatialVec T) :=
  let '(allZ, allGepsilon) :=
    foldl (fun '(allZ, allGepsilon) '(node, children) =>
             RBNodeWeld.calcMInverseFPass1Inward node children pc allZ allGepsilon)
          (allZ, allGepsilon) nodes in
  RBGroundBody.calcMInverseFPass1Inward allZ allGepsilon.
Definition calcMInverseFPass2OutwardOfWelds {T : Type} {SC : Scalar T}
    (nodes : list (RigidBodyNode T)) (pc : SBPositionCache T)
    (allA_GB : list (SpatialVec T)) : list (SpatialVec T) :=
  foldl (fun allA_GB node => RBNodeWeld.calcMInverseFPass2Outward node pc allA_GB)
        (RBGroundBody.calcMInverseFPass2Outward allA_GB) nodes.
Definition calcMAPass1OutwardOfWelds {T : Type} {SC : Scalar T}
    (nodes : list (RigidBodyNode T)) (pc : SBPositionCache T)
    (allA_GB : list (SpatialVec T)) : list (SpatialVec T) :=
  foldl (fun allA_GB node => RBNodeWeld.calcMAPass1Outward node pc allA_GB)
        (RBGroundBody.calcMAPass1Outward allA_GB) nodes.

Definition calcUDotPass2OutwardOfWelds {T : Type} {SC : Scalar T}
    (nodes : list (RigidBodyNode T)) (pc : SBPositionCache T)
    (dc : SBDynamicsCache T) (allA_GB : list (SpatialVec T))
  : list (SpatialVec T) :=
  foldl (fun allA_GB node => RBNodeWeld.calcUDotPass2Outward node pc dc allA_GB)
        (RBGroundBody.calcUDotPass2Outward allA_GB) nodes.

(** The total Coriolis accelerations of the dynamics cache are the ones the
    Dynamics stage computes: zero for Ground, and for every node the
    parent's shifted outward plus the node's own Coriolis acceleration. *)
Definition totalCoriolisRealized {T : Type} {SC : Scalar T}
    (nodes : list (RigidBodyNode T)) (pc : SBPositionCache T)
    (dc : SBDynamicsCache T) : Prop :=
  getTotalCoriolisAcceleration 0 dc = SpatialVec_0 /\
  forall node, node ∈ nodes ->
    getTotalCoriolisAcceleration (nodeNum node) dc
    = svadd (phiT_mul (getPhi (nodeNum node) pc)
               (getTotalCoriolisAcceleration (parent node) dc))
            (getCoriolisAcceleration (nodeNum node) dc).

Module TreeSamples.
Local Open Scope R_scope.

(** Ground and two welds in a chain, over the reals; nothing moves yet,
    but the caches hold leftovers. *)
Definition weld1 : RigidBodyNode R := mkRigidBodyNode 1 0 0 0 1.
Definition weld2 : RigidBodyNode R := mkRigidBodyNode 2 1 0 0 1.
Definition Z6 : SpatialVec R := mkSpatialVec (mkVec3 0 0 0) (mkVec3 0 0 0).
Definition junk : SpatialVec R := mkSpatialVec (mkVec3 1 2 3) (mkVec3 4 5 6).
Definition I3 : Mat33 R := mkMat33 (mkVec3 1 0 0) (mkVec3 0 1 0) (mkVec3 0 0 1).
Definition I6 : SpatialMat R := mkSpatialMat I3 I3 I3 I3.
Definition leftovers : SBStateDigest R :=
  mkSBStateDigest false
    (mkSBPositionCache
       (replicate 3 (mkTransform I3 (mkVec3 0 0 0)))
       [mkPhiMatrix (mkVec3 0 0 0); mkPhiMatrix (mkVec3 1 0 0); mkPhiMatrix (mkVec3 0 1 0)]
       (replicate 3 I3)
       [mkVec3 0 0 0; mkVec3 1 0 0; mkVec3 0 1 0])
    (mkSBVelocityCache [Z6; junk; junk] [Z6; junk; junk] [Z6; junk; junk])
    (mkSBDynamicsCache (replicate 3 I6) [Z6; junk; junk] [Z6; junk; junk]
       [Z6; junk; junk] [Z6; junk; junk] [Z6; junk; junk] [Z6; junk; junk]).
End TreeSamples.

(** A dynamics cache in which nothing accelerates. *)
Definition quiet : SBDynamicsCache R :=
  mkSBDynamicsCache (replicate 3 TreeSamples.I6)
    (replicate 3 TreeSamples.Z6) (replicate 3 TreeSamples.Z6)
    (replicate 3 TreeSamples.Z6) (replicate 3 TreeSamples.Z6)
    (replicate 3 TreeSamples.Z6) (replicate 3 TreeSamples.Z6).

(** Mass properties and frames for the first weld of the sample tree. *)
Definition sampleMassProperties : MassProperties R :=
  mkMassProperties (mkVec3 1 0 0)%R TreeSamples.I3.
Definition sampleFrames : SBPositionCacheFrames R :=
  mkSBPositionCacheFrames
    (replicate 3 (mkTransform TreeSamples.I3 (mkVec3 0 0 0)%R))
    (replicate 3 (mkTransform TreeSamples.I3 (mkVec3 0 0 0)%R))
    (replicate 3 (mkVec3 0 0 0)%R) (replicate 3 TreeSamples.I6).

(** * Properties *)

(** ** Lists: reading a slot after writing one *)

Section SlotLemmas.
Context {T : Type} {SC : Scalar T}.

Lemma slot_insert_eq (v : list T) (i : nat) (x : T) :
  i < length v -> slot (<[i := x]> v) i = x.
Proof.
  intros Hi. unfold slot. by rewrite list_lookup_insert_eq.
Qed.

Lemma slot_insert_ne (v : list T) (i j : nat) (x : T) :
  i <> j -> slot (<[i := x]> v) j = slot v j.
Proof.
  intros Hij. unfold slot. by rewrite list_lookup_insert_ne.
Qed.

Lemma length_setVec3 (v : list T) (i : nat) (x : Vec3 T) :
  length (setVec3 v i x) = length v.
Proof. unfold setVec3. by rewrite !length_insert. Qed.

Lemma length_setVec4 (v : list T) (i : nat) (x : Vec4 T) :
  length (setVec4 v i x) = length v.
Proof. unfold setVec4. by rewrite !length_insert. Qed.

Lemma getVec4_setVec4 (v : list T) (i : nat) (x : Vec4 T) :
  i + 4 <= length v -> getVec4 (setVec4 v i x) i = x.
Proof.
  intros Hi. destruct x as [a b c e]. unfold getVec4, setVec4; simpl.
  f_equal.
  - rewrite !slot_insert_ne by lia. apply slot_insert_eq. lia.
  - rewrite !slot_insert_ne by lia. apply slot_insert_eq.
    rewrite length_insert. lia.
  - rewrite slot_insert_ne by lia. apply slot_insert_eq.
    rewrite !length_insert. lia.
  - apply slot_insert_eq. rewrite !length_insert. lia.
Qed.

Lemma lookup_setVec4_other (v : list T) (i j : nat) (x : Vec4 T) :
  j < i \/ i + 4 <= j -> setVec4 v i x !! j = v !! j.
Proof.
  intros Hj. unfold setVec4. rewrite !list_lookup_insert_ne by lia. done.
Qed.
End SlotLemmas.

(** ** Mobilizers: Jacobians, transforms, inverse mappings *)

Section MobilizerProperties.
Context {T : Type} {SC : Scalar T} {SQ : Sqrt T} {TR : Trig T} {FI : Finders T}.
Local Open Scope real_scope.

(** C2: for every mobilizer whose H is constant in F (translate, slider,
    torsion, screw, cylinder, planar, gimbal, ball, free),
    [calcAcrossJointVelocityJacobianDot] gives the zero matrix: one zero
    spatial vector per degree of freedom, whatever the state (so for
    every q and u). *)
Theorem HDot_zero_of_constant_H (m : Mobilizer T) (node : RigidBodyNode T)
    (sbs : SBStateDigest T) :
  hIsConstantInF m = true ->
  calcAcrossJointVelocityJacobianDot m node sbs
    = replicate (getDOF m) (mkSpatialVec (mkVec3 0 0 0) (mkVec3 0 0 0)).
Proof.
  intros Hconst. destruct m; simpl in Hconst; try discriminate; reflexivity.
Qed.

(** C4: the pin joint's transform has translation exactly (0,0,0) and the
    rotation by its coordinate about z, and its Jacobian is the single
    column [(0,0,1),(0,0,0)]. *)
Theorem torsion_transform_and_jacobian (node : RigidBodyNode T)
    (sbs : SBStateDigest T) (q : list T) :
  let theta := slot q (qIndex node) in
  let X_FM := RBNodeTorsion.calcAcrossJointTransform node sbs q in
  p_ X_FM = mkVec3 0 0 0 /\
  R_ X_FM = mkMat33 (mkVec3 (rcos theta) (- rsin theta) 0)
                    (mkVec3 (rsin theta) (rcos theta)   0)
                    (mkVec3 0            0              1) /\
  RBNodeTorsion.calcAcrossJointVelocityJacobian sbs
    = [ mkSpatialVec (mkVec3 0 0 1) (mkVec3 0 0 0) ].
Proof. repeat split. Qed.

(** C5: the inverse mappings are total and write only what the joint can
    represent.  A translation joint asked for a rotation leaves q as it
    is, and asked for an angular velocity leaves u as it is; a slider
    asked for a translation writes the x component into its one
    coordinate slot and leaves every other entry of q as it was. *)
Theorem setToFit_projection (node : RigidBodyNode T) (sbs : SBStateDigest T)
    (R_FM : Mat33 T) (w_FM p_FM : Vec3 T) (q u : list T) :
  qIndex node < length q ->
  RBNodeTranslate.setQToFitRotationImpl sbs R_FM q = q /\
  RBNodeTranslate.setUToFitAngularVelocityImpl sbs q w_FM u = u /\
  let q' := RBNodeSlider.setQToFitTranslationImpl node sbs p_FM q in
  length q' = length q /\
  q' !! qIndex node = Some (vx p_FM) /\
  forall i, i <> qIndex node -> q' !! i = q !! i.
Proof.
  intros Hq. split; [reflexivity|]. split; [reflexivity|].
  unfold RBNodeSlider.setQToFitTranslationImpl, to1Q. simpl.
  split; [apply length_insert|]. split.
  - by apply list_lookup_insert_eq.
  - intros i Hi. by apply list_lookup_insert_ne.
Qed.
End MobilizerProperties.

(** ** Velocity kinematics *)

Section KinematicsProperties.
Context {T : Type} {SC : Scalar T}.

Lemma calcJointIndependentKinematicsVel_frame (node : RigidBodyNode T)
    (pc : SBPositionCache T) (mc : SBVelocityCache T) (i : nat) :
  i <> nodeNum node ->
  getV_GB i (calcJointIndependentKinematicsVel node pc mc) = getV_GB i mc.
Proof.
  intros Hi. unfold calcJointIndependentKinematicsVel, getV_GB, updV_GB. simpl.
  by apply list_lookup_total_insert_ne.
Qed.

(** C6: after the velocity step of a node below Ground (its parent comes
    before it in the tree and has been realized), the body's spatial
    velocity is the parent's shifted outward by the transpose of Phi, plus
    the cross-joint velocity: V_GB = ~Phi * V_GP + V_PB_G.  The parent's
    velocity and the cross-joint velocity are not touched. *)
Theorem V_GB_outward_recursion (node : RigidBodyNode T)
    (pc : SBPositionCache T) (mc : SBVelocityCache T) :
  parent node < nodeNum node ->
  nodeNum node < length (V_GB mc) ->
  let mc' := calcJointIndependentKinematicsVel node pc mc in
  getV_GB (nodeNum node) mc'
    = svadd (phiT_mul (getPhi (nodeNum node) pc) (getV_GB (parent node) mc'))
            (getV_PB_G (nodeNum node) mc') /\
  getV_GB (parent node) mc' = getV_GB (parent node) mc /\
  V_PB_G mc' = V_PB_G mc.
Proof.
  intros Hp Hn mc'.
  assert (Hpar : getV_GB (parent node) mc' = getV_GB (parent node) mc)
    by (apply calcJointIndependentKinematicsVel_frame; lia).
  split; [|split; [exact Hpar | reflexivity]].
  rewrite Hpar. unfold mc', calcJointIndependentKinematicsVel, getV_GB at 1, updV_GB.
  simpl. by apply list_lookup_total_insert_eq.
Qed.
End KinematicsProperties.

(** The statements above, at the sample configurations. *)

Lemma HDot_zero_of_constant_H_free :
  hIsConstantInF (T := float) Free = true /\
  calcAcrossJointVelocityJacobianDot (FI := Samples.unreversed) Free
    Samples.pinned Samples.spinning
  = replicate 6 (mkSpatialVec (mkVec3 0 0 0) (mkVec3 0 0 0))%float.
Proof.
  split; [reflexivity|].
  exact (HDot_zero_of_constant_H (FI := Samples.unreversed) Free
           Samples.pinned Samples.spinning eq_refl).
Defined.

Lemma setToFit_projection_slider :
  RBNodeSlider.setQToFitTranslationImpl Samples.slid Samples.spinning
    (Samples.v3 7 8 9) [1; 2; 3]%float !! 1%nat = Some 7%float.
Proof.
  refine (proj1 (proj2 (proj2 (proj2
    (setToFit_projection Samples.slid Samples.spinning Samples.I33
       Samples.O3 (Samples.v3 7 8 9) [1; 2; 3]%float [] _))))).
  simpl. lia.
Defined.

Lemma V_GB_outward_recursion_welded :
  getV_GB 2 (calcJointIndependentKinematicsVel Samples.welded
               (getPositionCache Samples.spinning)
               (getVelocityCache Samples.spinning))
  = Samples.sv (Samples.v3 0 0 1) (Samples.v3 0 1 0).
Proof.
  refine (eq_trans (proj1 (V_GB_outward_recursion Samples.welded
            (getPositionCache Samples.spinning)
            (getVelocityCache Samples.spinning) _ _)) _).
  - simpl. lia.
  - simpl. lia.
  - vm_compute. reflexivity.
Defined.


(** ** Velocity-dependent dynamics terms *)

Section DynamicsProperties.
Context {T : Type} {SC : Scalar T}.

Lemma ground_dynamics_vel_zero (node : RigidBodyNode T) (pc : SBPositionCache T)
    (mc : SBVelocityCache T) (dc : SBDynamicsCache T) :
  nodeNum node = 0%nat -> allocated 0 dc ->
  let dc' := calcJointIndependentDynamicsVel node pc mc dc in
  getGyroscopicForce 0 dc' = SpatialVec_0 /\
  getCoriolisAcceleration 0 dc' = SpatialVec_0 /\
  getTotalCoriolisAcceleration 0 dc' = SpatialVec_0 /\
  getCentrifugalForces 0 dc' = SpatialVec_0 /\
  getTotalCentrifugalForces 0 dc' = SpatialVec_0.
Proof.
  intros Hn (_ & Hg & Hc & Ht & Hf & Htf) dc'.
  unfold dc', calcJointIndependentDynamicsVel. rewrite Hn. simpl.
  unfold getGyroscopicForce, getCoriolisAcceleration,
    getTotalCoriolisAcceleration, getCentrifugalForces,
    getTotalCentrifugalForces; simpl.
  repeat split; by apply list_lookup_total_insert_eq.
Qed.

Lemma weld_dynamics_vel_terms (node : RigidBodyNode T) (sbs : SBStateDigest T) :
  nodeNum node <> 0%nat -> allocated (nodeNum node) (getDynamicsCache sbs) ->
  let n := nodeNum node in
  let pc := getPositionCache sbs in
  let mc := getVelocityCache sbs in
  let dc := getDynamicsCache sbs in
  let dc' := getDynamicsCache (RBNodeWeld.realizeDynamics node sbs) in
  let w_GB := ang (getV_GB n mc) in
  let v_GB := lin (getV_GB n mc) in
  let w_GP := ang (getV_GB (parent node) mc) in
  let v_GP := lin (getV_GB (parent node) mc) in
  getVD_PB_G n dc' = SpatialVec_0 /\
  getGyroscopicForce n dc'
    = mkSpatialVec (cross w_GB (mvmul (getInertia_OB_G n pc) w_GB))
        (vscale (getMass node) (cross w_GB (cross w_GB (getCB_G n pc)))) /\
  getCoriolisAcceleration n dc'
    = svadd (mkSpatialVec Vec3_0 (cross w_GP (vsub v_GB v_GP))) SpatialVec_0 /\
  getTotalCoriolisAcceleration n dc'
    = svadd (phiT_mul (getPhi n pc) (getTotalCoriolisAcceleration (parent node) dc))
            (getCoriolisAcceleration n dc').
Proof.
  intros Hn (Hv & Hg & Hc & Ht & Hf & Htf). simpl.
  unfold RBNodeWeld.realizeDynamics, calcJointIndependentDynamicsVel. simpl.
  destruct (Nat.eqb_spec (nodeNum node) 0) as [E|_]; [contradiction|].
  unfold getVD_PB_G, getGyroscopicForce, getCoriolisAcceleration,
    getTotalCoriolisAcceleration; simpl.
  rewrite !list_lookup_total_insert_eq by assumption.
  repeat split.
Qed.

(** C1 (as amended): for Ground (node 0) the gyroscopic force, the Coriolis
    acceleration and the total Coriolis acceleration (and the centrifugal
    forces) stored by [calcJointIndependentDynamicsVel] are exactly the zero
    spatial vector, for all positions and velocities.  For a Weld node only
    the cross-joint remainder VD_PB_G is set to zero: the three terms are
    computed from the body's and its parent's velocities by the
    joint-independent formulas, gyroscopic force (w % (I*w), m*(w % (w % c))),
    Coriolis acceleration (0, w_P % (v - v_P)) + 0, and total Coriolis
    acceleration ~Phi * (the parent's total) + the Coriolis acceleration. *)
Theorem dynamics_vel_ground_zero_weld_computed (node : RigidBodyNode T)
    (sbs : SBStateDigest T) :
  let n := nodeNum node in
  let pc := getPositionCache sbs in
  let mc := getVelocityCache sbs in
  let dc := getDynamicsCache sbs in
  allocated n dc ->
  (n = 0%nat ->
     let dc' := calcJointIndependentDynamicsVel node pc mc dc in
     getGyroscopicForce n dc' = SpatialVec_0 /\
     getCoriolisAcceleration n dc' = SpatialVec_0 /\
     getTotalCoriolisAcceleration n dc' = SpatialVec_0) /\
  (n <> 0%nat ->
     let dc' := getDynamicsCache (RBNodeWeld.realizeDynamics node sbs) in
     let w_GB := ang (getV_GB n mc) in
     let v_GB := lin (getV_GB n mc) in
     let w_GP := ang (getV_GB (parent node) mc) in
     let v_GP := lin (getV_GB (parent node) mc) in
     getVD_PB_G n dc' = SpatialVec_0 /\
     getGyroscopicForce n dc'
       = mkSpatialVec (cross w_GB (mvmul (getInertia_OB_G n pc) w_GB))
           (vscale (getMass node) (cross w_GB (cross w_GB (getCB_G n pc)))) /\
     getCoriolisAcceleration n dc'
       = svadd (mkSpatialVec Vec3_0 (cross w_GP (vsub v_GB v_GP))) SpatialVec_0 /\
     getTotalCoriolisAcceleration n dc'
       = svadd (phiT_mul (getPhi n pc)
                  (getTotalCoriolisAcceleration (parent node) dc))
               (getCoriolisAcceleration n dc')).
Proof.
  intros n pc mc dc Hall. split.
  - intros Hn. subst n. rewrite Hn in Hall |- *.
    destruct (ground_dynamics_vel_zero node pc mc dc Hn Hall) as (? & ? & ? & _).
    auto.
  - intros Hn. exact (weld_dynamics_vel_terms node sbs Hn Hall).
Qed.
End DynamicsProperties.

(** The weld of the sample tree rides on a spinning body: its velocity is
    what [realizeVelocity] computes, and its dynamics terms are not zero. *)
Lemma weld_dynamics_terms_not_zero :
  let sbs := RBNodeWeld.realizeDynamics Samples.welded
               (RBNodeWeld.realizeVelocity Samples.welded Samples.spinning) in
  let dc := getDynamicsCache sbs in
  getGyroscopicForce 2 dc = Samples.sv Samples.O3 (Samples.v3 (-1) 0 0) /\
  getCoriolisAcceleration 2 dc = Samples.sv Samples.O3 (Samples.v3 (-1) 0 0) /\
  getTotalCoriolisAcceleration 2 dc = Samples.sv Samples.O3 (Samples.v3 (-1) 0 0) /\
  getGyroscopicForce 2 dc <> SpatialVec_0 /\
  getCoriolisAcceleration 2 dc <> SpatialVec_0 /\
  getTotalCoriolisAcceleration 2 dc <> SpatialVec_0.
Proof.
  repeat split; try (vm_compute; reflexivity);
    intros E; apply (f_equal (fun s => PrimFloat.eqb (vx (lin s)) 0)) in E;
    vm_compute in E; discriminate.
Qed.

Lemma dynamics_vel_ground_zero_weld_computed_sample :
  getGyroscopicForce 0
    (calcJointIndependentDynamicsVel Samples.ground
       (getPositionCache Samples.spinning) (getVelocityCache Samples.spinning)
       (getDynamicsCache Samples.spinning)) = SpatialVec_0 /\
  getVD_PB_G 2
    (getDynamicsCache (RBNodeWeld.realizeDynamics Samples.welded Samples.spinning))
  = SpatialVec_0.
Proof.
  split.
  - refine (proj1 (proj1 (dynamics_vel_ground_zero_weld_computed
              Samples.ground Samples.spinning _) eq_refl)).
    unfold allocated; simpl; lia.
  - refine (proj1 (proj2 (dynamics_vel_ground_zero_weld_computed
              Samples.welded Samples.spinning _) _)).
    + unfold allocated; simpl; lia.
    + simpl; lia.
Defined.

(** ** Force::Gravity: the setters validate before they write *)

Section GravitySetters.
Context {T : Type} {SC : Scalar T} {SQ : Sqrt T} {TR : Trig T} {NN : HasNaN T}.
Local Open Scope string_scope.
Local Open Scope real_scope.
Import GravityImpl.

Lemma setMagnitude_rejected (this : GravityImpl.t T) (state : State T) (x : T) :
  (0 <=? x) = false ->
  Gravity.setMagnitude this x state
  = (inl (mkException "Force::Gravity::setMagnitude()"
            "The gravity magnitude g must be nonnegative but was specified as %g."
            [ArgReal x]),
     state).
Proof.
  intros Hx. unfold Gravity.setMagnitude, Gravity.bind, Gravity.SimTK_ERRCHK_ALWAYS.
  rewrite Hx. reflexivity.
Qed.

Lemma setMagnitude_accepted (this : GravityImpl.t T) (state : State T) (x : T) :
  (0 <=? x) = true ->
  Gravity.setMagnitude this x state
  = (inr tt,
     mkState (mkInstanceVars (d (getInstanceVars state)) x
                (z (getInstanceVars state)) (mobodIsImmune (getInstanceVars state)))
             (getForceCache state) false).
Proof.
  intros Hx. unfold Gravity.setMagnitude, Gravity.bind, Gravity.SimTK_ERRCHK_ALWAYS.
  rewrite Hx. reflexivity.
Qed.

Lemma setGravityVector_rejected (this : GravityImpl.t T) (state : State T)
    (gravity : Vec3 T) :
  (0 <? norm3 gravity) = false ->
  exists e,
    Gravity.setGravityVector this gravity state = (inl e, state) /\
    whereChecked e = "Force::Gravity::setGravityVector()" /\
    fmtArgs e = [].
Proof.
  intros Hx. eexists.
  unfold Gravity.setGravityVector, Gravity.bind, Gravity.SimTK_ERRCHK_ALWAYS.
  rewrite Hx. simpl. repeat split.
Qed.

Lemma setGravityVector_accepted (this : GravityImpl.t T) (state : State T)
    (gravity : Vec3 T) :
  (0 <? norm3 gravity) = true ->
  Gravity.setGravityVector this gravity state
  = (inr tt,
     mkState (mkInstanceVars (vdiv gravity (norm3 gravity)) (norm3 gravity)
                (z (getInstanceVars state)) (mobodIsImmune (getInstanceVars state)))
             (getForceCache state) false).
Proof.
  intros Hx. unfold Gravity.setGravityVector, Gravity.bind, Gravity.SimTK_ERRCHK_ALWAYS.
  rewrite Hx. reflexivity.
Qed.
End GravitySetters.

Lemma Rleb_true (a b : R) : Rleb a b = true <-> (a <= b)%R.
Proof. unfold Rleb. destruct (Rle_dec a b); split; intros; try done. Qed.

Lemma Rleb_false (a b : R) : Rleb a b = false <-> (b < a)%R.
Proof.
  unfold Rleb. destruct (Rle_dec a b); split; intros; try done; lra.
Qed.

Lemma Rltb_true (a b : R) : Rltb a b = true <-> (a < b)%R.
Proof. unfold Rltb. destruct (Rlt_dec a b); split; intros; try done. Qed.

Lemma Rltb_false (a b : R) : Rltb a b = false <-> (b <= a)%R.
Proof.
  unfold Rltb. destruct (Rlt_dec a b); split; intros; try done; lra.
Qed.

(** C8 (as amended): the setters validate first and are atomic.
    [setMagnitude] with a negative magnitude throws the exception that names
    the parameter g (and prints its value) and leaves the state as it was;
    with a magnitude that is not negative it stores g.  [setGravityVector]
    with a vector of norm zero throws and leaves the state as it was; with a
    vector of positive norm it stores the direction gravity/|gravity| and
    the magnitude |gravity|.  An accepted call changes one more thing: the
    force cache is left marked not valid.  The zero height, the immunity
    flags and the contents of the force cache are kept. *)
Theorem gravity_setters_validate_first (this : GravityImpl.t R)
    (state : GravityImpl.State R) (x : R) (gravity : Vec3 R) :
  let iv := GravityImpl.getInstanceVars state in
  ((x < 0)%R ->
     Gravity.setMagnitude this x state
     = (inl (mkException "Force::Gravity::setMagnitude()"
               "The gravity magnitude g must be nonnegative but was specified as %g."
               [ArgReal x]),
        state)) /\
  ((0 <= x)%R ->
     Gravity.setMagnitude this x state
     = (inr tt,
        GravityImpl.mkState
          (GravityImpl.mkInstanceVars (GravityImpl.d iv) x (GravityImpl.z iv)
             (GravityImpl.mobodIsImmune iv))
          (GravityImpl.getForceCache state) false)) /\
  (norm3 gravity = 0%R ->
     exists e,
       Gravity.setGravityVector this gravity state = (inl e, state) /\
       whereChecked e = "Force::Gravity::setGravityVector()"%string) /\
  ((0 < norm3 gravity)%R ->
     Gravity.setGravityVector this gravity state
     = (inr tt,
        GravityImpl.mkState
          (GravityImpl.mkInstanceVars (vdiv gravity (norm3 gravity)) (norm3 gravity)
             (GravityImpl.z iv) (GravityImpl.mobodIsImmune iv))
          (GravityImpl.getForceCache state) false)).
Proof.
  intros iv. repeat split.
  - intros Hx. apply setMagnitude_rejected. by apply (proj2 (Rleb_false 0 x)).
  - intros Hx. apply setMagnitude_accepted. by apply (proj2 (Rleb_true 0 x)).
  - intros Hx.
    destruct (setGravityVector_rejected this state gravity) as (e & He & Hw & _).
    + apply (proj2 (Rltb_false 0 (norm3 gravity))). rewrite Hx. lra.
    + exists e. split; assumption.
  - intros Hx. apply setGravityVector_accepted.
    by apply (proj2 (Rltb_true 0 (norm3 gravity))).
Qed.


(** ** Force::Gravity: Ground is immune in every reachable state *)

Lemma foldl_preserves {A B : Type} (P : A -> Prop) (f : A -> B -> A)
    (l : list B) (a : A) :
  P a -> (forall a b, b ∈ l -> P a -> P (f a b)) -> P (foldl f a l).
Proof.
  revert a. induction l as [|b l IH]; intros a Ha Hf; simpl; [exact Ha|].
  apply IH.
  - apply Hf; [left | exact Ha].
  - intros a' b' Hb'. apply Hf. by right.
Qed.

Lemma lookup_0_insert_same {A : Type} (l : list A) (i : nat) (x : A) :
  l !! 0%nat = Some x -> <[i := x]> l !! 0%nat = Some x.
Proof.
  intros Hl. destruct (decide (i = 0%nat)) as [->|Hi].
  - apply list_lookup_insert_eq. by apply lookup_lt_Some in Hl.
  - by rewrite list_lookup_insert_ne.
Qed.

Section GroundImmunity.
Context {T : Type} {SC : Scalar T} {SQ : Sqrt T} {TR : Trig T} {NN : HasNaN T}.
Import GravityImpl GravityLife.

Lemma GravityImpl_ground (m : SimbodyMatterSubsystem T) (dir : Vec3 T) (mag zh : T) :
  1 <= getNumBodies m ->
  defMobodIsImmune (GravityImpl m dir mag zh) !! 0%nat = Some true /\
  matter (GravityImpl m dir mag zh) = m.
Proof.
  intros Hnb. split; [|reflexivity]. simpl.
  apply list_lookup_insert_eq. rewrite length_replicate. lia.
Qed.

Lemma setMobodIsImmuneByDefault_ground (this : GravityImpl.t T) (mbx : nat) (b : bool) :
  defMobodIsImmune this !! 0%nat = Some true ->
  defMobodIsImmune (setMobodIsImmuneByDefault this mbx b) !! 0%nat = Some true /\
  matter (setMobodIsImmuneByDefault this mbx b) = matter this.
Proof.
  intros Hg0. unfold setMobodIsImmuneByDefault.
  destruct (Nat.eqb_spec mbx 0) as [->|Hm]; [done|]. simpl. split; [|done].
  rewrite list_lookup_insert_ne by done.
  destruct (Nat.ltb_spec (length (defMobodIsImmune this)) (mbx + 1)); [|done].
  rewrite lookup_resize; [done|lia|]. by apply lookup_lt_Some in Hg0.
Qed.

Lemma realizeTopology_ground (this : GravityImpl.t T) :
  1 <= getNumBodies (matter this) ->
  defMobodIsImmune this !! 0%nat = Some true ->
  let '(this', st) := realizeTopology this in
  matter this' = matter this /\
  defMobodIsImmune this' !! 0%nat = Some true /\
  mobodIsImmune (getInstanceVars st) !! 0%nat = Some true /\
  F_GB (getForceCache st) !! 0%nat = Some SpatialVec_0.
Proof.
  intros Hnb Hg0. unfold realizeTopology. simpl.
  assert (Hdef : (if negb (Nat.eqb (length (defMobodIsImmune this))
                                   (getNumBodies (matter this)))
                  then resize (getNumBodies (matter this)) false (defMobodIsImmune this)
                  else defMobodIsImmune this) !! 0%nat = Some true).
  { destruct (negb _); [|done].
    rewrite lookup_resize; [done|lia|]. by apply lookup_lt_Some in Hg0. }
  repeat split; try exact Hdef.
  apply list_lookup_insert_eq.
  rewrite length_replicate, length_resize. lia.
Qed.

Lemma realizeInstance_ground (this : GravityImpl.t T) (st : State T) :
  F_GB (getForceCache st) !! 0%nat = Some SpatialVec_0 ->
  getInstanceVars (realizeInstance this st) = getInstanceVars st /\
  F_GB (getForceCache (realizeInstance this st)) !! 0%nat = Some SpatialVec_0.
Proof.
  intros HF. split; [reflexivity|].
  assert (Hlen : 0 < length (F_GB (getForceCache st)))
    by (by apply lookup_lt_Some in HF).
  unfold realizeInstance. simpl.
  apply (foldl_preserves (fun F => F !! 0%nat = Some SpatialVec_0)).
  - destruct (reqb _ _); simpl.
    + apply lookup_replicate_2. lia.
    + apply list_lookup_insert_eq. rewrite length_replicate. lia.
  - intros F mbx _ HF0. destruct (_ !!! mbx); [|done].
    by apply lookup_0_insert_same.
Qed.

Lemma ensureForceCacheValid_ground (this : GravityImpl.t T) (st : State T) :
  F_GB (getForceCache st) !! 0%nat = Some SpatialVec_0 ->
  let '(this', st') := ensureForceCacheValid this st in
  matter this' = matter this /\
  defMobodIsImmune this' = defMobodIsImmune this /\
  getInstanceVars st' = getInstanceVars st /\
  isForceCacheValid st' = true /\
  F_GB (getForceCache st') !! 0%nat = Some SpatialVec_0.
Proof.
  intros HF. unfold ensureForceCacheValid.
  destruct (isForceCacheValid st) eqn:Hvalid; [done|].
  destruct (reqb _ _); [done|]. simpl. repeat split.
  assert (Hbodies : forall fc l,
    (forall mbx, mbx ∈ l -> 1 <= mbx) ->
    F_GB fc !! 0%nat = Some SpatialVec_0 ->
    F_GB (foldl (bodyForceStep
                   (mkImpl (matter this) (defDirection this) (defMagnitude this)
                      (defZeroHeight this) (defMobodIsImmune this)
                      (S (numEvaluations this)))
                   (getInstanceVars st)
                   (vscale (g (getInstanceVars st)) (d (getInstanceVars st)))
                   (rmul (g (getInstanceVars st)) (z (getInstanceVars st))))
                fc l) !! 0%nat = Some SpatialVec_0).
  { intros fc l Hl Hfc.
    apply (foldl_preserves (fun fc => F_GB fc !! 0%nat = Some SpatialVec_0));
      [exact Hfc|].
    intros fc' mbx Hmbx Hfc'. unfold bodyForceStep.
    destruct (_ !!! mbx); [done|]. simpl.
    rewrite list_lookup_insert_ne; [done|]. apply Hl in Hmbx. lia. }
  destruct (Nat.eqb _ 0).
  - apply Hbodies; [|done]. intros mbx Hmbx. apply elem_of_seq in Hmbx. lia.
  - apply (foldl_preserves (fun fc => F_GB fc !! 0%nat = Some SpatialVec_0)).
    + apply Hbodies; [|done]. intros mbx Hmbx. apply elem_of_seq in Hmbx. lia.
    + intros fc' px _ Hfc'. done.
Qed.
End GroundImmunity.

Ltac run_method :=
  unfold Gravity.setDefaultBodyIsExcluded, Gravity.setDefaultGravityVector,
    Gravity.setDefaultDownDirection, Gravity.setDefaultMagnitude,
    Gravity.setDefaultZeroHeight, Gravity.setBodyIsExcluded,
    Gravity.setGravityVector, Gravity.setDownDirection, Gravity.setMagnitude,
    Gravity.setZeroHeight, Gravity.bind, Gravity.SimTK_ERRCHK_ALWAYS,
    Gravity.upd, Gravity.ret, Gravity.throw;
  simpl;
  repeat match goal with
         | |- context [if ?c then _ else _] => destruct c; simpl
         end.

Section GroundImmunityInvariant.
Context {T : Type} {SC : Scalar T} {SQ : Sqrt T} {TR : Trig T} {NN : HasNaN T}.
Import GravityImpl GravityLife.

Lemma setMobodIsImmune_ground (this : GravityImpl.t T) (st : State T)
    (mbx : nat) (b : bool) :
  mobodIsImmune (getInstanceVars st) !! 0%nat = Some true ->
  mobodIsImmune (getInstanceVars (setMobodIsImmune this st mbx b)) !! 0%nat
    = Some true /\
  getForceCache (setMobodIsImmune this st mbx b) = getForceCache st.
Proof.
  intros Hiv. unfold setMobodIsImmune.
  destruct (Nat.eqb_spec mbx 0) as [->|Hm]; [done|]. simpl.
  by rewrite list_lookup_insert_ne.
Qed.

Lemma initial_groundIsImmune (w : World T) : initial w -> groundIsImmune w.
Proof.
  intros (Hst & m & Hnb & Hctor). unfold groundIsImmune.
  assert (Himpl : exists dir mag zh, impl w = GravityImpl m dir mag zh).
  { destruct Hctor as [(dir & mag & zh & E) | (v & E)].
    - exists dir, mag, zh. unfold Gravity.Gravity in E.
      repeat destruct (negb _); congruence.
    - eexists _, _, _. unfold Gravity.Gravity' in E.
      destruct (negb _); [discriminate|]. injection E as <-. reflexivity. }
  destruct Himpl as (dir & mag & zh & Himpl). rewrite Himpl.
  destruct (GravityImpl_ground m dir mag zh Hnb) as (Hdef & Hm).
  rewrite Hm. split; [done|]. split; [done|]. intros st E. congruence.
Qed.

(** A setter of the State that keeps Ground's flag and the force cache
    keeps the invariant. *)
Lemma onState_groundIsImmune (w w' : World T) (c : Gravity.M T (State T) unit) :
  (forall st,
     mobodIsImmune (getInstanceVars st) !! 0%nat = Some true ->
     mobodIsImmune (getInstanceVars (snd (c st))) !! 0%nat = Some true /\
     getForceCache (snd (c st)) = getForceCache st) ->
  groundIsImmune w -> onState w c = Some w' -> groundIsImmune w'.
Proof.
  intros Hc (Hnb & Hdef & Hst) Hstep. unfold onState in Hstep.
  destruct (state w) as [st|] eqn:Est; [|discriminate].
  injection Hstep as <-. destruct (Hst st eq_refl) as (Hiv & HF).
  destruct (Hc st Hiv) as (Hiv' & Hfc).
  split; [done|]. split; [done|]. simpl. intros st' E. injection E as <-.
  split; [done|]. by rewrite Hfc.
Qed.

(** A setter of the element that keeps the matter subsystem and Ground's
    flag keeps the invariant. *)
Lemma onImpl_groundIsImmune (w w' : World T)
    (c : Gravity.M T (GravityImpl.t T) unit) :
  (forall this,
     defMobodIsImmune this !! 0%nat = Some true ->
     defMobodIsImmune (snd (c this)) !! 0%nat = Some true /\
     matter (snd (c this)) = matter this) ->
  groundIsImmune w -> onImpl w c = Some w' -> groundIsImmune w'.
Proof.
  intros Hc (Hnb & Hdef & Hst) Hstep. unfold onImpl in Hstep.
  injection Hstep as <-. destruct (Hc (impl w) Hdef) as (Hd & Hm).
  split; [simpl; by rewrite Hm|]. split; [done|]. exact Hst.
Qed.

Lemma step_groundIsImmune (w w' : World T) (op : Op T) :
  groundIsImmune w -> step w op = Some w' -> groundIsImmune w'.
Proof.
  intros Hw Hstep. destruct op; cbv beta iota delta [step] in Hstep.
  - (* setDefaultBodyIsExcluded *)
    eapply onImpl_groundIsImmune; [|exact Hw|exact Hstep].
    intros this Hd. by apply setMobodIsImmuneByDefault_ground.
  - eapply onImpl_groundIsImmune; [|exact Hw|exact Hstep].
    intros this Hd. run_method; done.
  - eapply onImpl_groundIsImmune; [|exact Hw|exact Hstep].
    intros this Hd. run_method; done.
  - eapply onImpl_groundIsImmune; [|exact Hw|exact Hstep].
    intros this Hd. run_method; done.
  - eapply onImpl_groundIsImmune; [|exact Hw|exact Hstep].
    intros this Hd. run_method; done.
  - (* bodies are added *)
    destruct Hw as (Hnb & Hdef & Hst).
    destruct (Nat.leb_spec (getNumBodies (matter (impl w))) (getNumBodies matter'));
      [|discriminate].
    injection Hstep as <-. split; [simpl; lia|]. split; [done|].
    intros st E. discriminate.
  - (* realizeTopology *)
    destruct Hw as (Hnb & Hdef & Hst).
    pose proof (realizeTopology_ground (impl w) Hnb Hdef) as Htopo.
    destruct (realizeTopology (impl w)) as [this st].
    injection Hstep as <-. destruct Htopo as (Hm & Hd & Hiv & HF).
    split; [simpl; by rewrite Hm|]. split; [done|].
    simpl. intros st' E. injection E as <-. done.
  - (* realizeInstance *)
    destruct Hw as (Hnb & Hdef & Hst).
    destruct (state w) as [st|] eqn:Est; [|discriminate].
    injection Hstep as <-. destruct (Hst st eq_refl) as (Hiv & HF).
    destruct (realizeInstance_ground (impl w) st HF) as (Eiv & HF').
    split; [done|]. split; [done|].
    simpl. intros st' E. injection E as <-. by rewrite Eiv.
  - (* setBodyIsExcluded *)
    eapply onState_groundIsImmune; [|exact Hw|exact Hstep].
    intros st Hiv. run_method; [|done].
    by apply setMobodIsImmune_ground.
  - eapply onState_groundIsImmune; [|exact Hw|exact Hstep].
    intros st Hiv. run_method; done.
  - eapply onState_groundIsImmune; [|exact Hw|exact Hstep].
    intros st Hiv. run_method; done.
  - eapply onState_groundIsImmune; [|exact Hw|exact Hstep].
    intros st Hiv. run_method; done.
  - eapply onState_groundIsImmune; [|exact Hw|exact Hstep].
    intros st Hiv. run_method; done.
  - (* ensureForceCacheValid *)
    destruct Hw as (Hnb & Hdef & Hst).
    destruct (state w) as [st|] eqn:Est; [|discriminate].
    destruct (Hst st eq_refl) as (Hiv & HF).
    pose proof (ensureForceCacheValid_ground (impl w) st HF) as Hens.
    destruct (ensureForceCacheValid (impl w) st) as [this st'].
    injection Hstep as <-.
    destruct Hens as (Hm & Hd & Eiv & _ & HF').
    split; [simpl; by rewrite Hm|]. split; [simpl; by rewrite Hd|].
    simpl. intros st'' E. injection E as <-. by rewrite Eiv.
Qed.

Lemma reachable_groundIsImmune (w : World T) : reachable w -> groundIsImmune w.
Proof.
  induction 1 as [w Hinit | w op w' _ IH Hstep].
  - by apply initial_groundIsImmune.
  - by apply (step_groundIsImmune w w' op).
Qed.

Lemma run_reachable (ops : list (Op T)) (w w' : World T) :
  reachable w -> run w ops = Some w' -> reachable w'.
Proof.
  revert w. induction ops as [|op ops IH]; intros w Hw Hrun; simpl in Hrun.
  - by injection Hrun as <-.
  - destruct (step w op) as [w1|] eqn:Hstep; [|discriminate].
    apply (IH w1); [|done]. by apply (reachable_step w op w1).
Qed.
End GroundImmunityInvariant.

Section GroundImmunityTheorem.
Context {T : Type} {SC : Scalar T} {SQ : Sqrt T} {TR : Trig T} {NN : HasNaN T}.
Import GravityImpl GravityLife.

(** C9: in every reachable state Ground is immune to gravity.  Its flag
    reads true from construction onward, in the element's defaults and in
    the State; a call of [setMobodIsImmuneByDefault] or [setMobodIsImmune]
    (or of the handle's methods over them) for body 0 changes nothing; and
    the cached body force of body 0 is the zero spatial vector whenever the
    cache is valid, so [getBodyForce] gives zero for it. *)
Theorem ground_is_immune_in_every_reachable_state (w : World T) :
  reachable w ->
  getMobodIsImmuneByDefault (impl w) 0 = true /\
  (forall b, setMobodIsImmuneByDefault (impl w) 0 b = impl w) /\
  (forall b, Gravity.setDefaultBodyIsExcluded 0 b (impl w) = (inr tt, impl w)) /\
  (forall st, state w = Some st ->
     getMobodIsImmune (impl w) st 0 = true /\
     (forall b, setMobodIsImmune (impl w) st 0 b = st) /\
     (forall b, Gravity.setBodyIsExcluded (impl w) 0 b st = (inr tt, st)) /\
     (isForceCacheValid st = true ->
        F_GB (getForceCache st) !!! 0%nat = SpatialVec_0) /\
     snd (Gravity.getBodyForce (impl w) st 0) = SpatialVec_0).
Proof.
  intros Hreach.
  destruct (reachable_groundIsImmune w Hreach) as (Hnb & Hdef & Hst).
  split; [|split; [|split]].
  - unfold getMobodIsImmuneByDefault.
    pose proof (lookup_lt_Some _ _ _ Hdef) as Hlen.
    destruct (Nat.ltb_spec (length (defMobodIsImmune (impl w))) (0 + 1)); [lia|].
    by apply list_lookup_total_correct.
  - reflexivity.
  - reflexivity.
  - intros st Est. destruct (Hst st Est) as (Hiv & HF).
    split; [|split; [|split; [|split]]].
    + unfold getMobodIsImmune. by apply list_lookup_total_correct.
    + reflexivity.
    + intros b. unfold Gravity.setBodyIsExcluded, Gravity.bind,
        Gravity.SimTK_ERRCHK_ALWAYS.
      destruct (Nat.ltb_spec 0 (getNumBodies (matter (impl w)))); [|lia].
      reflexivity.
    + intros _. by apply list_lookup_total_correct.
    + unfold Gravity.getBodyForce.
      pose proof (ensureForceCacheValid_ground (impl w) st HF) as Hens.
      destruct (ensureForceCacheValid (impl w) st) as [this st'].
      destruct Hens as (_ & _ & _ & _ & HF'). simpl.
      by apply list_lookup_total_correct.
Qed.
End GroundImmunityTheorem.

Lemma settled_reachable : GravityLife.reachable GravitySamples.settled.
Proof.
  apply (run_reachable GravitySamples.script GravitySamples.born).
  - apply GravityLife.reachable_initial. split; [reflexivity|].
    exists GravitySamples.matterF. split; [simpl; lia|]. left.
    exists (Samples.v3 0 0 (-1)), 10%float, 0%float. vm_compute. reflexivity.
  - vm_compute. reflexivity.
Qed.

Lemma ground_is_immune_settled :
  GravityImpl.getMobodIsImmuneByDefault
    (GravityLife.impl GravitySamples.settled) 0 = true.
Proof.
  exact (proj1 (ground_is_immune_in_every_reachable_state
                  GravitySamples.settled settled_reachable)).
Defined.

Lemma gravity_setters_validate_first_sample :
  Gravity.setMagnitude GravitySamples.earthR (-1)%R GravitySamples.restR
  = (inl (mkException "Force::Gravity::setMagnitude()"
            "The gravity magnitude g must be nonnegative but was specified as %g."
            [ArgReal (-1)%R]),
     GravitySamples.restR) /\
  Gravity.setMagnitude GravitySamples.earthR 5%R GravitySamples.restR
  = (inr tt,
     GravityImpl.mkState
       (GravityImpl.mkInstanceVars (mkVec3 0 0 (-1))%R 5%R 0%R [true; false])
       (GravityImpl.getForceCache GravitySamples.restR) false) /\
  exists e,
    Gravity.setGravityVector GravitySamples.earthR (mkVec3 0 0 0)%R
      GravitySamples.restR = (inl e, GravitySamples.restR) /\
    whereChecked e = "Force::Gravity::setGravityVector()"%string.
Proof.
  pose proof (gravity_setters_validate_first GravitySamples.earthR
                GravitySamples.restR (-1)%R (mkVec3 0 0 0)%R) as Hs.
  pose proof (gravity_setters_validate_first GravitySamples.earthR
                GravitySamples.restR 5%R (mkVec3 0 0 0)%R) as Ha.
  destruct Hs as (Hneg & _ & Hzero & _). destruct Ha as (_ & Hacc & _).
  split; [|split].
  - apply Hneg. lra.
  - apply Hacc. lra.
  - apply Hzero. unfold norm3, vdot. simpl.
    replace (0 * 0 + 0 * 0 + 0 * 0)%R with 0%R by ring. apply sqrt_0.
Defined.

(** The sample script leaves a State whose force cache is valid.  An
    accepted [setMagnitude] on it stores the new magnitude, keeps the
    contents of the cache, and leaves the cache marked not valid: more than
    the instance variable has changed. *)
Lemma setMagnitude_leaves_cache_not_valid :
  let this := GravityLife.impl GravitySamples.settled in
  let st := CacheSamples.settledState in
  let r := Gravity.setMagnitude this 5%float st in
  GravityLife.state GravitySamples.settled = Some st /\
  GravityImpl.isForceCacheValid st = true /\
  r.1 = inr tt /\
  GravityImpl.getInstanceVars r.2
    = Gravity.with_g (GravityImpl.getInstanceVars st) 5%float /\
  GravityImpl.getForceCache r.2 = GravityImpl.getForceCache st /\
  GravityImpl.isForceCacheValid r.2 = false /\
  r.2 <> GravityImpl.mkState
           (Gravity.with_g (GravityImpl.getInstanceVars st) 5%float)
           (GravityImpl.getForceCache st) (GravityImpl.isForceCacheValid st).
Proof.
  repeat split; try (vm_compute; reflexivity).
  intros E. apply (f_equal GravityImpl.isForceCacheValid) in E.
  vm_compute in E. discriminate.
Qed.


(** ** Quaternion renormalization *)

Lemma enforceQuaternionConstraints_body_quat {T : Type} {SC : Scalar T}
    {SQ : Sqrt T} (node : RigidBodyNode T) (sbs : SBStateDigest T)
    (q qErrest : list T) :
  useEulerAngles sbs = false ->
  let q1 := toQuat node q (v4div (fromQuat node q) (norm4 (fromQuat node q))) in
  enforceQuaternionConstraints_body node sbs q qErrest
  = (true, q1,
     if Nat.eqb (length qErrest) 0 then qErrest
     else toQuat node qErrest
            (v4sub (fromQuat node qErrest)
               (v4scale (dot4 (fromQuat node qErrest) (fromQuat node q1))
                  (fromQuat node q1)))).
Proof.
  intros Heuler. unfold enforceQuaternionConstraints_body. by rewrite Heuler.
Qed.

Section QuaternionRenormalization.
Context {T : Type} {SC : Scalar T} {SQ : Sqrt T}.

(** Every class that passes QuaternionMayBeUsed to its base runs the same
    renormalization; a custom mobilizer does when it has four angles. *)
Lemma enforceQuaternionConstraints_capable (m : Mobilizer T)
    (node : RigidBodyNode T) (sbs : SBStateDigest T) (q qErrest : list T) :
  quaternionUse m = QuaternionMayBeUsed ->
  enforceQuaternionConstraints m node sbs q qErrest
  = enforceQuaternionConstraints_body node sbs q qErrest.
Proof.
  intros Hm. destruct m; try discriminate; try reflexivity.
  simpl in Hm.
  unfold enforceQuaternionConstraints, RBNodeCustom.enforceQuaternionConstraints,
    RBNodeCustom.nAngles, enforceQuaternionConstraints_body.
  destruct (Nat.eqb (getNumAngles impl) 4); [|discriminate].
  simpl. destruct (useEulerAngles sbs); reflexivity.
Qed.

(** C3 (as amended): for a quaternion-capable mobilizer (ball, ellipsoid,
    free, line orientation, free line, or a custom one with four angles),
    with Euler angles in use [enforceQuaternionConstraints] returns false and
    leaves q and the error estimate as they were, whatever q holds.  With
    quaternions in use it returns true and writes into the quaternion slots
    of q the quaternion divided by its norm, the rest of q untouched.  An
    empty error estimate stays empty; from a non-empty one it subtracts
    dot(qerr, quat_out) * quat_out, in the arithmetic of the scalar type.
    Nothing is said of the norm of quat_out nor of dot(qerr_out, quat_out):
    in binary64 the one need not be 1 and the other need not be 0. *)
Theorem enforceQuaternionConstraints_normalizes (m : Mobilizer T)
    (node : RigidBodyNode T) (sbs : SBStateDigest T) (q qErrest : list T) :
  quaternionUse m = QuaternionMayBeUsed ->
  let quat := fromQuat node q in
  let r := enforceQuaternionConstraints m node sbs q qErrest in
  (useEulerAngles sbs = true -> r = (false, q, qErrest)) /\
  (useEulerAngles sbs = false ->
     let q' := r.1.2 in
     let qErr' := r.2 in
     let quat' := fromQuat node q' in
     let qerr := fromQuat node qErrest in
     r.1.1 = true /\
     q' = toQuat node q (v4div quat (norm4 quat)) /\
     length q' = length q /\
     (forall i, (i < qIndex node \/ qIndex node + 4 <= i)%nat -> q' !! i = q !! i) /\
     ((qIndex node + 4 <= length q)%nat -> quat' = v4div quat (norm4 quat)) /\
     (qErrest = [] -> qErr' = []) /\
     (qErrest <> [] ->
        qErr' = toQuat node qErrest (v4sub qerr (v4scale (dot4 qerr quat') quat')) /\
        length qErr' = length qErrest /\
        (forall i, (i < qIndex node \/ qIndex node + 4 <= i)%nat ->
                   qErr' !! i = qErrest !! i) /\
        ((qIndex node + 4 <= length qErrest)%nat ->
           fromQuat node qErr' = v4sub qerr (v4scale (dot4 qerr quat') quat')))).
Proof.
  intros Hm quat r. unfold r.
  rewrite (enforceQuaternionConstraints_capable m node sbs q qErrest Hm).
  clear r. split; intros Heuler.
  { unfold enforceQuaternionConstraints_body. by rewrite Heuler. }
  rewrite (enforceQuaternionConstraints_body_quat node sbs q qErrest Heuler).
  cbn [fst snd]. fold quat.
  set (q1 := toQuat node q (v4div quat (norm4 quat))).
  split; [reflexivity|]. split; [reflexivity|].
  split; [apply length_setVec4|].
  split; [intros i Hi; by apply lookup_setVec4_other|].
  split; [intros Hq; by apply getVec4_setVec4|].
  split; [intros ->; reflexivity|].
  intros Hne.
  assert (Hlen : Nat.eqb (length qErrest) 0 = false)
    by (destruct qErrest; [done|reflexivity]).
  rewrite Hlen.
  split; [reflexivity|]. split; [apply length_setVec4|].
  split; [intros i Hi; by apply lookup_setVec4_other|].
  intros Herr. by apply getVec4_setVec4.
Qed.
End QuaternionRenormalization.

(** A custom mobilizer whose four coordinates are a quaternion, in binary64:
    the quaternion (2,0,0,0) becomes (1,0,0,0), the coordinate after it stays,
    and the error estimate (1,1,0,0) loses its first component. *)
Lemma enforceQuaternionConstraints_normalizes_custom :
  enforceQuaternionConstraints (Custom 3 Samples.quaternionOnly) Samples.oriented
    Samples.spinning [2; 0; 0; 0; 7]%float [1; 1; 0; 0; 0]%float
  = (true, [1; 0; 0; 0; 7]%float, [0; 1; 0; 0; 0]%float).
Proof.
  pose proof (enforceQuaternionConstraints_normalizes
                (Custom 3 Samples.quaternionOnly) Samples.oriented
                Samples.spinning [2; 0; 0; 0; 7]%float [1; 1; 0; 0; 0]%float
                eq_refl) as Hs.
  destruct Hs as [_ Hs]. destruct (Hs eq_refl) as (Hr & Hq & _ & _ & _ & _ & He).
  destruct (He ltac:(discriminate)) as (He' & _).
  revert Hr Hq He'.
  destruct (enforceQuaternionConstraints _ _ _ _ _) as [[b q'] e'].
  cbn [fst snd]. intros -> -> ->. vm_compute. reflexivity.
Defined.

(** In binary64 the projected error estimate is not orthogonal to the new
    quaternion, even when that quaternion has norm exactly 1: the ball joint
    with q = (1,1,1,1) and error estimate (0.3,0.1,0.1,0.1) gets the
    quaternion (0.5,0.5,0.5,0.5), of norm 1, and an error estimate whose dot
    product with it is 2^-56.  Nor is the new quaternion of norm 1 in
    general: (1,2,3,4) divided by its norm has norm 1 - 2^-53. *)
Lemma enforceQuaternionConstraints_not_orthogonal :
  let r := enforceQuaternionConstraints Ball Samples.oriented Samples.spinning
             [1; 1; 1; 1]%float
             [0x1.3333333333333p-2; 0x1.999999999999ap-4;
              0x1.999999999999ap-4; 0x1.999999999999ap-4]%float in
  let quat' := fromQuat Samples.oriented r.1.2 in
  let qerr' := fromQuat Samples.oriented r.2 in
  r.1.1 = true /\
  quat' = (mkVec4 0.5 0.5 0.5 0.5)%float /\
  dot4 quat' quat' = 1%float /\
  norm4 quat' = 1%float /\
  dot4 qerr' quat' = 0x1p-56%float /\
  PrimFloat.eqb (dot4 qerr' quat') 0 = false /\
  (let s := enforceQuaternionConstraints Ball Samples.oriented Samples.spinning
              [1; 2; 3; 4]%float [] in
   norm4 (fromQuat Samples.oriented s.1.2) = 0x1.fffffffffffffp-1%float /\
   PrimFloat.eqb (norm4 (fromQuat Samples.oriented s.1.2)) 1 = false).
Proof. vm_compute. repeat split. Qed.

(** *** In real arithmetic *)

Section QuaternionProperties.
Local Open Scope R_scope.

Lemma normSqr4_pos (v : Vec4 R) : v <> Vec4_0 -> 0 < dot4 v v.
Proof.
  destruct v as [a b c e]. intros Hv. unfold dot4; simpl.
  pose proof (Rle_0_sqr a) as Ha0. pose proof (Rle_0_sqr b) as Hb0.
  pose proof (Rle_0_sqr c) as Hc0. pose proof (Rle_0_sqr e) as He0.
  unfold Rsqr in *.
  destruct (Req_dec a 0) as [Ha|Ha];
    [|pose proof (Rsqr_pos_lt a Ha) as Hp; unfold Rsqr in Hp; lra].
  destruct (Req_dec b 0) as [Hb|Hb];
    [|pose proof (Rsqr_pos_lt b Hb) as Hp; unfold Rsqr in Hp; lra].
  destruct (Req_dec c 0) as [Hc|Hc];
    [|pose proof (Rsqr_pos_lt c Hc) as Hp; unfold Rsqr in Hp; lra].
  destruct (Req_dec e 0) as [He|He];
    [|pose proof (Rsqr_pos_lt e He) as Hp; unfold Rsqr in Hp; lra].
  exfalso. apply Hv. subst. reflexivity.
Qed.

Lemma norm4_pos (v : Vec4 R) : v <> Vec4_0 -> 0 < norm4 v.
Proof. intros Hv. unfold norm4; simpl. apply sqrt_lt_R0. by apply normSqr4_pos. Qed.

Lemma norm4_sqr (v : Vec4 R) : norm4 v * norm4 v = dot4 v v.
Proof.
  unfold norm4; simpl. apply sqrt_sqrt.
  destruct v as [a b c e]. unfold dot4; simpl. nra.
Qed.

(** Dividing a quaternion by its norm gives a unit quaternion. *)
Lemma dot4_normalized (v : Vec4 R) :
  v <> Vec4_0 -> dot4 (v4div v (norm4 v)) (v4div v (norm4 v)) = 1.
Proof.
  intros Hv. pose proof (norm4_pos v Hv) as Hn. pose proof (norm4_sqr v) as Hs.
  clear Hv. revert Hn Hs. generalize (norm4 v). intros n Hn Hs.
  destruct v as [a b c e]. unfold dot4, v4div in *; simpl in *.
  replace (a / n * (a / n) + b / n * (b / n) + c / n * (c / n) + e / n * (e / n))
    with ((a * a + b * b + c * c + e * e) / (n * n)) by (field; lra).
  rewrite <- Hs. field. lra.
Qed.

Lemma norm4_normalized (v : Vec4 R) :
  v <> Vec4_0 -> norm4 (v4div v (norm4 v)) = 1.
Proof.
  intros Hv. unfold norm4 at 1. rewrite (dot4_normalized v Hv). apply sqrt_1.
Qed.

(** Removing from [e] its component along a unit [u] leaves a vector
    orthogonal to [u]. *)
Lemma dot4_projected (e u : Vec4 R) :
  dot4 u u = 1 -> dot4 (v4sub e (v4scale (dot4 e u) u)) u = 0.
Proof.
  destruct e as [e0 e1 e2 e3], u as [u0 u1 u2 u3].
  unfold dot4, v4sub, v4scale; simpl. intros Hu.
  transitivity ((e0 * u0 + e1 * u1 + e2 * u2 + e3 * u3)
                * (1 - (u0 * u0 + u1 * u1 + u2 * u2 + u3 * u3))); [ring|].
  rewrite Hu. ring.
Qed.

(** What the rounding of binary64 blurs: over the reals, a quaternion that
    is not zero is renormalized to a quaternion of norm 1, and the projected
    error estimate is orthogonal to it. *)
Lemma renormalization_in_real_arithmetic (node : RigidBodyNode R)
    (sbs : SBStateDigest R) (q qErrest : list R) :
  useEulerAngles sbs = false ->
  (qIndex node + 4 <= length q)%nat ->
  (qIndex node + 4 <= length qErrest)%nat ->
  fromQuat node q <> Vec4_0 ->
  let r := enforceQuaternionConstraints_body node sbs q qErrest in
  norm4 (fromQuat node r.1.2) = 1 /\
  dot4 (fromQuat node r.2) (fromQuat node r.1.2) = 0.
Proof.
  intros Heuler Hq Herr Hquat.
  rewrite (enforceQuaternionConstraints_body_quat node sbs q qErrest Heuler).
  cbn [fst snd].
  set (quat := fromQuat node q) in *.
  set (q1 := toQuat node q (v4div quat (norm4 quat))).
  assert (Hget : fromQuat node q1 = v4div quat (norm4 quat))
    by (by apply getVec4_setVec4).
  assert (Hlen : Nat.eqb (length qErrest) 0 = false)
    by (apply Nat.eqb_neq; lia).
  rewrite Hlen, !Hget. split; [by apply norm4_normalized|].
  unfold fromQuat at 1, toQuat. rewrite getVec4_setVec4 by exact Herr.
  apply dot4_projected. by apply dot4_normalized.
Qed.
End QuaternionProperties.

(** ** The ellipsoid joint at the identity, and the screw joint *)

Section EllipsoidProperties.
Local Open Scope R_scope.

Lemma setRotationToBodyFixedXYZ_0 :
  setRotationToBodyFixedXYZ (mkVec3 0 0 0) = (Mat33_1 : Mat33 R).
Proof.
  unfold setRotationToBodyFixedXYZ, Mat33_1. simpl. rewrite cos_0, sin_0.
  repeat f_equal; ring.
Qed.

Lemma Quaternion_identity :
  Quaternion (mkVec4 1 0 0 0) = (mkVec4 1 0 0 0 : Vec4 R).
Proof.
  unfold Quaternion, norm4, v4div, dot4. simpl.
  replace (1 * 1 + 0 * 0 + 0 * 0 + 0 * 0) with 1 by ring. rewrite sqrt_1.
  f_equal; field.
Qed.

Lemma setRotationFromQuaternion_identity :
  setRotationFromQuaternion (mkVec4 1 0 0 0) = (Mat33_1 : Mat33 R).
Proof.
  unfold setRotationFromQuaternion, Mat33_1. simpl. repeat f_equal; ring.
Qed.

(** C7: the ellipsoid joint computes its rotation from q -- the body-fixed
    XYZ rotation of the three Euler angles, or the rotation of the normalized
    quaternion -- and puts the origin of M at
    (semi_x*n_x, semi_y*n_y, semi_z*n_z), where n is the z axis of M
    expressed in F, the third column of that rotation: with Euler angles
    (a0,a1,a2) n is (sin a1, -(sin a0 cos a1), cos a0 cos a1), with the
    normalized quaternion u it is (2(u1 u3 + u0 u2), 2(u2 u3 - u0 u1),
    u0^2 - u1^2 - u2^2 + u3^2); this for every scalar type.  With semi-axes
    (1,1,1) at the identity configuration -- zero Euler angles, or the
    identity quaternion -- the rotation is the identity and the origin of M
    is at exactly (0,0,1) in F (real arithmetic; for the identity quaternion
    also in binary64, bit for bit). *)
Theorem ellipsoid_transform :
  (forall (T : Type) (SC : Scalar T) (SQ : Sqrt T) (TR : Trig T)
          (node : RigidBodyNode T) (semi : Vec3 T) (sbs : SBStateDigest T)
          (q : list T),
     let X := RBNodeEllipsoid.calcAcrossJointTransform node semi sbs q in
     let n := col_z (R_ X) in
     R_ X = (if useEulerAngles sbs
             then setRotationToBodyFixedXYZ (fromQ3 node q)
             else setRotationFromQuaternion (Quaternion (fromQuat node q))) /\
     p_ X = mkVec3 (rmul (vx semi) (vx n)) (rmul (vy semi) (vy n))
                   (rmul (vz semi) (vz n)) /\
     (useEulerAngles sbs = true ->
        let a := fromQ3 node q in
        p_ X = (mkVec3 (vx semi * rsin (vy a))
                       (vy semi * (rsin (vx a) * - rcos (vy a)))
                       (vz semi * (rcos (vx a) * rcos (vy a))))%r) /\
     (useEulerAngles sbs = false ->
        let u := Quaternion (fromQuat node q) in
        p_ X = (mkVec3 (vx semi * (2 * (q1 u * q3 u + q0 u * q2 u)))
                       (vy semi * (2 * (q2 u * q3 u - q0 u * q1 u)))
                       (vz semi * (q0 u * q0 u - q1 u * q1 u - q2 u * q2 u
                                   + q3 u * q3 u)))%r)) /\
  (forall (node : RigidBodyNode R) (sbs : SBStateDigest R) (q : list R),
     (useEulerAngles sbs = true -> fromQ3 node q = mkVec3 0 0 0 ->
        RBNodeEllipsoid.calcAcrossJointTransform node (mkVec3 1 1 1) sbs q
        = mkTransform Mat33_1 (mkVec3 0 0 1)) /\
     (useEulerAngles sbs = false -> fromQuat node q = mkVec4 1 0 0 0 ->
        RBNodeEllipsoid.calcAcrossJointTransform node (mkVec3 1 1 1) sbs q
        = mkTransform Mat33_1 (mkVec3 0 0 1))) /\
  (forall (TR : Trig float) (node : RigidBodyNode float)
          (sbs : SBStateDigest float) (q : list float),
     useEulerAngles sbs = false ->
     fromQuat node q = (mkVec4 1 0 0 0)%float ->
     RBNodeEllipsoid.calcAcrossJointTransform node (mkVec3 1 1 1)%float sbs q
     = mkTransform Mat33_1 (mkVec3 0 0 1)%float).
Proof.
  split; [|split].
  - intros T SC SQ TR node semi sbs q.
    split; [reflexivity|]. split; [reflexivity|].
    unfold RBNodeEllipsoid.calcAcrossJointTransform.
    split; intros Heuler; rewrite Heuler; reflexivity.
  - intros node sbs q. split.
    + intros Heuler Hq. unfold RBNodeEllipsoid.calcAcrossJointTransform.
      rewrite Heuler, Hq, setRotationToBodyFixedXYZ_0.
      unfold Mat33_1, col_z, transpose. simpl. repeat f_equal; ring.
    + intros Heuler Hq. unfold RBNodeEllipsoid.calcAcrossJointTransform.
      rewrite Heuler, Hq, Quaternion_identity, setRotationFromQuaternion_identity.
      unfold Mat33_1, col_z, transpose. simpl. repeat f_equal; ring.
  - intros TR node sbs q Heuler Hq.
    unfold RBNodeEllipsoid.calcAcrossJointTransform.
    rewrite Heuler, Hq. vm_compute. reflexivity.
Qed.
End EllipsoidProperties.

(** The sphere of radius 1 at the identity, with Euler angles and with a
    quaternion (over the reals), and with a quaternion in binary64; and an
    ellipsoid turned a quarter turn about y, whose M origin is at the end of
    the x semi-axis. *)
Lemma ellipsoid_transform_sphere :
  RBNodeEllipsoid.calcAcrossJointTransform RealSamples.body (mkVec3 1 1 1)%R
    (RealSamples.noCaches true) [0; 0; 0; 0]%R
  = mkTransform Mat33_1 (mkVec3 0 0 1)%R /\
  RBNodeEllipsoid.calcAcrossJointTransform RealSamples.body (mkVec3 1 1 1)%R
    (RealSamples.noCaches false) [1; 0; 0; 0]%R
  = mkTransform Mat33_1 (mkVec3 0 0 1)%R /\
  (forall TR : Trig float,
     RBNodeEllipsoid.calcAcrossJointTransform Samples.oriented
       (mkVec3 1 1 1)%float Samples.spinning [1; 0; 0; 0]%float
     = mkTransform Mat33_1 (mkVec3 0 0 1)%float) /\
  p_ (RBNodeEllipsoid.calcAcrossJointTransform RealSamples.body (mkVec3 2 3 4)%R
        (RealSamples.noCaches true) [0; PI / 2; 0; 0]%R)
  = (mkVec3 2 0 0)%R.
Proof.
  destruct ellipsoid_transform as (Hgen & Hreal & Hfloat).
  destruct (Hreal RealSamples.body (RealSamples.noCaches true) [0; 0; 0; 0]%R)
    as (He & _).
  destruct (Hreal RealSamples.body (RealSamples.noCaches false) [1; 0; 0; 0]%R)
    as (_ & Hq).
  split; [apply He; reflexivity|]. split; [apply Hq; reflexivity|].
  split; [intros TR; apply Hfloat; reflexivity|].
  destruct (Hgen R _ _ _ RealSamples.body (mkVec3 2 3 4)%R
              (RealSamples.noCaches true) [0; PI / 2; 0; 0]%R)
    as (_ & _ & Hp & _).
  rewrite (Hp eq_refl). unfold fromQ3, getVec3, slot. simpl.
  rewrite sin_PI2, cos_PI2, sin_0, cos_0. f_equal; ring.
Defined.

(** Binary64: a quotient by zero (of either sign) is an infinity or a NaN. *)
Lemma div_by_zero_nonfinite (x y : float) :
  PrimFloat.eqb y 0 = true -> nonfinite (PrimFloat.div x y) = true.
Proof.
  intros Hy. rewrite FloatAxioms.eqb_spec in Hy.
  change (Prim2SF 0) with (S754_zero false) in Hy.
  unfold nonfinite. rewrite FloatAxioms.div_spec.
  destruct (Prim2SF y) as [sy| sy| |sy my ey]; simpl in Hy; try discriminate.
  - destruct (Prim2SF x); reflexivity.
  - destruct sy; discriminate.
  - destruct sy; discriminate.
Qed.

Section ScrewProperties.
Context {T : Type} {SC : Scalar T} {SQ : Sqrt T} {TR : Trig T}.
Local Open Scope real_scope.

(** The screw joint writes the quotient by the pitch, with no guard, and the
    transform it then computes has z translation quotient times pitch and
    the rotation by the quotient about z. *)
Lemma screw_fit_then_transform (node : RigidBodyNode T) (pitch : T)
    (sbs : SBStateDigest T) (p_FM v_FM : Vec3 T) (q u : list T) :
  (qIndex node < length q)%nat ->
  let q' := RBNodeScrew.setQToFitTranslationImpl node pitch sbs p_FM q in
  let u' := RBNodeScrew.setUToFitLinearVelocityImpl node pitch sbs q v_FM u in
  let X := RBNodeScrew.calcAcrossJointTransform node pitch sbs q' in
  q' = <[qIndex node := vz p_FM / pitch]> q /\
  u' = <[uIndex node := vz v_FM / pitch]> u /\
  p_ X = mkVec3 0 0 (vz p_FM / pitch * pitch) /\
  R_ X = setRotationFromAngleAboutZ (vz p_FM / pitch).
Proof.
  intros Hq. simpl. split; [reflexivity|]. split; [reflexivity|].
  unfold RBNodeScrew.calcAcrossJointTransform,
    RBNodeScrew.setQToFitTranslationImpl, from1Q, to1Q.
  rewrite slot_insert_eq by exact Hq. split; reflexivity.
Qed.
End ScrewProperties.

(** C10 (as amended): the screw joint divides the requested z component by
    the pitch without a guard.  For every pitch, [setQToFitTranslation] and
    [setUToFitLinearVelocity] set the one coordinate to p_FM[2]/pitch and
    the one speed to v_FM[2]/pitch and leave the other entries alone, and
    [calcAcrossJointTransform] on the new q has translation
    (0, 0, (p_FM[2]/pitch)*pitch) and the rotation by the quotient about z;
    this for every scalar type, so also in binary64, where the product
    need not be p_FM[2].  With a pitch equal to zero (binary64), the
    coordinate and the speed that are written are not finite numbers. *)
Theorem screw_fit_translation_divides_by_pitch :
  (forall (T : Type) (SC : Scalar T) (TR : Trig T) (node : RigidBodyNode T)
          (pitch : T) (sbs : SBStateDigest T) (p_FM v_FM : Vec3 T)
          (q u : list T),
     qIndex node < length q -> uIndex node < length u ->
     let q' := RBNodeScrew.setQToFitTranslationImpl node pitch sbs p_FM q in
     let u' := RBNodeScrew.setUToFitLinearVelocityImpl node pitch sbs q v_FM u in
     let X := RBNodeScrew.calcAcrossJointTransform node pitch sbs q' in
     q' !! qIndex node = Some (rdiv (vz p_FM) pitch) /\
     (forall i, i <> qIndex node -> q' !! i = q !! i) /\
     u' !! uIndex node = Some (rdiv (vz v_FM) pitch) /\
     (forall i, i <> uIndex node -> u' !! i = u !! i) /\
     p_ X = mkVec3 rzero rzero (rmul (rdiv (vz p_FM) pitch) pitch) /\
     R_ X = setRotationFromAngleAboutZ (rdiv (vz p_FM) pitch)) /\
  (forall (node : RigidBodyNode float) (pitch : float) (sbs : SBStateDigest float)
          (p_FM v_FM : Vec3 float) (q u : list float),
     PrimFloat.eqb pitch 0 = true ->
     qIndex node < length q -> uIndex node < length u ->
     let q' := RBNodeScrew.setQToFitTranslationImpl node pitch sbs p_FM q in
     let u' := RBNodeScrew.setUToFitLinearVelocityImpl node pitch sbs q v_FM u in
     nonfinite (slot q' (qIndex node)) = true /\
     nonfinite (slot u' (uIndex node)) = true).
Proof.
  split.
  - intros T SC TR node pitch sbs p_FM v_FM q u Hq Hu.
    pose proof (screw_fit_then_transform node pitch sbs p_FM v_FM q u Hq) as Hs.
    cbv zeta in Hs |- *. destruct Hs as (Eq & Eu & Ep & ER).
    rewrite Ep, ER, Eq, Eu.
    split; [by apply list_lookup_insert_eq|].
    split; [intros i Hi; by apply list_lookup_insert_ne|].
    split; [by apply list_lookup_insert_eq|].
    split; [intros i Hi; by apply list_lookup_insert_ne|].
    split; reflexivity.
  - intros node pitch sbs p_FM v_FM q u Hp Hq Hu q' u'.
    unfold q', u', RBNodeScrew.setQToFitTranslationImpl,
      RBNodeScrew.setUToFitLinearVelocityImpl, to1Q, to1U.
    rewrite !slot_insert_eq by assumption.
    split; by apply div_by_zero_nonfinite.
Qed.

Lemma screw_fit_translation_sample :
  p_ (RBNodeScrew.calcAcrossJointTransform RealSamples.body 2%R
        (RealSamples.noCaches false)
        (RBNodeScrew.setQToFitTranslationImpl RealSamples.body 2%R
           (RealSamples.noCaches false) (mkVec3 0 0 6)%R [0%R]))
  = mkVec3 0%R 0%R (6 / 2 * 2)%R /\
  nonfinite
    (slot (RBNodeScrew.setQToFitTranslationImpl Samples.slid 0%float
             Samples.spinning (Samples.v3 0 0 1) [1; 2]%float) 1) = true.
Proof.
  destruct screw_fit_translation_divides_by_pitch as (Hgen & Hfloat). split.
  - refine (proj1 (proj2 (proj2 (proj2 (proj2
      (Hgen R _ _ RealSamples.body 2%R (RealSamples.noCaches false)
         (mkVec3 0 0 6)%R (mkVec3 0 0 6)%R [0%R] [0%R] _ _)))))).
    + simpl. lia.
    + simpl. lia.
  - refine (proj1 (Hfloat Samples.slid 0%float Samples.spinning
              (Samples.v3 0 0 1) (Samples.v3 0 0 1) [1; 2]%float
              [1; 2; 3]%float _ _ _)).
    + reflexivity.
    + simpl. lia.
    + simpl. lia.
Defined.

(** In binary64 the fit is not exact.  With pitch 49 and a requested z of 1
    the coordinate written is the rounded quotient 1/49, and the transform
    computed from it has z translation 1 - 2^-53, whatever sine and cosine
    are used for the rotation. *)
Lemma screw_fit_translation_not_exact :
  let q' := RBNodeScrew.setQToFitTranslationImpl Samples.oriented 49%float
              Samples.spinning (Samples.v3 0 0 1) [0%float] in
  q' = [(1 / 49)%float] /\
  (fun TR : Trig float =>
     p_ (RBNodeScrew.calcAcrossJointTransform Samples.oriented 49%float
           Samples.spinning q'))
  = (fun _ => Samples.v3 0 0 0x1.fffffffffffffp-1) /\
  PrimFloat.eqb 0x1.fffffffffffffp-1 1 = false.
Proof. vm_compute. repeat split. Qed.

(** ** The rotation of the pin joint is a proper rotation about z *)

Lemma rotation_about_z_is_proper (theta : R) :
  let Rz := (setRotationFromAngleAboutZ theta : Mat33 R) in
  mmul (transpose Rz) Rz = Mat33_1 /\
  mvmul Rz (mkVec3 0 0 1)%R = (mkVec3 0 0 1)%R /\
  vdot (row0 Rz) (cross (row1 Rz) (row2 Rz)) = 1%R.
Proof.
  pose proof (sin2_cos2 theta) as Hsc. unfold Rsqr in Hsc.
  unfold setRotationFromAngleAboutZ, mmul, mvmul, transpose, col_x, col_y,
    col_z, vdot, cross, Mat33_1; simpl.
  set (s := sin theta) in *. set (c := cos theta) in *.
  repeat split; repeat f_equal; nra.
Qed.

(** ** Binary64: what the magnitude check rejects *)

Lemma float_negative_fails_check (x : float) :
  PrimFloat.ltb x 0 = true -> PrimFloat.leb 0 x = false.
Proof.
  rewrite FloatAxioms.ltb_spec, FloatAxioms.leb_spec.
  change (Prim2SF 0) with (S754_zero false).
  destruct (Prim2SF x) as [[]|[]| |[] m e]; cbv; congruence.
Qed.

Lemma setMagnitude_float_rejects_negative (this : GravityImpl.t float)
    (state : GravityImpl.State float) (x : float) :
  PrimFloat.ltb x 0 = true ->
  Gravity.setMagnitude this x state
  = (inl (mkException "Force::Gravity::setMagnitude()"
            "The gravity magnitude g must be nonnegative but was specified as %g."
            [ArgReal x]),
     state).
Proof.
  intros Hx. apply setMagnitude_rejected. by apply float_negative_fails_check.
Qed.

Lemma setMagnitude_float_rejects_NaN (this : GravityImpl.t float)
    (state : GravityImpl.State float) :
  fst (Gravity.setMagnitude this nan state)
  = inl (mkException "Force::Gravity::setMagnitude()"
           "The gravity magnitude g must be nonnegative but was specified as %g."
           [ArgReal nan]) /\
  snd (Gravity.setMagnitude this nan state) = state.
Proof.
  rewrite (setMagnitude_rejected this state nan) by reflexivity. split; reflexivity.
Qed.

(** The body-fixed XYZ rotation is the product of the rotations about x,
    y and z, in that order. *)
Lemma bodyFixedXYZ_is_product (a : Vec3 R) :
  setRotationToBodyFixedXYZ a
  = mmul (mmul (rotationAboutX (vx a)) (rotationAboutY (vy a)))
         (setRotationFromAngleAboutZ (vz a)).
Proof.
  destruct a as [a0 a1 a2].
  unfold setRotationToBodyFixedXYZ, rotationAboutX, rotationAboutY,
    setRotationFromAngleAboutZ, mmul, transpose, col_x, col_y, col_z, vdot;
    simpl.
  f_equal; f_equal; ring.
Qed.

(** * More of the code: Force::Gravity *)

(** ** The force cache is computed once *)

Section GravityCache.
Context {T : Type} {SC : Scalar T}.
Import GravityImpl.
Local Open Scope real_scope.

(** A valid cache is left alone, and the cache is valid afterwards in any
    case. *)
Lemma ensureForceCacheValid_valid (this : GravityImpl.t T) (state : State T) :
  (isForceCacheValid state = true ->
   ensureForceCacheValid this state = (this, state)) /\
  isForceCacheValid (ensureForceCacheValid this state).2 = true.
Proof.
  unfold ensureForceCacheValid. split.
  - by intros ->.
  - destruct (isForceCacheValid state) eqn:Hv; [done|].
    by destruct (reqb _ _).
Qed.

(** X1: [ensureForceCacheValid] always leaves the cache marked valid, and a
    second call right after changes neither the element nor the State.  The
    counter of evaluations goes up by exactly one when the cache was not
    valid and the magnitude of gravity is not zero, and stays as it was
    otherwise (a valid cache, or zero gravity, is no evaluation); the
    instance variables are never touched. *)
Theorem ensureForceCacheValid_evaluates_once (this : GravityImpl.t T)
    (state : State T) :
  let r1 := ensureForceCacheValid this state in
  isForceCacheValid r1.2 = true /\
  ensureForceCacheValid r1.1 r1.2 = r1 /\
  numEvaluations r1.1
    = (if isForceCacheValid state || (g (getInstanceVars state) =? 0)
       then numEvaluations this else S (numEvaluations this)) /\
  getInstanceVars r1.2 = getInstanceVars state.
Proof.
  unfold ensureForceCacheValid.
  destruct (isForceCacheValid state) eqn:Hv; simpl.
  - rewrite Hv. done.
  - destruct (reqb _ _); simpl; done.
Qed.

Lemma length_bodyForceStep (this : GravityImpl.t T) (iv : InstanceVars T)
    (gravity : Vec3 T) (zo : T) (fc : ForceCache T) (mbx : nat) :
  length (F_GB (bodyForceStep this iv gravity zo fc mbx)) = length (F_GB fc) /\
  f_GP (bodyForceStep this iv gravity zo fc mbx) = f_GP fc.
Proof.
  unfold bodyForceStep. destruct (mobodIsImmune iv !!! mbx); [done|]. simpl.
  split; [apply length_insert | done].
Qed.

Lemma foldl_bodyForceStep_sizes (this : GravityImpl.t T) (iv : InstanceVars T)
    (gravity : Vec3 T) (zo : T) (l : list nat) (fc : ForceCache T) :
  length (F_GB (foldl (bodyForceStep this iv gravity zo) fc l)) = length (F_GB fc) /\
  f_GP (foldl (bodyForceStep this iv gravity zo) fc l) = f_GP fc.
Proof.
  apply (foldl_preserves
           (fun fc' => length (F_GB fc') = length (F_GB fc) /\ f_GP fc' = f_GP fc));
    [done|].
  intros fc' b _ (Hl & Hp).
  destruct (length_bodyForceStep this iv gravity zo fc' b) as (Hl' & Hp').
  split; congruence.
Qed.

Lemma foldl_particleForceStep_sizes (this : GravityImpl.t T) (gravity : Vec3 T)
    (zo : T) (l : list nat) (fc : ForceCache T) :
  F_GB (foldl (particleForceStep this gravity zo) fc l) = F_GB fc /\
  length (f_GP (foldl (particleForceStep this gravity zo) fc l)) = length (f_GP fc).
Proof.
  apply (foldl_preserves
           (fun fc' => F_GB fc' = F_GB fc /\ length (f_GP fc') = length (f_GP fc)));
    [done|].
  intros fc' b _ (HF & Hp). unfold particleForceStep; simpl.
  split; [done|]. by rewrite length_insert.
Qed.

(** A turn of the loop changes the entry of its own body only, and only
    when the body is not immune. *)
Lemma foldl_bodyForceStep_frame (this : GravityImpl.t T) (iv : InstanceVars T)
    (gravity : Vec3 T) (zo : T) (l : list nat) (fc : ForceCache T) (j : nat) :
  j ∉ l \/ mobodIsImmune iv !!! j = true ->
  F_GB (foldl (bodyForceStep this iv gravity zo) fc l) !! j = F_GB fc !! j.
Proof.
  intros Hj.
  apply (foldl_preserves (fun fc' => F_GB fc' !! j = F_GB fc !! j)); [done|].
  intros fc' b Hb Hfc'. unfold bodyForceStep.
  destruct (mobodIsImmune iv !!! b) eqn:Hb'; [done|]. simpl.
  rewrite list_lookup_insert_ne; [done|].
  intros ->. destruct Hj as [Hj|Hj]; [done|congruence].
Qed.

Lemma foldl_bodyForceStep_body (this : GravityImpl.t T) (iv : InstanceVars T)
    (gravity : Vec3 T) (zo : T) (l : list nat) (fc : ForceCache T) (j : nat) :
  j ∈ l -> mobodIsImmune iv !!! j = false -> j < length (F_GB fc) ->
  F_GB (foldl (bodyForceStep this iv gravity zo) fc l) !! j
  = Some (mkSpatialVec
            (cross (mvmul (R_ (getBodyTransform (matter this) j))
                          (getMassCenter (matter this) j))
                   (vscale (getMass (matter this) j) gravity))
            (vscale (getMass (matter this) j) gravity)).
Proof.
  revert fc. induction l as [|b l IH]; intros fc Hin Himm Hlen.
  { by apply elem_of_nil in Hin. }
  simpl. destruct (decide (b = j)) as [->|Hbj].
  - apply (foldl_preserves (fun fc' => F_GB fc' !! j = Some _)).
    + unfold bodyForceStep. rewrite Himm. simpl. by apply list_lookup_insert_eq.
    + intros fc' b Hb Hfc'. unfold bodyForceStep.
      destruct (mobodIsImmune iv !!! b) eqn:Hb'; [done|]. simpl.
      destruct (decide (b = j)) as [->|Hne].
      * apply list_lookup_insert_eq. by apply lookup_lt_Some in Hfc'.
      * by rewrite list_lookup_insert_ne.
  - apply IH; [|done|].
    + apply elem_of_cons in Hin. destruct Hin as [->|Hin]; done.
    + by rewrite (proj1 (length_bodyForceStep this iv gravity zo fc b)).
Qed.

(** The loop of [realizeInstance] over the immunity flags. *)
Lemma foldl_clearImmune_length (imm : list bool) (l : list nat)
    (F : list (SpatialVec T)) :
  length (foldl (fun F mbx => if (imm !!! mbx : bool)
                              then <[mbx := mkSpatialVec Vec3_0 Vec3_0]> F else F)
                F l) = length F.
Proof.
  apply (foldl_preserves (fun F' => length F' = length F)); [done|].
  intros F' b _ HF'. destruct (imm !!! b); [|done]. by rewrite length_insert.
Qed.

Lemma foldl_clearImmune_frame (imm : list bool) (l : list nat)
    (F : list (SpatialVec T)) (j : nat) :
  imm !!! j = false ->
  foldl (fun F mbx => if (imm !!! mbx : bool)
                      then <[mbx := mkSpatialVec Vec3_0 Vec3_0]> F else F)
        F l !! j = F !! j.
Proof.
  intros Hj. apply (foldl_preserves (fun F' => F' !! j = F !! j)); [done|].
  intros F' b _ HF'. destruct (imm !!! b) eqn:Hb; [|done].
  rewrite list_lookup_insert_ne; [done|]. intros ->. congruence.
Qed.

Lemma foldl_clearImmune_zero (imm : list bool) (l : list nat)
    (F : list (SpatialVec T)) (j : nat) :
  j ∈ l -> imm !!! j = true -> j < length F ->
  foldl (fun F mbx => if (imm !!! mbx : bool)
                      then <[mbx := mkSpatialVec Vec3_0 Vec3_0]> F else F)
        F l !! j = Some SpatialVec_0.
Proof.
  revert F. induction l as [|b l IH]; intros F Hin Himm Hlen.
  { by apply elem_of_nil in Hin. }
  simpl. destruct (decide (b = j)) as [->|Hbj].
  - apply (foldl_preserves (fun F' => F' !! j = Some SpatialVec_0)).
    + rewrite Himm. by apply list_lookup_insert_eq.
    + intros F' b _ HF'. destruct (imm !!! b); [|done].
      destruct (decide (b = j)) as [->|Hne].
      * apply list_lookup_insert_eq. by apply lookup_lt_Some in HF'.
      * by rewrite list_lookup_insert_ne.
  - apply IH; [|done|].
    + apply elem_of_cons in Hin. destruct Hin as [->|Hin]; done.
    + destruct (imm !!! b); [by rewrite length_insert|done].
Qed.

Lemma foldl_clearImmune_zeros (imm : list bool) (l : list nat) (n : nat) :
  foldl (fun F mbx => if (imm !!! mbx : bool)
                      then <[mbx := mkSpatialVec Vec3_0 Vec3_0]> F else F)
        (replicate n (SpatialVec_0 : SpatialVec T)) l
  = replicate n SpatialVec_0.
Proof.
  apply (foldl_preserves (fun F' => F' = replicate n (SpatialVec_0 : SpatialVec T)));
    [done|].
  intros F' b _ ->. destruct (imm !!! b); [|done]. apply insert_replicate.
Qed.

Lemma ensureForceCacheValid_sizes (this : GravityImpl.t T) (st : State T) :
  let r := ensureForceCacheValid this st in
  matter r.1 = matter this /\
  getInstanceVars r.2 = getInstanceVars st /\
  length (F_GB (getForceCache r.2)) = length (F_GB (getForceCache st)) /\
  length (f_GP (getForceCache r.2)) = length (f_GP (getForceCache st)).
Proof.
  unfold ensureForceCacheValid. destruct (isForceCacheValid st); [done|].
  destruct (reqb _ _); [done|]. cbn [fst snd]. split; [done|]. split; [done|].
  unfold markForceCacheValid, updForceCache. cbn [getForceCache].
  destruct (Nat.eqb _ 0);
    repeat match goal with
      | |- context [foldl (particleForceStep ?t ?gr ?zo) ?fc ?l] =>
          rewrite ?(proj1 (foldl_particleForceStep_sizes t gr zo l fc)),
                  ?(proj2 (foldl_particleForceStep_sizes t gr zo l fc))
      | |- context [foldl (bodyForceStep ?t ?iv ?gr ?zo) ?fc ?l] =>
          rewrite ?(proj1 (foldl_bodyForceStep_sizes t iv gr zo l fc)),
                  ?(proj2 (foldl_bodyForceStep_sizes t iv gr zo l fc))
      end; done.
Qed.
End GravityCache.

(** ** The forces that gravity applies *)

Section GravityForces.
Context {T : Type} {SC : Scalar T} {NN : HasNaN T}.
Import GravityImpl.
Local Open Scope real_scope.

Lemma realizeInstance_F_GB (this : GravityImpl.t T) (st : State T) (j : nat) :
  j < length (mobodIsImmune (getInstanceVars st)) ->
  j < length (F_GB (getForceCache st)) ->
  getInstanceVars (realizeInstance this st) = getInstanceVars st /\
  isForceCacheValid (realizeInstance this st) = isForceCacheValid st /\
  length (F_GB (getForceCache (realizeInstance this st)))
    = length (F_GB (getForceCache st)) /\
  (mobodIsImmune (getInstanceVars st) !!! j = true ->
   F_GB (getForceCache (realizeInstance this st)) !! j = Some SpatialVec_0).
Proof.
  intros Hj HF. split; [done|]. split; [done|].
  unfold realizeInstance. cbn [getForceCache updForceCache F_GB].
  assert (Hlen : length (F_GB (if g (getInstanceVars st) =? 0
                               then setToZero (getForceCache st)
                               else setToNaN (getForceCache st)))
                 = length (F_GB (getForceCache st))).
  { destruct (reqb _ _); simpl; by rewrite ?length_insert, length_replicate. }
  split.
  - by rewrite foldl_clearImmune_length.
  - intros Himm. apply foldl_clearImmune_zero; [|done|by rewrite Hlen].
    apply elem_of_seq. lia.
Qed.

(** X2: the force on each body.  In a State whose arrays have an entry for
    every body, with gravity of magnitude g that is not zero and a cache that
    is not valid, [realizeInstance] followed by [getBodyForce] for a body
    other than Ground gives: the zero spatial vector when the body is immune
    (excluded); otherwise the force F = m*(g*d) applied at the body's mass
    center, that is the spatial force (p_CB_G % F, F) at the body origin, with
    p_CB_G the mass center re-expressed in Ground. *)
Theorem gravity_body_force (this : GravityImpl.t T) (state : State T) (mbx : nat) :
  let iv := getInstanceVars state in
  let nb := getNumBodies (matter this) in
  isForceCacheValid state = false ->
  (g iv =? 0) = false ->
  length (mobodIsImmune iv) = nb ->
  length (F_GB (getForceCache state)) = nb ->
  1 <= mbx < nb ->
  let m := getMass (matter this) mbx in
  let p_CB_G := mvmul (R_ (getBodyTransform (matter this) mbx))
                      (getMassCenter (matter this) mbx) in
  let F_CB_G := vscale m (vscale (g iv) (d iv)) in
  (Gravity.getBodyForce this (realizeInstance this state) mbx).2
  = if (mobodIsImmune iv !!! mbx : bool) then SpatialVec_0
    else mkSpatialVec (cross p_CB_G F_CB_G) F_CB_G.
Proof.
  intros iv nb Hvalid Hg Himm HF Hmbx m p_CB_G F_CB_G.
  destruct (realizeInstance_F_GB this state mbx) as (Eiv & Ev & Elen & Hzero);
    [fold iv; lia | lia |].
  unfold Gravity.getBodyForce, ensureForceCacheValid.
  rewrite Ev, Hvalid, Eiv. fold iv. rewrite Hg.
  cbn [snd]. apply list_lookup_total_correct.
  unfold markForceCacheValid, updForceCache. cbn [getForceCache].
  assert (Hin : mbx ∈ seq 1 (nb - 1)) by (apply elem_of_seq; lia).
  destruct (mobodIsImmune iv !!! mbx) eqn:Hflag.
  - destruct (Nat.eqb _ 0);
      rewrite ?(proj1 (foldl_particleForceStep_sizes _ _ _ _ _));
      (rewrite foldl_bodyForceStep_frame by (by right)); cbn [F_GB]; by apply Hzero.
  - destruct (Nat.eqb _ 0);
      rewrite ?(proj1 (foldl_particleForceStep_sizes _ _ _ _ _));
      (rewrite (foldl_bodyForceStep_body _ _ _ _ _ _ mbx);
         [reflexivity | exact Hin | exact Hflag | cbn [F_GB]; lia]).
Qed.

(** X3: zero gravity.  When the magnitude in the State is zero,
    [realizeInstance] sets every body force and particle force of the cache
    to zero and the potential energy to zero, and [ensureForceCacheValid]
    then marks the cache valid as it is, without counting an evaluation. *)
Theorem zero_gravity_applies_no_force (this : GravityImpl.t T) (state : State T) :
  (g (getInstanceVars state) =? 0) = true ->
  let fc := getForceCache state in
  let r := ensureForceCacheValid this (realizeInstance this state) in
  numEvaluations r.1 = numEvaluations this /\
  isForceCacheValid r.2 = true /\
  getForceCache r.2
  = mkForceCache (replicate (length (F_GB fc)) SpatialVec_0)
                 (replicate (length (f_GP fc)) Vec3_0) 0.
Proof.
  intros Hg fc r.
  assert (Hfc : getForceCache (realizeInstance this state)
                = mkForceCache (replicate (length (F_GB fc)) SpatialVec_0)
                               (replicate (length (f_GP fc)) Vec3_0) 0).
  { unfold realizeInstance. rewrite Hg. cbn [getForceCache updForceCache].
    unfold setToZero. cbn [F_GB f_GP pe]. fold fc.
    by rewrite foldl_clearImmune_zeros. }
  unfold r, ensureForceCacheValid.
  destruct (isForceCacheValid (realizeInstance this state)) eqn:Hv.
  - cbn [fst snd]. by rewrite Hv, Hfc.
  - change (getInstanceVars (realizeInstance this state))
      with (getInstanceVars state).
    rewrite Hg. cbn [fst snd]. split; [done|]. split; [done|]. exact Hfc.
Qed.
End GravityForces.

Lemma gravity_body_force_sample :
  (Gravity.getBodyForce GravitySamples.earthF
     (GravityImpl.realizeInstance GravitySamples.earthF CacheSamples.fresh) 1).2
  = Samples.sv (Samples.v3 (-0) 0 0) (Samples.v3 0 0 (-20)).
Proof.
  refine (eq_trans (gravity_body_force GravitySamples.earthF CacheSamples.fresh 1
                      eq_refl eq_refl eq_refl eq_refl _) _).
  - simpl. lia.
  - vm_compute. reflexivity.
Defined.

Lemma zero_gravity_applies_no_force_sample :
  GravityImpl.getForceCache
    (GravityImpl.ensureForceCacheValid GravitySamples.earthF
       (GravityImpl.realizeInstance GravitySamples.earthF CacheSamples.weightless)).2
  = GravityImpl.mkForceCache [SpatialVec_0; SpatialVec_0] [] 0%float.
Proof.
  exact (proj2 (proj2 (zero_gravity_applies_no_force GravitySamples.earthF
                         CacheSamples.weightless eq_refl))).
Defined.

(** ** Which bodies are immune: the defaults and the allocation *)

Section GravityImmunity.
Context {T : Type} {SC : Scalar T}.
Import GravityImpl.

(** X5: [setMobodIsImmuneByDefault] followed by [getMobodIsImmuneByDefault].
    For a body other than Ground the flag that was set is the flag that is
    read back, and the answer for every other body is what it was before,
    also when the array had to grow to hold the new entry (the bodies in
    between read as not immune, as they did before).  Nothing else in the
    element changes. *)
Theorem default_immunity_set_then_get (this : GravityImpl.t T) (mbx : nat)
    (isImmune : bool) :
  mbx <> 0 ->
  let this' := setMobodIsImmuneByDefault this mbx isImmune in
  getMobodIsImmuneByDefault this' mbx = isImmune /\
  (forall i, i <> mbx ->
     getMobodIsImmuneByDefault this' i = getMobodIsImmuneByDefault this i) /\
  matter this' = matter this /\
  defDirection this' = defDirection this /\
  defMagnitude this' = defMagnitude this /\
  defZeroHeight this' = defZeroHeight this.
Proof.
  intros Hm. unfold setMobodIsImmuneByDefault.
  destruct (Nat.eqb_spec mbx 0) as [E|_]; [contradiction|].
  unfold getMobodIsImmuneByDefault. cbn [defMobodIsImmune matter defDirection
    defMagnitude defZeroHeight].
  split; [|split; [|done]].
  - rewrite length_insert.
    destruct (Nat.ltb_spec (length (defMobodIsImmune this)) (mbx + 1)) as [Hl|Hl].
    + rewrite length_resize.
      destruct (Nat.ltb_spec (mbx + 1) (mbx + 1)); [lia|].
      apply list_lookup_total_insert_eq. rewrite length_resize. lia.
    + destruct (Nat.ltb_spec (length (defMobodIsImmune this)) (mbx + 1)); [lia|].
      apply list_lookup_total_insert_eq. lia.
  - intros i Hi. rewrite length_insert.
    rewrite list_lookup_total_insert_ne by done.
    destruct (Nat.ltb_spec (length (defMobodIsImmune this)) (mbx + 1)) as [Hl|Hl];
      [|done].
    rewrite length_resize.
    destruct (Nat.ltb_spec (mbx + 1) (i + 1)) as [Hi1|Hi1];
      destruct (Nat.ltb_spec (length (defMobodIsImmune this)) (i + 1)) as [Hi2|Hi2];
      try done; try lia.
    + apply list_lookup_total_correct. apply lookup_resize_new; lia.
    + apply list_lookup_total_correct. rewrite lookup_resize by lia.
      apply list_lookup_lookup_total_lt. lia.
Qed.
End GravityImmunity.

Section GravityTopology.
Context {T : Type} {SC : Scalar T} {NN : HasNaN T}.
Import GravityImpl.

Lemma realizeTopology_sizes (this : GravityImpl.t T) :
  let r := realizeTopology this in
  matter r.1 = matter this /\
  length (mobodIsImmune (getInstanceVars r.2)) = getNumBodies (matter this) /\
  length (F_GB (getForceCache r.2)) = getNumBodies (matter this) /\
  length (f_GP (getForceCache r.2)) = getNumParticles (matter this).
Proof.
  unfold realizeTopology. cbn [fst snd matter getInstanceVars getForceCache
    mobodIsImmune defMobodIsImmune].
  split; [done|]. split.
  - destruct (Nat.eqb_spec (length (defMobodIsImmune this))
                (getNumBodies (matter this))); cbn [negb]; [done|].
    apply length_resize.
  - unfold allocate, setToNaN. cbn [F_GB f_GP].
    by rewrite length_insert, !length_replicate, !length_resize.
Qed.

(** X6: what [realizeTopology] allocates.  The instance variables start from
    the element's defaults; there is one immunity flag per mobilized body,
    equal to the default of that body (a body added after the element was
    built, for which no default was ever set, is not immune); the cache has
    one body force per body and one particle force per particle and is not
    valid; the force of Ground is zero and the force of every other body is
    NaN until it is computed. *)
Theorem realizeTopology_allocates (this : GravityImpl.t T) :
  let nb := getNumBodies (matter this) in
  let r := realizeTopology this in
  let iv := getInstanceVars r.2 in
  let fc := getForceCache r.2 in
  matter r.1 = matter this /\
  d iv = defDirection this /\ g iv = defMagnitude this /\
  z iv = defZeroHeight this /\
  length (mobodIsImmune iv) = nb /\
  (forall mbx, mbx < nb ->
     mobodIsImmune iv !!! mbx = getMobodIsImmuneByDefault this mbx /\
     getMobodIsImmuneByDefault r.1 mbx = getMobodIsImmuneByDefault this mbx) /\
  length (F_GB fc) = nb /\
  length (f_GP fc) = getNumParticles (matter this) /\
  isForceCacheValid r.2 = false /\
  (1 <= nb -> F_GB fc !! 0 = Some SpatialVec_0) /\
  (forall mbx, 1 <= mbx < nb -> F_GB fc !! mbx = Some SpatialVec_NaN).
Proof.
  intros nb r iv fc.
  destruct (realizeTopology_sizes this) as (Hm & Himm & HF & Hp).
  fold r in Hm, Himm, HF, Hp. fold iv in Himm. fold fc in HF, Hp. fold nb in Himm, HF.
  split; [done|]. split; [done|]. split; [done|]. split; [done|].
  split; [done|]. split; [|split; [done|split; [done|split; [done|split]]]].
  - intros mbx Hmbx.
    assert (Hflag : mobodIsImmune iv !!! mbx = getMobodIsImmuneByDefault this mbx).
    { unfold iv, r, realizeTopology. cbn [snd getInstanceVars mobodIsImmune
        defMobodIsImmune]. unfold getMobodIsImmuneByDefault. fold nb.
      destruct (Nat.eqb_spec (length (defMobodIsImmune this)) nb) as [E|E];
        cbn [negb].
      - destruct (Nat.ltb_spec (length (defMobodIsImmune this)) (mbx + 1));
          [lia|done].
      - destruct (Nat.ltb_spec (length (defMobodIsImmune this)) (mbx + 1)).
        + apply list_lookup_total_correct. apply lookup_resize_new; lia.
        + apply list_lookup_total_correct. rewrite lookup_resize by lia.
          apply list_lookup_lookup_total_lt. lia. }
    split; [exact Hflag|]. rewrite <- Hflag.
    unfold getMobodIsImmuneByDefault.
    change (defMobodIsImmune r.1) with (mobodIsImmune iv). rewrite Himm.
    destruct (Nat.ltb_spec nb (mbx + 1)); [lia|done].
  - intros Hnb. unfold fc, r, realizeTopology, allocate, setToNaN.
    cbn [snd getForceCache F_GB]. apply list_lookup_insert_eq.
    rewrite length_replicate, length_resize. fold nb. lia.
  - intros mbx Hmbx. unfold fc, r, realizeTopology, allocate, setToNaN.
    cbn [snd getForceCache F_GB]. rewrite list_lookup_insert_ne by lia.
    apply lookup_replicate_2. rewrite length_resize. fold nb. lia.
Qed.
End GravityTopology.

Lemma default_immunity_set_then_get_sample :
  GravityImpl.getMobodIsImmuneByDefault
    (GravityImpl.setMobodIsImmuneByDefault GravitySamples.earthF 5 true) 5 = true /\
  GravityImpl.getMobodIsImmuneByDefault
    (GravityImpl.setMobodIsImmuneByDefault GravitySamples.earthF 5 true) 3 = false.
Proof.
  pose proof (default_immunity_set_then_get GravitySamples.earthF 5 true
                ltac:(discriminate)) as (Hset & Hrest & _).
  split; [exact Hset|]. exact (Hrest 3 ltac:(discriminate)).
Defined.

(** ** The arrays of a State always fit the matter subsystem *)

Section GravitySizes.
Context {T : Type} {SC : Scalar T} {SQ : Sqrt T} {TR : Trig T} {NN : HasNaN T}.
Import GravityImpl GravityLife.

Lemma onState_sized (w w' : World T) (c : Gravity.M T (State T) unit) :
  (forall st,
     length (mobodIsImmune (getInstanceVars (snd (c st))))
       = length (mobodIsImmune (getInstanceVars st)) /\
     getForceCache (snd (c st)) = getForceCache st) ->
  sized w -> onState w c = Some w' -> sized w'.
Proof.
  intros Hc Hw Hstep. unfold onState in Hstep.
  destruct (state w) as [st|] eqn:Est; [|discriminate].
  injection Hstep as <-. destruct (Hw st Est) as (Hi & HF & Hp).
  destruct (Hc st) as (Hi' & Hfc).
  intros st' E. simpl in E. injection E as <-. simpl.
  rewrite Hi', Hfc. done.
Qed.

Lemma onImpl_sized (w w' : World T) (c : Gravity.M T (GravityImpl.t T) unit) :
  (forall this, matter (snd (c this)) = matter this) ->
  sized w -> onImpl w c = Some w' -> sized w'.
Proof.
  intros Hc Hw Hstep. unfold onImpl in Hstep. injection Hstep as <-.
  intros st E. simpl in E. simpl. rewrite Hc. by apply Hw.
Qed.

Lemma realizeInstance_sizes (this : GravityImpl.t T) (st : State T) :
  getInstanceVars (realizeInstance this st) = getInstanceVars st /\
  length (F_GB (getForceCache (realizeInstance this st)))
    = length (F_GB (getForceCache st)) /\
  length (f_GP (getForceCache (realizeInstance this st)))
    = length (f_GP (getForceCache st)).
Proof.
  split; [done|]. unfold realizeInstance.
  cbn [getForceCache updForceCache F_GB f_GP]. rewrite foldl_clearImmune_length.
  destruct (reqb _ _); simpl; by rewrite ?length_insert, !length_replicate.
Qed.

Lemma step_sized (w w' : World T) (op : Op T) :
  sized w -> step w op = Some w' -> sized w'.
Proof.
  intros Hw Hstep. destruct op; cbv beta iota delta [step] in Hstep.
  - eapply onImpl_sized; [|exact Hw|exact Hstep].
    intros this. unfold Gravity.setDefaultBodyIsExcluded, Gravity.upd,
      setMobodIsImmuneByDefault. simpl. by destruct (Nat.eqb mobod 0).
  - eapply onImpl_sized; [|exact Hw|exact Hstep]. intros this. run_method; done.
  - eapply onImpl_sized; [|exact Hw|exact Hstep]. intros this. run_method; done.
  - eapply onImpl_sized; [|exact Hw|exact Hstep]. intros this. run_method; done.
  - eapply onImpl_sized; [|exact Hw|exact Hstep]. intros this. run_method; done.
  - destruct (Nat.leb _ _); [|discriminate]. injection Hstep as <-.
    intros st E. discriminate.
  - pose proof (realizeTopology_sizes (impl w)) as Htopo.
    destruct (realizeTopology (impl w)) as [this st].
    injection Hstep as <-. destruct Htopo as (Hm & Hi & HF & Hp).
    intros st' E. simpl in E. injection E as <-. simpl in *. rewrite Hm. done.
  - destruct (state w) as [st|] eqn:Est; [|discriminate].
    injection Hstep as <-. destruct (Hw st Est) as (Hi & HF & Hp).
    destruct (realizeInstance_sizes (impl w) st) as (Ei & EF & Ep).
    intros st' E. simpl in E. injection E as <-. cbn [impl].
    rewrite Ei, EF, Ep. done.
  - eapply onState_sized; [|exact Hw|exact Hstep].
    intros st. run_method; [|done]. unfold setMobodIsImmune.
    destruct (Nat.eqb mobod 0); [done|]. simpl. by rewrite length_insert.
  - eapply onState_sized; [|exact Hw|exact Hstep]. intros st. run_method; done.
  - eapply onState_sized; [|exact Hw|exact Hstep]. intros st. run_method; done.
  - eapply onState_sized; [|exact Hw|exact Hstep]. intros st. run_method; done.
  - eapply onState_sized; [|exact Hw|exact Hstep]. intros st. run_method; done.
  - destruct (state w) as [st|] eqn:Est; [|discriminate].
    destruct (Hw st Est) as (Hi & HF & Hp).
    pose proof (ensureForceCacheValid_sizes (impl w) st) as Hens.
    destruct (ensureForceCacheValid (impl w) st) as [this st'].
    injection Hstep as <-. simpl in Hens. destruct Hens as (Hm & Ei & EF & Ep).
    intros st'' E. simpl in E. injection E as <-. simpl.
    rewrite Hm, Ei, EF, Ep. done.
Qed.

Lemma reachable_sized (w : World T) : reachable w -> sized w.
Proof.
  induction 1 as [w (Hst & _) | w op w' _ IH Hstep].
  - intros st E. congruence.
  - by apply (step_sized w w' op).
Qed.

(** X7: in every state a client can reach (constructors, default setters,
    added bodies, [realizeTopology], [realizeInstance], the setters of the
    State, [ensureForceCacheValid]) the State has exactly one immunity flag
    and one cached body force per mobilized body of the matter subsystem,
    and one cached particle force per particle: every index that the loops of
    [realizeInstance] and [ensureForceCacheValid] use is in range, and
    [setBodyIsExcluded] accepts exactly the indices of existing entries. *)
Theorem state_arrays_fit_matter (w : World T) (st : State T) :
  reachable w -> state w = Some st ->
  let nb := getNumBodies (matter (impl w)) in
  length (mobodIsImmune (getInstanceVars st)) = nb /\
  length (F_GB (getForceCache st)) = nb /\
  length (f_GP (getForceCache st)) = getNumParticles (matter (impl w)) /\
  1 <= nb /\
  forall mobod b,
    (Gravity.setBodyIsExcluded (impl w) mobod b st).1 = inr tt
    <-> mobod < length (mobodIsImmune (getInstanceVars st)).
Proof.
  intros Hreach Est nb.
  destruct (reachable_sized w Hreach st Est) as (Hi & HF & Hp).
  destruct (reachable_groundIsImmune w Hreach) as (Hnb & _).
  split; [done|]. split; [done|]. split; [done|]. split; [done|].
  intros mobod b. rewrite Hi.
  unfold Gravity.setBodyIsExcluded, Gravity.bind, Gravity.SimTK_ERRCHK_ALWAYS.
  destruct (Nat.ltb_spec mobod (getNumBodies (matter (impl w)))); simpl.
  - split; [lia|done].
  - split; [discriminate|lia].
Qed.

(** X9: [calcForce] adds the cached forces into the caller's arrays.  In a
    reachable state, with a body-force array of the right size, the result
    has the same size, the entry of Ground has had the zero spatial vector
    added to it, and calling [calcForce] again on the result adds the same
    cached forces once more without evaluating gravity again: the element and
    the State are the ones the first call left. *)
Theorem calcForce_adds_cached_forces (w : World T) (st : State T)
    (bodyForces : list (SpatialVec T)) (particleForces : list (Vec3 T))
    (F_G0 : SpatialVec T) :
  reachable w -> state w = Some st ->
  length bodyForces = getNumBodies (matter (impl w)) ->
  bodyForces !! 0 = Some F_G0 ->
  let r := calcForce (impl w) st bodyForces particleForces in
  let F := F_GB (getForceCache r.1.1.2) in
  r.1.2 = zip_with svadd bodyForces F /\
  length r.1.2 = length bodyForces /\
  r.1.2 !! 0 = Some (svadd F_G0 SpatialVec_0) /\
  calcForce r.1.1.1 r.1.1.2 r.1.2 r.2
  = (r.1.1.1, r.1.1.2, zip_with svadd r.1.2 F,
     zip_with vadd r.2 (f_GP (getForceCache r.1.1.2))).
Proof.
  intros Hreach Est Hlen H0.
  destruct (reachable_sized w Hreach st Est) as (Hi & HF & Hp).
  destruct (reachable_groundIsImmune w Hreach) as (Hnb & _ & Hst).
  destruct (Hst st Est) as (_ & HF0).
  pose proof (ensureForceCacheValid_ground (impl w) st HF0) as Hg.
  pose proof (ensureForceCacheValid_sizes (impl w) st) as Hs.
  pose proof (ensureForceCacheValid_valid (impl w) st) as Ho.
  unfold calcForce.
  destruct (ensureForceCacheValid (impl w) st) as [this' st'] eqn:Eens.
  cbn [fst snd] in *. destruct Hg as (_ & _ & _ & _ & HF0').
  destruct Hs as (_ & _ & EF & _). destruct Ho as (_ & Hvalid).
  pose proof (proj1 (ensureForceCacheValid_valid this' st') Hvalid) as Eagain.
  split; [done|]. split.
  - rewrite length_zip_with. lia.
  - split.
    + rewrite lookup_zip_with, H0, HF0'. done.
    + rewrite Eagain. done.
Qed.
End GravitySizes.

Lemma state_arrays_fit_matter_settled :
  length (GravityImpl.F_GB (GravityImpl.getForceCache CacheSamples.settledState)) = 2.
Proof.
  exact (proj1 (proj2 (state_arrays_fit_matter GravitySamples.settled
                         CacheSamples.settledState settled_reachable eq_refl))).
Defined.

Lemma calcForce_adds_cached_forces_settled :
  (GravityImpl.calcForce (GravityLife.impl GravitySamples.settled)
     CacheSamples.settledState CacheSamples.applied []).1.2 !! 0%nat
  = Some (svadd (Samples.sv Samples.O3 Samples.O3) SpatialVec_0).
Proof.
  exact (proj1 (proj2 (proj2 (calcForce_adds_cached_forces GravitySamples.settled
           CacheSamples.settledState CacheSamples.applied []
           (Samples.sv Samples.O3 Samples.O3) settled_reachable eq_refl eq_refl
           eq_refl)))).
Defined.

(** ** Excluding a body in a State *)

Section GravityExclude.
Context {T : Type} {SC : Scalar T}.
Import GravityImpl.
Local Open Scope string_scope.

(** X8: [setBodyIsExcluded] checks the index before it writes.  An index
    that is not below the number of bodies throws, reporting the index and
    the largest valid one, and leaves the State as it was.  For a body other
    than Ground that exists, the call succeeds, [getBodyIsExcluded] then
    reads the flag that was set, the flags of the other bodies read as
    before, direction, magnitude, zero height and the contents of the force
    cache are left alone, and the force cache is left marked not valid. *)
Theorem setBodyIsExcluded_checks_then_sets (this : GravityImpl.t T)
    (state : State T) (mobod : nat) (isExcluded : bool) :
  let nb := getNumBodies (matter this) in
  let iv := getInstanceVars state in
  let r := Gravity.setBodyIsExcluded this mobod isExcluded state in
  (nb <= mobod ->
     r = (inl (mkException "Force::Gravity::setBodyIsExcluded()"
                 "Attemped to exclude mobilized body with index %d but only mobilized bodies with indices between 0 and %d exist in this System."
                 [ArgInt (Z.of_nat mobod); ArgInt (Z.of_nat nb - 1)%Z]),
          state)) /\
  (0 < mobod < nb -> length (mobodIsImmune iv) = nb ->
     r.1 = inr tt /\
     Gravity.getBodyIsExcluded this r.2 mobod = isExcluded /\
     (forall i, i <> mobod ->
        Gravity.getBodyIsExcluded this r.2 i = Gravity.getBodyIsExcluded this state i) /\
     d (getInstanceVars r.2) = d iv /\ g (getInstanceVars r.2) = g iv /\
     z (getInstanceVars r.2) = z iv /\
     getForceCache r.2 = getForceCache state /\
     isForceCacheValid r.2 = false).
Proof.
  intros nb iv r. unfold r, Gravity.setBodyIsExcluded, Gravity.bind,
    Gravity.SimTK_ERRCHK_ALWAYS, Gravity.upd, Gravity.ret, Gravity.throw.
  fold nb. split.
  - intros Hm. destruct (Nat.ltb_spec mobod nb); [lia|]. reflexivity.
  - intros Hm Hlen. destruct (Nat.ltb_spec mobod nb); [|lia]. cbn [fst snd].
    unfold setMobodIsImmune. destruct (Nat.eqb_spec mobod 0); [lia|].
    unfold Gravity.getBodyIsExcluded, getMobodIsImmune, updInstanceVars.
    cbn [getInstanceVars mobodIsImmune d g z getForceCache isForceCacheValid].
    fold iv.
    split; [done|]. split.
    + apply list_lookup_total_insert_eq. lia.
    + split; [|done]. intros i Hi. by apply list_lookup_total_insert_ne.
Qed.
End GravityExclude.

Lemma setBodyIsExcluded_checks_then_sets_sample :
  (exists e, Gravity.setBodyIsExcluded GravitySamples.earthF 2 true
               CacheSamples.fresh = (inl e, CacheSamples.fresh)) /\
  Gravity.getBodyIsExcluded GravitySamples.earthF
    (Gravity.setBodyIsExcluded GravitySamples.earthF 1 true CacheSamples.fresh).2 1
  = true.
Proof.
  split.
  - eexists.
    refine (proj1 (setBodyIsExcluded_checks_then_sets GravitySamples.earthF
                     CacheSamples.fresh 2 true) _).
    simpl. lia.
  - refine (proj1 (proj2 (proj2 (setBodyIsExcluded_checks_then_sets
              GravitySamples.earthF CacheSamples.fresh 1 true) _ eq_refl))).
    simpl. lia.
Defined.

(** ** The gravity vector *)

Section GravityVector.
Context {T : Type} {SC : Scalar T} {SQ : Sqrt T}.
Local Open Scope real_scope.
Import GravityImpl.

(** X4: a gravity vector is stored as a magnitude and a direction.
    [setGravityVector] computes the norm of the vector and checks that it is
    above zero.  When it is, the call succeeds and stores the norm as the
    magnitude and the vector divided by the norm as the direction, whatever
    magnitude and direction the State held; [getMagnitude] then gives the
    norm, [getGravityVector] the norm times that direction, the zero height
    and the immunity flags are kept, and the force cache keeps its contents
    and is left marked not valid.  The constructor that takes a gravity
    vector makes the same split, with zero height 0.  When the computed norm
    is not above zero, both throw and the State is left as it was. *)
Theorem gravity_vector_set_then_get (matter : SimbodyMatterSubsystem T)
    (this : GravityImpl.t T) (state : State T) (gravity : Vec3 T) :
  let n := norm3 gravity in
  let r := Gravity.setGravityVector this gravity state in
  ((0 <? n) = true ->
     r.1 = inr tt /\
     Gravity.getMagnitude this r.2 = n /\
     d (getInstanceVars r.2) = vdiv gravity n /\
     Gravity.getGravityVector this r.2 = vscale n (vdiv gravity n) /\
     z (getInstanceVars r.2) = z (getInstanceVars state) /\
     mobodIsImmune (getInstanceVars r.2) = mobodIsImmune (getInstanceVars state) /\
     getForceCache r.2 = getForceCache state /\
     isForceCacheValid r.2 = false /\
     exists impl, Gravity.Gravity' matter gravity = inr impl /\
       defMagnitude impl = n /\ defDirection impl = vdiv gravity n /\
       defZeroHeight impl = 0) /\
  ((0 <? n) = false ->
     r.2 = state /\
     (exists e, r.1 = inl e /\
                whereChecked e = "Force::Gravity::setGravityVector()"%string) /\
     exists e, Gravity.Gravity' matter gravity = inl e).
Proof.
  intros n r. split; intros Hn.
  - unfold r. rewrite (setGravityVector_accepted this state gravity Hn).
    cbn [fst snd]. unfold Gravity.getGravityVector, Gravity.getMagnitude.
    cbn [getInstanceVars getForceCache isForceCacheValid g d z mobodIsImmune].
    repeat (split; [reflexivity|]).
    unfold Gravity.Gravity'. fold n. rewrite Hn. cbn [negb].
    eexists. split; [reflexivity|]. repeat split.
  - destruct (setGravityVector_rejected this state gravity Hn) as (e & He & Hw & _).
    unfold r. rewrite He. cbn [fst snd]. split; [reflexivity|].
    split; [by exists e|].
    unfold Gravity.Gravity'. fold n. rewrite Hn. cbn [negb]. by eexists.
Qed.
End GravityVector.

(** In binary64: the vector (0,3,-4) is split into magnitude 5 and direction
    (0, 0.6, -0.8); the vector (2^-600,0,0) is not zero, but its computed
    norm is (the square underflows), and it is rejected. *)
Lemma gravity_vector_set_then_get_sample :
  Gravity.getMagnitude GravitySamples.earthF
    (Gravity.setGravityVector GravitySamples.earthF (Samples.v3 0 3 (-4))
       CacheSamples.settledState).2 = 5%float /\
  (Gravity.setGravityVector GravitySamples.earthF
     (Samples.v3 0x1p-600 0 0) CacheSamples.settledState).2
  = CacheSamples.settledState.
Proof.
  split.
  - exact (proj1 (proj2 (proj1 (gravity_vector_set_then_get GravitySamples.matterF
             GravitySamples.earthF CacheSamples.settledState
             (Samples.v3 0 3 (-4))) eq_refl))).
  - exact (proj1 (proj2 (gravity_vector_set_then_get GravitySamples.matterF
             GravitySamples.earthF CacheSamples.settledState
             (Samples.v3 0x1p-600 0 0)) eq_refl)).
Defined.

(** ** Binary64: which magnitudes are accepted *)

Lemma float_magnitude_check (x : float) :
  PrimFloat.leb 0 x = negb (PrimFloat.ltb x 0) && PrimFloat.eqb x x.
Proof.
  rewrite FloatAxioms.ltb_spec, FloatAxioms.leb_spec, FloatAxioms.eqb_spec.
  change (Prim2SF 0) with (S754_zero false).
  destruct (Prim2SF x) as [[]|[]| |[] m e]; try reflexivity;
    unfold SFeqb, SFltb, SFleb, SFcompare;
    rewrite ?Z.compare_refl, ?Pos.compare_cont_refl, ?Pos.compare_refl;
    reflexivity.
Qed.

(** X10: in binary64, [setMagnitude] rejects exactly the numbers below zero
    and NaN, and leaves the State as it was when it does; every other number
    is stored as the magnitude.  Negative zero and plus infinity pass the
    check. *)
Theorem setMagnitude_binary64 (this : GravityImpl.t float)
    (state : GravityImpl.State float) (x : float) :
  let r := Gravity.setMagnitude this x state in
  (PrimFloat.ltb x 0 || negb (PrimFloat.eqb x x) = true ->
     r = (inl (mkException "Force::Gravity::setMagnitude()"
                 "The gravity magnitude g must be nonnegative but was specified as %g."
                 [ArgReal x]),
          state)) /\
  (PrimFloat.ltb x 0 || negb (PrimFloat.eqb x x) = false ->
     r.1 = inr tt /\ Gravity.getMagnitude this r.2 = x) /\
  (Gravity.setMagnitude this infinity state).1 = inr tt /\
  (Gravity.setMagnitude this (-0)%float state).1 = inr tt.
Proof.
  intros r. split; [|split; [|split]].
  - intros Hx. apply setMagnitude_rejected.
    change (PrimFloat.leb 0 x = false). rewrite float_magnitude_check.
    destruct (PrimFloat.ltb x 0); [done|]. simpl in Hx |- *.
    by destruct (PrimFloat.eqb x x).
  - intros Hx. unfold r. rewrite setMagnitude_accepted; [done|].
    change (PrimFloat.leb 0 x = true). rewrite float_magnitude_check.
    destruct (PrimFloat.ltb x 0); [done|]. simpl in Hx |- *.
    by destruct (PrimFloat.eqb x x).
  - by rewrite setMagnitude_accepted.
  - by rewrite setMagnitude_accepted.
Qed.

Lemma setMagnitude_binary64_sample :
  Gravity.getMagnitude GravitySamples.earthF
    (Gravity.setMagnitude GravitySamples.earthF 3%float CacheSamples.fresh).2
  = 3%float.
Proof.
  exact (proj2 (proj1 (proj2 (setMagnitude_binary64 GravitySamples.earthF
                                CacheSamples.fresh 3%float)) eq_refl)).
Defined.

(** * More of the code: the mobilizers *)

Section MoreSlotLemmas.
Context {T : Type} {SC : Scalar T}.

Lemma getVec3_setVec3 (v : list T) (i : nat) (x : Vec3 T) :
  i + 3 <= length v -> getVec3 (setVec3 v i x) i = x.
Proof.
  intros Hi. destruct x as [a b c]. unfold getVec3, setVec3; simpl.
  f_equal.
  - rewrite !slot_insert_ne by lia. apply slot_insert_eq. lia.
  - rewrite slot_insert_ne by lia. apply slot_insert_eq.
    rewrite length_insert. lia.
  - apply slot_insert_eq. rewrite !length_insert. lia.
Qed.

Lemma slot_setVec3_other (v : list T) (i j : nat) (x : Vec3 T) :
  j < i \/ i + 3 <= j -> slot (setVec3 v i x) j = slot v j.
Proof.
  intros Hj. unfold setVec3. by rewrite !slot_insert_ne by lia.
Qed.

Lemma slot_setVec4_other (v : list T) (i j : nat) (x : Vec4 T) :
  j < i \/ i + 4 <= j -> slot (setVec4 v i x) j = slot v j.
Proof.
  intros Hj. unfold setVec4. by rewrite !slot_insert_ne by lia.
Qed.

Lemma getVec3_setVec3_other (v : list T) (i j : nat) (x : Vec3 T) :
  j + 3 <= i \/ i + 3 <= j -> getVec3 (setVec3 v i x) j = getVec3 v j.
Proof.
  intros Hj. unfold getVec3. by rewrite !slot_setVec3_other by lia.
Qed.

Lemma getVec4_setVec3_other (v : list T) (i j : nat) (x : Vec3 T) :
  j + 4 <= i \/ i + 3 <= j -> getVec4 (setVec3 v i x) j = getVec4 v j.
Proof.
  intros Hj. unfold getVec4. by rewrite !slot_setVec3_other by lia.
Qed.

Lemma getVec3_setVec4_other (v : list T) (i j : nat) (x : Vec4 T) :
  j + 3 <= i \/ i + 4 <= j -> getVec3 (setVec4 v i x) j = getVec3 v j.
Proof.
  intros Hj. unfold getVec3. by rewrite !slot_setVec4_other by lia.
Qed.

Lemma lookup_setVec3_other (v : list T) (i j : nat) (x : Vec3 T) :
  j < i \/ i + 3 <= j -> setVec3 v i x !! j = v !! j.
Proof.
  intros Hj. unfold setVec3. rewrite !list_lookup_insert_ne by lia. done.
Qed.

Lemma setVec3_commute (v : list T) (i j : nat) (x y : Vec3 T) :
  i + 3 <= j \/ j + 3 <= i ->
  setVec3 (setVec3 v i x) j y = setVec3 (setVec3 v j y) i x.
Proof.
  intros Hij. apply list_eq. intros k. unfold setVec3.
  destruct (decide (k < length v)) as [Hk|Hk].
  - destruct (decide (k = i)) as [->|?]; [|
    destruct (decide (k = i + 1)) as [->|?]; [|
    destruct (decide (k = i + 2)) as [->|?]; [|
    destruct (decide (k = j)) as [->|?]; [|
    destruct (decide (k = j + 1)) as [->|?]; [|
    destruct (decide (k = j + 2)) as [->|?]]]]]];
    repeat first
      [ rewrite list_lookup_insert_eq by (rewrite ?length_insert; lia)
      | rewrite list_lookup_insert_ne by lia ]; done.
  - rewrite !lookup_ge_None_2 by (rewrite ?length_insert; lia). done.
Qed.
End MoreSlotLemmas.

(** ** Fitting a translation, and getting it back *)

Section FitTranslation.
Context {T : Type} {SC : Scalar T} {SQ : Sqrt T} {TR : Trig T}.
Local Open Scope real_scope.

(** X11: the mobilizers that can represent every translation reproduce it
    exactly.  After [setQToFitTranslation] with p_FM, the transform computed
    by [calcAcrossJointTransform] has translation p_FM, for the translation
    joint and for the free joint, with Euler angles or with a quaternion
    alike; the free joint's orientation coordinates are not touched, so its
    rotation is what it was before. *)
Theorem fit_translation_is_exact (node : RigidBodyNode T) (sbs : SBStateDigest T)
    (p_FM : Vec3 T) (q : list T) :
  (qIndex node + 3 <= length q ->
     p_ (RBNodeTranslate.calcAcrossJointTransform node sbs
           (RBNodeTranslate.setQToFitTranslationImpl node sbs p_FM q)) = p_FM /\
     R_ (RBNodeTranslate.calcAcrossJointTransform node sbs
           (RBNodeTranslate.setQToFitTranslationImpl node sbs p_FM q)) = Mat33_1) /\
  (qIndex node + 7 <= length q ->
     let q' := RBNodeFree.setQToFitTranslationImpl node sbs p_FM q in
     p_ (RBNodeFree.calcAcrossJointTransform node sbs q') = p_FM /\
     R_ (RBNodeFree.calcAcrossJointTransform node sbs q')
       = R_ (RBNodeFree.calcAcrossJointTransform node sbs q) /\
     length q' = length q).
Proof.
  split; intros Hq.
  - split; [|done].
    unfold RBNodeTranslate.calcAcrossJointTransform,
      RBNodeTranslate.setQToFitTranslationImpl, fromQ3, toQ3. cbn [p_].
    apply getVec3_setVec3. lia.
  - unfold RBNodeFree.calcAcrossJointTransform,
      RBNodeFree.setQToFitTranslationImpl, fromQVec3, toQVec3, fromQuat.
    destruct (useEulerAngles sbs); cbn [p_ R_].
    + split; [apply getVec3_setVec3; lia|]. split; [|apply length_setVec3].
      by rewrite getVec3_setVec3_other by lia.
    + split; [apply getVec3_setVec3; lia|]. split; [|apply length_setVec3].
      by rewrite getVec4_setVec3_other by lia.
Qed.

(** X12: the mobilizers that can represent part of a translation keep that
    part.  After [setQToFitTranslation] with p_FM the transform has
    translation (p_x, 0, 0) for the slider, (0, 0, p_z) for the cylinder and
    (p_x, p_y, 0) for the planar joint, and the rotation of the cylinder and
    of the planar joint is what it was before; the pin and the ball joint,
    which cannot translate, leave q as it is and their translation is
    zero. *)
Theorem fit_translation_projects (node : RigidBodyNode T) (sbs : SBStateDigest T)
    (p_FM : Vec3 T) (q : list T) :
  (qIndex node + 1 <= length q ->
     RBNodeSlider.calcAcrossJointTransform node sbs
       (RBNodeSlider.setQToFitTranslationImpl node sbs p_FM q)
     = mkTransform Mat33_1 (mkVec3 (vx p_FM) 0 0)) /\
  (qIndex node + 2 <= length q ->
     RBNodeCylinder.calcAcrossJointTransform node sbs
       (RBNodeCylinder.setQToFitTranslationImpl node sbs p_FM q)
     = mkTransform (R_ (RBNodeCylinder.calcAcrossJointTransform node sbs q))
                   (mkVec3 0 0 (vz p_FM))) /\
  (qIndex node + 3 <= length q ->
     RBNodePlanar.calcAcrossJointTransform node sbs
       (RBNodePlanar.setQToFitTranslationImpl node sbs p_FM q)
     = mkTransform (R_ (RBNodePlanar.calcAcrossJointTransform node sbs q))
                   (mkVec3 (vx p_FM) (vy p_FM) 0)) /\
  RBNodeTorsion.setQToFitTranslationImpl sbs p_FM q = q /\
  p_ (RBNodeTorsion.calcAcrossJointTransform node sbs q) = mkVec3 0 0 0 /\
  RBNodeBall.setQToFitTranslationImpl sbs p_FM q = q /\
  p_ (RBNodeBall.calcAcrossJointTransform node sbs q) = mkVec3 0 0 0.
Proof.
  split; [|split; [|split]].
  - intros Hq. unfold RBNodeSlider.calcAcrossJointTransform,
      RBNodeSlider.setQToFitTranslationImpl, from1Q, to1Q.
    by rewrite slot_insert_eq by lia.
  - intros Hq. unfold RBNodeCylinder.calcAcrossJointTransform,
      RBNodeCylinder.setQToFitTranslationImpl, fromQ_at, toQ_at. cbn [R_].
    rewrite slot_insert_ne by lia. by rewrite slot_insert_eq by lia.
  - intros Hq. unfold RBNodePlanar.calcAcrossJointTransform,
      RBNodePlanar.setQToFitTranslationImpl, fromQ_at, toQ_at. cbn [R_].
    rewrite !slot_insert_ne by lia.
    rewrite (slot_insert_eq _ (qIndex node + 2)) by (rewrite length_insert; lia).
    by rewrite slot_insert_eq by lia.
  - repeat split.
    unfold RBNodeBall.calcAcrossJointTransform. by destruct (useEulerAngles sbs).
Qed.
End FitTranslation.

Lemma fit_translation_is_exact_sample :
  p_ (RBNodeFree.calcAcrossJointTransform RealSamples.body (RealSamples.noCaches false)
        (RBNodeFree.setQToFitTranslationImpl RealSamples.body
           (RealSamples.noCaches false) (mkVec3 7 8 9)%R [1; 0; 0; 0; 0; 0; 0]%R))
  = (mkVec3 7 8 9)%R.
Proof.
  refine (proj1 (proj2 (fit_translation_is_exact RealSamples.body
            (RealSamples.noCaches false) (mkVec3 7 8 9)%R
            [1; 0; 0; 0; 0; 0; 0]%R) _)).
  simpl. lia.
Defined.

Lemma fit_translation_projects_sample :
  RBNodePlanar.calcAcrossJointTransform RealSamples.body (RealSamples.noCaches false)
    (RBNodePlanar.setQToFitTranslationImpl RealSamples.body
       (RealSamples.noCaches false) (mkVec3 7 8 9)%R [0; 1; 2]%R)
  = mkTransform
      (R_ (RBNodePlanar.calcAcrossJointTransform RealSamples.body
             (RealSamples.noCaches false) [0; 1; 2]%R))
      (mkVec3 7 8 0)%R.
Proof.
  refine (proj1 (proj2 (proj2 (fit_translation_projects RealSamples.body
            (RealSamples.noCaches false) (mkVec3 7 8 9)%R [0; 1; 2]%R))) _).
  simpl. lia.
Defined.

(** ** Fitting velocities, and copying coordinates *)

Section FitVelocity.
Context {T : Type} {SC : Scalar T} {SQ : Sqrt T} {TR : Trig T}.
Local Open Scope real_scope.

(** X13: the free joint's speeds are the angular velocity followed by the
    linear velocity.  [setUToFitAngularVelocity] and
    [setUToFitLinearVelocity] write disjoint slots: in either order they
    leave the same u, whose first three slots of the node hold w_FM and the
    next three v_FM, and no slot of another node is changed. *)
Theorem free_velocity_fits_commute (node : RigidBodyNode T) (sbs : SBStateDigest T)
    (q : list T) (w_FM v_FM : Vec3 T) (u : list T) :
  uIndex node + 6 <= length u ->
  let u1 := RBNodeFree.setUToFitLinearVelocityImpl node sbs q v_FM
              (RBNodeFree.setUToFitAngularVelocityImpl node sbs q w_FM u) in
  let u2 := RBNodeFree.setUToFitAngularVelocityImpl node sbs q w_FM
              (RBNodeFree.setUToFitLinearVelocityImpl node sbs q v_FM u) in
  u1 = u2 /\
  getVec3 u1 (uIndex node) = w_FM /\
  getVec3 u1 (uIndex node + 3) = v_FM /\
  length u1 = length u /\
  forall i, i < uIndex node \/ uIndex node + 6 <= i -> u1 !! i = u !! i.
Proof.
  intros Hu. unfold RBNodeFree.setUToFitLinearVelocityImpl,
    RBNodeFree.setUToFitAngularVelocityImpl, toUVec3. cbv zeta.
  split; [apply setVec3_commute; lia|].
  split.
  { rewrite getVec3_setVec3_other by lia. rewrite Nat.add_0_r.
    apply getVec3_setVec3. lia. }
  split; [apply getVec3_setVec3; rewrite length_setVec3; lia|].
  split; [by rewrite !length_setVec3|].
  intros i Hi. by rewrite !lookup_setVec3_other by lia.
Qed.

(** X19: [copyQ] carries the pose over.  For the ball joint and for the free
    joint, with Euler angles or with a quaternion, the transform computed
    from the vector that received the copy is the transform computed from
    the vector that was copied, and the slots of the other nodes keep what
    they held. *)
Theorem copyQ_transfers_pose (node : RigidBodyNode T) (sbs : SBStateDigest T)
    (qIn q : list T) :
  let qB := RBNodeBall.copyQ node (useEulerAngles sbs) qIn q in
  let qF := RBNodeFree.copyQ node (useEulerAngles sbs) qIn q in
  (qIndex node + 4 <= length q ->
     RBNodeBall.calcAcrossJointTransform node sbs qB
       = RBNodeBall.calcAcrossJointTransform node sbs qIn) /\
  (qIndex node + 7 <= length q ->
     RBNodeFree.calcAcrossJointTransform node sbs qF
       = RBNodeFree.calcAcrossJointTransform node sbs qIn) /\
  (forall i, i < qIndex node \/ qIndex node + 4 <= i -> qB !! i = q !! i) /\
  (forall i, i < qIndex node \/ qIndex node + 7 <= i -> qF !! i = q !! i).
Proof.
  unfold RBNodeBall.copyQ, RBNodeFree.copyQ,
    RBNodeBall.calcAcrossJointTransform, RBNodeFree.calcAcrossJointTransform,
    fromQ3, toQ3, fromQuat, toQuat, fromQVec3, toQVec3.
  destruct (useEulerAngles sbs); cbv zeta.
  - split; [intros Hq; by rewrite getVec3_setVec3 by lia|]. split.
    + intros Hq. rewrite getVec3_setVec3_other by lia.
      rewrite !getVec3_setVec3 by (rewrite ?length_setVec3; lia). done.
    + split; intros i Hi; by rewrite !lookup_setVec3_other by lia.
  - split; [intros Hq; by rewrite getVec4_setVec4 by lia|]. split.
    + intros Hq. rewrite getVec4_setVec3_other by lia.
      rewrite getVec4_setVec4 by lia.
      rewrite getVec3_setVec3 by (rewrite ?length_setVec4; lia). done.
    + split; intros i Hi.
      * by rewrite lookup_setVec4_other by lia.
      * rewrite lookup_setVec3_other by lia.
        by rewrite !lookup_setVec4_other by lia.
Qed.
End FitVelocity.

Lemma free_velocity_fits_commute_sample :
  getVec3 (RBNodeFree.setUToFitLinearVelocityImpl Samples.pinned Samples.spinning []
             (Samples.v3 4 5 6)
             (RBNodeFree.setUToFitAngularVelocityImpl Samples.pinned Samples.spinning []
                (Samples.v3 1 2 3) [0; 0; 0; 0; 0; 0]%float)) 3
  = Samples.v3 4 5 6.
Proof.
  refine (proj1 (proj2 (proj2 (free_velocity_fits_commute Samples.pinned
            Samples.spinning [] (Samples.v3 1 2 3) (Samples.v3 4 5 6)
            [0; 0; 0; 0; 0; 0]%float _)))).
  simpl. lia.
Defined.

Lemma copyQ_transfers_pose_sample :
  RBNodeFree.calcAcrossJointTransform RealSamples.body (RealSamples.noCaches false)
    (RBNodeFree.copyQ RealSamples.body false [1; 0; 0; 0; 7; 8; 9]%R
       [0; 0; 0; 0; 0; 0; 0]%R)
  = RBNodeFree.calcAcrossJointTransform RealSamples.body (RealSamples.noCaches false)
      [1; 0; 0; 0; 7; 8; 9]%R.
Proof.
  refine (proj1 (proj2 (copyQ_transfers_pose RealSamples.body
            (RealSamples.noCaches false) [1; 0; 0; 0; 7; 8; 9]%R
            [0; 0; 0; 0; 0; 0; 0]%R)) _).
  simpl. lia.
Defined.

(** ** A ball joint with Euler angles *)

Section BallAsGimbal.
Context {T : Type} {SC : Scalar T} {SQ : Sqrt T} {TR : Trig T}.

(** X30: with Euler angles in use the ball joint behaves as the gimbal
    joint.  For every q and u the two compute the same transform, the same
    Jacobian and Jacobian derivative, the same sines and cosines, and fit an
    angular velocity by writing the same u. *)
Theorem ball_with_euler_angles_is_gimbal (node : RigidBodyNode T)
    (sbs : SBStateDigest T) (qErrSlot : nat) (w_FM : Vec3 T)
    (q u sine cosine qErr qnorm : list T) :
  useEulerAngles sbs = true ->
  RBNodeBall.calcAcrossJointTransform node sbs q
    = RBNodeGimbal.calcAcrossJointTransform node sbs q /\
  RBNodeBall.calcAcrossJointVelocityJacobian sbs
    = RBNodeGimbal.calcAcrossJointVelocityJacobian sbs /\
  RBNodeBall.calcAcrossJointVelocityJacobianDot sbs
    = RBNodeGimbal.calcAcrossJointVelocityJacobianDot sbs /\
  RBNodeBall.calcJointSinCosQNorm node (useEulerAngles sbs) qErrSlot q
    sine cosine qErr qnorm
    = RBNodeGimbal.calcJointSinCosQNorm node q sine cosine qErr qnorm /\
  RBNodeBall.setUToFitAngularVelocityImpl node sbs q w_FM u
    = RBNodeGimbal.setUToFitAngularVelocityImpl node sbs q w_FM u /\
  (RBNodeBall.enforceQuaternionConstraints node sbs q qErr).1.2 = q.
Proof.
  intros Heuler.
  unfold RBNodeBall.calcAcrossJointTransform, RBNodeBall.calcJointSinCosQNorm,
    RBNodeBall.enforceQuaternionConstraints, enforceQuaternionConstraints_body.
  rewrite Heuler. repeat split.
Qed.
End BallAsGimbal.

Lemma ball_with_euler_angles_is_gimbal_sample :
  RBNodeBall.calcAcrossJointTransform RealSamples.body (RealSamples.noCaches true)
    [1; 2; 3; 4]%R
  = RBNodeGimbal.calcAcrossJointTransform RealSamples.body (RealSamples.noCaches true)
      [1; 2; 3; 4]%R.
Proof.
  exact (proj1 (ball_with_euler_angles_is_gimbal RealSamples.body
                  (RealSamples.noCaches true) 0 (mkVec3 0 0 0)%R
                  [1; 2; 3; 4]%R [] [] [] [] [] eq_refl)).
Defined.

(** ** Reversed simple mobilizers *)

Section ReverseH.
Local Open Scope R_scope.

(** X14: for the simple mobilizers that override it (translation, slider,
    pin, screw, cylinder), the Jacobian of the reversed mobilizer is the
    Jacobian of the forward one with every column negated, and the time
    derivative of the reversed Jacobian is zero like that of the forward
    one. *)
Theorem reverse_H_is_negated_H (sbs : SBStateDigest R) (pitch : R) :
  RBNodeTranslate.calcReverseMobilizerH_FM sbs
    = svneg <$> RBNodeTranslate.calcAcrossJointVelocityJacobian sbs /\
  RBNodeSlider.calcReverseMobilizerH_FM sbs
    = svneg <$> RBNodeSlider.calcAcrossJointVelocityJacobian sbs /\
  RBNodeTorsion.calcReverseMobilizerH_FM sbs
    = svneg <$> RBNodeTorsion.calcAcrossJointVelocityJacobian sbs /\
  RBNodeScrew.calcReverseMobilizerH_FM pitch sbs
    = svneg <$> RBNodeScrew.calcAcrossJointVelocityJacobian pitch sbs /\
  RBNodeCylinder.calcReverseMobilizerH_FM sbs
    = svneg <$> RBNodeCylinder.calcAcrossJointVelocityJacobian sbs /\
  RBNodeTranslate.calcReverseMobilizerHDot_FM sbs
    = RBNodeTranslate.calcAcrossJointVelocityJacobianDot sbs /\
  RBNodeSlider.calcReverseMobilizerHDot_FM sbs
    = RBNodeSlider.calcAcrossJointVelocityJacobianDot sbs /\
  RBNodeTorsion.calcReverseMobilizerHDot_FM sbs
    = RBNodeTorsion.calcAcrossJointVelocityJacobianDot sbs /\
  RBNodeScrew.calcReverseMobilizerHDot_FM sbs
    = RBNodeScrew.calcAcrossJointVelocityJacobianDot sbs /\
  RBNodeCylinder.calcReverseMobilizerHDot_FM sbs
    = RBNodeCylinder.calcAcrossJointVelocityJacobianDot sbs.
Proof.
  assert (Hz : (- 0)%R = 0%R) by ring.
  repeat split;
    unfold RBNodeTranslate.calcReverseMobilizerH_FM,
      RBNodeSlider.calcReverseMobilizerH_FM, RBNodeTorsion.calcReverseMobilizerH_FM,
      RBNodeScrew.calcReverseMobilizerH_FM, RBNodeCylinder.calcReverseMobilizerH_FM,
      RBNodeTranslate.calcAcrossJointVelocityJacobian,
      RBNodeSlider.calcAcrossJointVelocityJacobian,
      RBNodeTorsion.calcAcrossJointVelocityJacobian,
      RBNodeScrew.calcAcrossJointVelocityJacobian,
      RBNodeCylinder.calcAcrossJointVelocityJacobian,
      svneg, vneg, Vec3_0; simpl; rewrite ?Hz; reflexivity.
Qed.
End ReverseH.

(** ** The default position of the ball and of the free joint *)

Section DefaultPosition.
Local Open Scope R_scope.

(** X18: the default position is the reference configuration.  For the ball
    joint and for the free joint, with Euler angles or with a quaternion,
    the q written by [setMobilizerDefaultPositionValues] gives the identity
    transform: no rotation and no translation; and the default quaternion is
    already normalized. *)
Theorem default_position_is_identity (node : RigidBodyNode R)
    (sbs : SBStateDigest R) (q : list R) :
  let qB := RBNodeBall.setMobilizerDefaultPositionValues node (useEulerAngles sbs) q in
  let qF := RBNodeFree.setMobilizerDefaultPositionValues node (useEulerAngles sbs) q in
  ((qIndex node + 4 <= length q)%nat ->
     RBNodeBall.calcAcrossJointTransform node sbs qB = mkTransform Mat33_1 Vec3_0 /\
     (useEulerAngles sbs = false -> norm4 (fromQuat node qB) = 1)) /\
  ((qIndex node + 7 <= length q)%nat ->
     RBNodeFree.calcAcrossJointTransform node sbs qF = mkTransform Mat33_1 Vec3_0 /\
     (useEulerAngles sbs = false -> norm4 (fromQuat node qF) = 1)).
Proof.
  assert (Hn1 : norm4 (mkVec4 1 0 0 0 : Vec4 R) = 1).
  { unfold norm4, dot4; simpl.
    replace (1 * 1 + 0 * 0 + 0 * 0 + 0 * 0) with 1 by ring. apply sqrt_1. }
  unfold RBNodeBall.setMobilizerDefaultPositionValues,
    RBNodeFree.setMobilizerDefaultPositionValues,
    RBNodeBall.calcAcrossJointTransform, RBNodeFree.calcAcrossJointTransform,
    fromQ3, toQ3, fromQuat, toQuat, fromQVec3, toQVec3.
  destruct (useEulerAngles sbs); cbv zeta.
  - split; intros Hq; (split; [|discriminate]).
    + rewrite getVec3_setVec3 by (rewrite ?length_setVec4; lia).
      f_equal. apply setRotationToBodyFixedXYZ_0.
    + rewrite getVec3_setVec3_other by lia.
      rewrite !getVec3_setVec3 by (rewrite ?length_setVec3; lia).
      f_equal. apply setRotationToBodyFixedXYZ_0.
  - split; intros Hq.
    + rewrite !getVec4_setVec4 by lia. split; [|done].
      f_equal. etrans; [|apply setRotationFromQuaternion_identity].
      f_equal. apply Quaternion_identity.
    + rewrite getVec4_setVec3_other by lia.
      rewrite !getVec4_setVec4 by lia.
      rewrite getVec3_setVec3 by (rewrite ?length_setVec4; lia).
      split; [|done].
      f_equal. etrans; [|apply setRotationFromQuaternion_identity].
      f_equal. apply Quaternion_identity.
Qed.
End DefaultPosition.

Lemma default_position_is_identity_sample :
  RBNodeFree.calcAcrossJointTransform RealSamples.body (RealSamples.noCaches true)
    (RBNodeFree.setMobilizerDefaultPositionValues RealSamples.body true
       [1; 2; 3; 4; 5; 6; 7]%R)
  = mkTransform Mat33_1 Vec3_0.
Proof.
  refine (proj1 (proj2 (default_position_is_identity RealSamples.body
            (RealSamples.noCaches true) [1; 2; 3; 4; 5; 6; 7]%R) _)).
  simpl. lia.
Defined.

(** * More of the code: welds *)

Lemma foldl_prefix_invariant {A B : Type} (f : A -> B -> A)
    (Q : list B -> A -> Prop) (l : list B) (a : A) :
  Q [] a ->
  (forall pre x a', l !! length pre = Some x -> (forall j, j < length pre -> l !! j = pre !! j) ->
     Q pre a' -> Q (pre ++ [x]) (f a' x)) ->
  Q l (foldl f a l).
Proof.
  intros H0. induction l as [|x l IH] using rev_ind; intros Hstep; [exact H0|].
  rewrite foldl_snoc. apply Hstep.
  - by rewrite lookup_app_r, Nat.sub_diag.
  - intros j Hj. by rewrite lookup_app_l.
  - apply IH. intros pre y a' Hy Hpre HQ.
    assert (Hlt : length pre < length l) by (by apply lookup_lt_Some in Hy).
    apply Hstep; [|intros j Hj|exact HQ].
    + by rewrite lookup_app_l.
    + rewrite lookup_app_l by lia. by apply Hpre.
Qed.

Section WeldsAtRest.
Local Open Scope R_scope.

Lemma phiT_mul_0 (phi : PhiMatrix R) : phiT_mul phi SpatialVec_0 = SpatialVec_0.
Proof.
  unfold phiT_mul, SpatialVec_0, Vec3_0, vadd, cross; simpl.
  f_equal. f_equal; ring.
Qed.

Lemma phi_mul_0 (phi : PhiMatrix R) : phi_mul phi SpatialVec_0 = SpatialVec_0.
Proof.
  unfold phi_mul, SpatialVec_0, Vec3_0, vadd, cross; simpl.
  f_equal. f_equal; ring.
Qed.

Lemma svadd_0_l (a : SpatialVec R) : svadd SpatialVec_0 a = a.
Proof.
  destruct a as [[a0 a1 a2] [b0 b1 b2]].
  unfold svadd, SpatialVec_0, Vec3_0, vadd; simpl. f_equal; f_equal; ring.
Qed.

Lemma svadd_0_r (a : SpatialVec R) : svadd a SpatialVec_0 = a.
Proof.
  destruct a as [[a0 a1 a2] [b0 b1 b2]].
  unfold svadd, SpatialVec_0, Vec3_0, vadd; simpl. f_equal; f_equal; ring.
Qed.

Lemma smvmul_0 (M : SpatialMat R) : smvmul M SpatialVec_0 = SpatialVec_0.
Proof.
  unfold smvmul, SpatialVec_0, Vec3_0, vadd, mvmul, vdot; simpl.
  f_equal; f_equal; ring.
Qed.

(** The body velocity that [realizeVelocity] of a weld stores, and the
    velocities of the other bodies, which it leaves alone. *)
Lemma weld_realizeVelocity_V_GB (node : RigidBodyNode R) (sbs : SBStateDigest R) :
  let n := nodeNum node in
  let pc := getPositionCache sbs in
  let vc := getVelocityCache sbs in
  (n < length (V_PB_G vc))%nat -> (n < length (V_GB vc))%nat ->
  let vc' := getVelocityCache (RBNodeWeld.realizeVelocity node sbs) in
  getV_GB n vc'
    = svadd (phiT_mul (getPhi n pc) (getV_GB (parent node) vc)) SpatialVec_0 /\
  (forall i, i <> n -> getV_GB i vc' = getV_GB i vc).
Proof.
  intros n pc vc HPB HGB vc'.
  unfold vc', RBNodeWeld.realizeVelocity, calcJointIndependentKinematicsVel,
    getV_GB, getV_PB_G, updV_GB, updV_PB_G, updV_FM.
  cbn [getVelocityCache V_GB V_PB_G V_FM]. split.
  - rewrite list_lookup_total_insert_eq by done.
    rewrite list_lookup_total_insert_eq by done. reflexivity.
  - intros i Hi. by rewrite list_lookup_total_insert_ne.
Qed.

(** X22: a welded body moves rigidly with its parent.  [realizeVelocity] of
    a weld sets the cross-joint velocities V_FM and V_PB_G to zero and gives
    the body the angular velocity of its parent and the linear velocity
    v_P + w_P % l, with l the offset of the body origin from the parent
    origin; nothing else in the velocity cache changes.  If the parent is at
    rest so is the body. *)
Theorem weld_moves_with_parent (node : RigidBodyNode R) (sbs : SBStateDigest R) :
  let n := nodeNum node in
  let pc := getPositionCache sbs in
  let vc := getVelocityCache sbs in
  (n < length (V_FM vc))%nat -> (n < length (V_PB_G vc))%nat ->
  (n < length (V_GB vc))%nat ->
  let vc' := getVelocityCache (RBNodeWeld.realizeVelocity node sbs) in
  let V_GP := getV_GB (parent node) vc in
  getV_FM n vc' = SpatialVec_0 /\
  getV_PB_G n vc' = SpatialVec_0 /\
  getV_GB n vc'
    = mkSpatialVec (ang V_GP)
        (vadd (lin V_GP) (cross (ang V_GP) (l_ (getPhi n pc)))) /\
  (V_GP = SpatialVec_0 -> getV_GB n vc' = SpatialVec_0) /\
  (forall i, i <> n ->
     getV_FM i vc' = getV_FM i vc /\ getV_PB_G i vc' = getV_PB_G i vc /\
     getV_GB i vc' = getV_GB i vc).
Proof.
  intros n pc vc HFM HPB HGB vc' V_GP.
  destruct (weld_realizeVelocity_V_GB node sbs HPB HGB) as (HV & HVoth).
  fold n pc vc vc' V_GP in HV, HVoth.
  split; [|split; [|split; [|split]]].
  - unfold vc', RBNodeWeld.realizeVelocity, calcJointIndependentKinematicsVel,
      getV_FM, updV_GB, updV_PB_G, updV_FM. cbn [getVelocityCache V_FM].
    by apply list_lookup_total_insert_eq.
  - unfold vc', RBNodeWeld.realizeVelocity, calcJointIndependentKinematicsVel,
      getV_PB_G, updV_GB, updV_PB_G, updV_FM. cbn [getVelocityCache V_PB_G].
    by apply list_lookup_total_insert_eq.
  - rewrite HV, svadd_0_r. reflexivity.
  - intros E. rewrite HV, E, phiT_mul_0. apply svadd_0_r.
  - intros i Hi. split; [|split; [|by apply HVoth]].
    + unfold vc', RBNodeWeld.realizeVelocity, calcJointIndependentKinematicsVel,
        getV_FM, updV_GB, updV_PB_G, updV_FM. cbn [getVelocityCache V_FM].
      by rewrite list_lookup_total_insert_ne.
    + unfold vc', RBNodeWeld.realizeVelocity, calcJointIndependentKinematicsVel,
        getV_PB_G, updV_GB, updV_PB_G, updV_FM. cbn [getVelocityCache V_PB_G].
      by rewrite list_lookup_total_insert_ne.
Qed.
End WeldsAtRest.

Lemma weld_moves_with_parent_sample :
  getV_GB 1 (getVelocityCache
               (RBNodeWeld.realizeVelocity TreeSamples.weld1 TreeSamples.leftovers))
  = SpatialVec_0.
Proof.
  refine (proj1 (proj2 (proj2 (proj2 (weld_moves_with_parent TreeSamples.weld1
            TreeSamples.leftovers _ _ _)))) eq_refl); simpl; lia.
Defined.

Section WeldTrees.
Local Open Scope R_scope.

Lemma weld_realizeVelocity_frame (node : RigidBodyNode R) (sbs : SBStateDigest R) :
  let sbs' := RBNodeWeld.realizeVelocity node sbs in
  useEulerAngles sbs' = useEulerAngles sbs /\
  getPositionCache sbs' = getPositionCache sbs /\
  getDynamicsCache sbs' = getDynamicsCache sbs /\
  length (V_FM (getVelocityCache sbs')) = length (V_FM (getVelocityCache sbs)) /\
  length (V_PB_G (getVelocityCache sbs')) = length (V_PB_G (getVelocityCache sbs)) /\
  length (V_GB (getVelocityCache sbs')) = length (V_GB (getVelocityCache sbs)).
Proof.
  unfold RBNodeWeld.realizeVelocity, calcJointIndependentKinematicsVel,
    updV_GB, updV_PB_G, updV_FM. simpl. by rewrite !length_insert.
Qed.

(** What [realizeDynamics] of a weld leaves in the dynamics cache: the
    entries of the node, each computed from the entries written before it,
    and nothing else. *)
Lemma weld_realizeDynamics_shape (node : RigidBodyNode R) (sbs : SBStateDigest R) :
  let n := nodeNum node in
  let pc := getPositionCache sbs in
  let vc := getVelocityCache sbs in
  let dc := getDynamicsCache sbs in
  n <> 0%nat -> allocated n dc ->
  let w_GB := ang (getV_GB n vc) in
  let v_GB := lin (getV_GB n vc) in
  let w_GP := ang (getV_GB (parent node) vc) in
  let v_GP := lin (getV_GB (parent node) vc) in
  let gy := mkSpatialVec (cross w_GB (mvmul (getInertia_OB_G n pc) w_GB))
              (vscale (getMass node) (cross w_GB (cross w_GB (getCB_G n pc)))) in
  let co := svadd (mkSpatialVec Vec3_0 (cross w_GP (vsub v_GB v_GP))) SpatialVec_0 in
  let tot := svadd (phiT_mul (getPhi n pc)
                      (getTotalCoriolisAcceleration (parent node) dc)) co in
  RBNodeWeld.realizeDynamics node sbs
  = mkSBStateDigest (useEulerAngles sbs) pc vc
      (mkSBDynamicsCache (P dc)
         (<[n := SpatialVec_0]> (VD_PB_G dc))
         (<[n := gy]> (GyroscopicForce dc))
         (<[n := co]> (CoriolisAcceleration dc))
         (<[n := tot]> (TotalCoriolisAcceleration dc))
         (<[n := svadd (smvmul (getP n dc) co) gy]> (CentrifugalForces dc))
         (<[n := svadd (smvmul (getP n dc) tot) gy]> (TotalCentrifugalForces dc))).
Proof.
  intros n pc vc dc Hn (Hv & Hg & Hc & Ht & Hf & Htf) w_GB v_GB w_GP v_GP gy co tot.
  subst tot co gy v_GP w_GP v_GB w_GB dc vc pc n.
  destruct sbs as [euler pc vc [p vd gyr cor tcor cf tcf]].
  cbn [getDynamicsCache getVelocityCache getPositionCache useEulerAngles
       P VD_PB_G GyroscopicForce CoriolisAcceleration TotalCoriolisAcceleration
       CentrifugalForces TotalCentrifugalForces] in *.
  cbv beta iota zeta delta [RBNodeWeld.realizeDynamics calcJointIndependentDynamicsVel
    getVD_PB_G getGyroscopicForce getCoriolisAcceleration
    getTotalCoriolisAcceleration getCentrifugalForces getTotalCentrifugalForces
    getP updVD_PB_G updGyroscopicForce updCoriolisAcceleration
    updTotalCoriolisAcceleration updCentrifugalForces updTotalCentrifugalForces
    getDynamicsCache getVelocityCache getPositionCache useEulerAngles
    P VD_PB_G GyroscopicForce CoriolisAcceleration TotalCoriolisAcceleration
    CentrifugalForces TotalCentrifugalForces].
  destruct (Nat.eqb_spec (nodeNum node) 0) as [E|_]; [contradiction|].
  rewrite !list_lookup_total_insert_eq by assumption. reflexivity.
Qed.

(** The velocity-dependent terms of a weld whose parent and itself are at
    rest. *)
Lemma weld_realizeDynamics_at_rest (node : RigidBodyNode R) (sbs : SBStateDigest R) :
  let n := nodeNum node in
  let pc := getPositionCache sbs in
  let vc := getVelocityCache sbs in
  let dc := getDynamicsCache sbs in
  n <> 0%nat -> allocated n dc ->
  getV_GB n vc = SpatialVec_0 ->
  getV_GB (parent node) vc = SpatialVec_0 ->
  getTotalCoriolisAcceleration (parent node) dc = SpatialVec_0 ->
  let sbs' := RBNodeWeld.realizeDynamics node sbs in
  let dc' := getDynamicsCache sbs' in
  getPositionCache sbs' = pc /\ getVelocityCache sbs' = vc /\
  (forall i, allocated i dc -> allocated i dc') /\
  (getGyroscopicForce n dc' = SpatialVec_0 /\
   getCoriolisAcceleration n dc' = SpatialVec_0 /\
   getTotalCoriolisAcceleration n dc' = SpatialVec_0 /\
   getCentrifugalForces n dc' = SpatialVec_0 /\
   getTotalCentrifugalForces n dc' = SpatialVec_0) /\
  (forall i, i <> n ->
     getGyroscopicForce i dc' = getGyroscopicForce i dc /\
     getCoriolisAcceleration i dc' = getCoriolisAcceleration i dc /\
     getTotalCoriolisAcceleration i dc' = getTotalCoriolisAcceleration i dc /\
     getCentrifugalForces i dc' = getCentrifugalForces i dc /\
     getTotalCentrifugalForces i dc' = getTotalCentrifugalForces i dc).
Proof.
  intros n pc vc dc Hn Hall HV HVP HTP sbs' dc'.
  pose proof (weld_realizeDynamics_shape node sbs Hn Hall) as Hshape.
  cbv zeta in Hshape. fold n pc vc dc in Hshape. rewrite HV, HVP, HTP in Hshape.
  assert (Hgy : mkSpatialVec
                  (cross (ang (SpatialVec_0 : SpatialVec R))
                     (mvmul (getInertia_OB_G n pc) (ang (SpatialVec_0 : SpatialVec R))))
                  (vscale (getMass node)
                     (cross (ang (SpatialVec_0 : SpatialVec R))
                        (cross (ang (SpatialVec_0 : SpatialVec R)) (getCB_G n pc))))
                = SpatialVec_0).
  { unfold SpatialVec_0, Vec3_0, cross, mvmul, vdot, vscale; simpl.
    f_equal; f_equal; ring. }
  assert (Hco : svadd (mkSpatialVec Vec3_0
                         (cross (ang (SpatialVec_0 : SpatialVec R))
                            (vsub (lin (SpatialVec_0 : SpatialVec R))
                                  (lin (SpatialVec_0 : SpatialVec R)))))
                      SpatialVec_0 = (SpatialVec_0 : SpatialVec R)).
  { unfold SpatialVec_0, Vec3_0, svadd, vadd, cross, vsub; simpl.
    f_equal; f_equal; ring. }
  rewrite Hgy, Hco in Hshape.
  repeat (progress rewrite ?phiT_mul_0, ?smvmul_0, ?svadd_0_r in Hshape).
  destruct Hall as (Hv & Hg & Hc & Ht & Hf & Htf).
  unfold dc', sbs'. rewrite Hshape.
  unfold allocated, getGyroscopicForce, getCoriolisAcceleration,
    getTotalCoriolisAcceleration, getCentrifugalForces, getTotalCentrifugalForces.
  cbn [getDynamicsCache getPositionCache getVelocityCache P VD_PB_G GyroscopicForce
    CoriolisAcceleration TotalCoriolisAcceleration CentrifugalForces
    TotalCentrifugalForces].
  split; [done|]. split; [done|]. split.
  { intros i (? & ? & ? & ? & ? & ?). rewrite !length_insert. done. }
  split.
  { rewrite !list_lookup_total_insert_eq by assumption. done. }
  intros i Hi. rewrite !list_lookup_total_insert_ne by done. done.
Qed.

Lemma baseToTip_parent (nodes pre : list (RigidBodyNode R)) (x : RigidBodyNode R) :
  baseToTip nodes ->
  nodes !! length pre = Some x ->
  (forall j, (j < length pre)%nat -> nodes !! j = pre !! j) ->
  parent x = 0%nat \/ exists p, p ∈ pre /\ nodeNum p = parent x.
Proof.
  intros Hbt Hx Hpre. destruct (Hbt _ _ Hx) as [H0|(j & p & Hj & Hp & Hnum)];
    [by left|right].
  exists p. split; [|done]. rewrite (Hpre j Hj) in Hp.
  by apply list_elem_of_lookup_2 in Hp.
Qed.

Lemma realizeVelocityOfWelds_at_rest (nodes : list (RigidBodyNode R))
    (sbs : SBStateDigest R) :
  baseToTip nodes -> fits nodes sbs ->
  getV_GB 0 (getVelocityCache sbs) = SpatialVec_0 ->
  let sbs' := realizeVelocityOfWelds nodes sbs in
  getPositionCache sbs' = getPositionCache sbs /\
  getDynamicsCache sbs' = getDynamicsCache sbs /\
  getV_GB 0 (getVelocityCache sbs') = SpatialVec_0 /\
  forall node, node ∈ nodes ->
    getV_GB (nodeNum node) (getVelocityCache sbs') = SpatialVec_0.
Proof.
  intros Hbt Hfits H0. unfold realizeVelocityOfWelds.
  pose (Q := fun (pre : list (RigidBodyNode R)) (s : SBStateDigest R) =>
    getPositionCache s = getPositionCache sbs /\
    getDynamicsCache s = getDynamicsCache sbs /\
    length (V_FM (getVelocityCache s)) = length (V_FM (getVelocityCache sbs)) /\
    length (V_PB_G (getVelocityCache s)) = length (V_PB_G (getVelocityCache sbs)) /\
    length (V_GB (getVelocityCache s)) = length (V_GB (getVelocityCache sbs)) /\
    getV_GB 0 (getVelocityCache s) = SpatialVec_0 /\
    forall node, node ∈ pre ->
      getV_GB (nodeNum node) (getVelocityCache s) = SpatialVec_0).
  assert (HQ : Q nodes (foldl (fun s node => RBNodeWeld.realizeVelocity node s)
                          sbs nodes)).
  { apply foldl_prefix_invariant.
    - unfold Q. repeat split; try done. intros node Hin. by apply elem_of_nil in Hin.
    - intros pre x s Hx Hpre (Hpc & Hdc & L1 & L2 & L3 & Hg0 & Hz).
      assert (Hin : x ∈ nodes) by (by apply list_elem_of_lookup_2 in Hx).
      destruct (Hfits x Hin) as (Hn0 & F1 & F2 & F3 & _).
      destruct (weld_realizeVelocity_frame x s) as (_ & Epc & Edc & E1 & E2 & E3).
      destruct (weld_realizeVelocity_V_GB x s) as (Hnew & Hoth); [lia | lia |].
      assert (HP : getV_GB (parent x) (getVelocityCache s) = SpatialVec_0).
      { destruct (baseToTip_parent nodes pre x Hbt Hx Hpre) as [->|(p & Hp & <-)];
          [done | by apply Hz]. }
      unfold Q. split; [congruence|]. split; [congruence|].
      split; [congruence|]. split; [congruence|]. split; [congruence|].
      split.
      + by rewrite Hoth.
      + intros node Hnode. destruct (decide (nodeNum node = nodeNum x)) as [->|Hne].
        * rewrite Hnew, HP, phiT_mul_0. apply svadd_0_r.
        * rewrite (Hoth (nodeNum node) Hne).
          apply elem_of_app in Hnode. destruct Hnode as [Hnode|Hnode]; [by apply Hz|].
          apply list_elem_of_singleton in Hnode. by subst. }
  destruct HQ as (Hpc & Hdc & _ & _ & _ & Hg0 & Hz). done.
Qed.

Lemma realizeDynamicsOfWelds_at_rest (nodes : list (RigidBodyNode R))
    (sbs : SBStateDigest R) :
  baseToTip nodes -> fits nodes sbs ->
  getV_GB 0 (getVelocityCache sbs) = SpatialVec_0 ->
  (forall node, node ∈ nodes ->
     getV_GB (nodeNum node) (getVelocityCache sbs) = SpatialVec_0) ->
  getTotalCoriolisAcceleration 0 (getDynamicsCache sbs) = SpatialVec_0 ->
  let dc' := getDynamicsCache (realizeDynamicsOfWelds nodes sbs) in
  getVelocityCache (realizeDynamicsOfWelds nodes sbs) = getVelocityCache sbs /\
  forall node, node ∈ nodes ->
    getGyroscopicForce (nodeNum node) dc' = SpatialVec_0 /\
    getCoriolisAcceleration (nodeNum node) dc' = SpatialVec_0 /\
    getTotalCoriolisAcceleration (nodeNum node) dc' = SpatialVec_0 /\
    getCentrifugalForces (nodeNum node) dc' = SpatialVec_0 /\
    getTotalCentrifugalForces (nodeNum node) dc' = SpatialVec_0.
Proof.
  intros Hbt Hfits HV0 HV HT0. unfold realizeDynamicsOfWelds.
  pose (Q := fun (pre : list (RigidBodyNode R)) (s : SBStateDigest R) =>
    getVelocityCache s = getVelocityCache sbs /\
    (forall i, allocated i (getDynamicsCache sbs) -> allocated i (getDynamicsCache s)) /\
    getTotalCoriolisAcceleration 0 (getDynamicsCache s) = SpatialVec_0 /\
    forall node, node ∈ pre ->
      getGyroscopicForce (nodeNum node) (getDynamicsCache s) = SpatialVec_0 /\
      getCoriolisAcceleration (nodeNum node) (getDynamicsCache s) = SpatialVec_0 /\
      getTotalCoriolisAcceleration (nodeNum node) (getDynamicsCache s) = SpatialVec_0 /\
      getCentrifugalForces (nodeNum node) (getDynamicsCache s) = SpatialVec_0 /\
      getTotalCentrifugalForces (nodeNum node) (getDynamicsCache s) = SpatialVec_0).
  assert (HQ : Q nodes (foldl (fun s node => RBNodeWeld.realizeDynamics node s)
                          sbs nodes)).
  { apply foldl_prefix_invariant.
    - unfold Q. split; [done|]. split; [done|]. split; [done|].
      intros node Hin. by apply elem_of_nil in Hin.
    - intros pre x s Hx Hpre (Hvc & Hal & Hg0 & Hz).
      assert (Hin : x ∈ nodes) by (by apply list_elem_of_lookup_2 in Hx).
      destruct (Hfits x Hin) as (Hn0 & _ & _ & _ & Halloc).
      assert (HP : getTotalCoriolisAcceleration (parent x) (getDynamicsCache s)
                   = SpatialVec_0).
      { destruct (baseToTip_parent nodes pre x Hbt Hx Hpre) as [->|(p & Hp & <-)];
          [done | by apply Hz]. }
      assert (HVP : getV_GB (parent x) (getVelocityCache s) = SpatialVec_0).
      { rewrite Hvc.
        destruct (baseToTip_parent nodes pre x Hbt Hx Hpre) as [->|(p & Hp & <-)];
          [done|]. apply HV.
        destruct (list_elem_of_lookup_1 _ _ Hp) as [j Hj].
        assert (Hjl : (j < length pre)%nat) by (by apply lookup_lt_Some in Hj).
        rewrite <- (Hpre j Hjl) in Hj. by apply list_elem_of_lookup_2 in Hj. }
      destruct (weld_realizeDynamics_at_rest x s Hn0 (Hal _ Halloc))
        as (_ & Evc & Eal & Hzero & Hoth); [rewrite Hvc; by apply HV | done | done |].
      unfold Q. split; [congruence|]. split; [by intros i Hi; apply Eal, Hal|].
      split.
      + destruct (Hoth 0%nat) as (_ & _ & -> & _); [lia|done].
      + intros node Hnode. destruct (decide (nodeNum node = nodeNum x)) as [->|Hne].
        * exact Hzero.
        * destruct (Hoth (nodeNum node) Hne) as (-> & -> & -> & -> & ->).
          apply elem_of_app in Hnode. destruct Hnode as [Hnode|Hnode]; [by apply Hz|].
          apply list_elem_of_singleton in Hnode. by subst. }
  destruct HQ as (Hvc & _ & _ & Hz). done.
Qed.

(** X23: a tree of welds at rest.  When every node other than Ground is a
    weld, the nodes are visited base to tip, and Ground's velocity and total
    Coriolis acceleration are zero, realizing the Velocity stage and then the
    Dynamics stage (whatever the caches held before) leaves every body with
    zero spatial velocity, zero gyroscopic force, zero Coriolis and total
    Coriolis acceleration and zero centrifugal forces. *)
Theorem welded_tree_has_no_velocity_terms (nodes : list (RigidBodyNode R))
    (sbs : SBStateDigest R) :
  baseToTip nodes -> fits nodes sbs -> groundAtRest sbs ->
  let sbs' := realizeDynamicsOfWelds nodes (realizeVelocityOfWelds nodes sbs) in
  let vc' := getVelocityCache sbs' in
  let dc' := getDynamicsCache sbs' in
  forall node, node ∈ nodes ->
    getV_GB (nodeNum node) vc' = SpatialVec_0 /\
    getGyroscopicForce (nodeNum node) dc' = SpatialVec_0 /\
    getCoriolisAcceleration (nodeNum node) dc' = SpatialVec_0 /\
    getTotalCoriolisAcceleration (nodeNum node) dc' = SpatialVec_0 /\
    getCentrifugalForces (nodeNum node) dc' = SpatialVec_0 /\
    getTotalCentrifugalForces (nodeNum node) dc' = SpatialVec_0.
Proof.
  intros Hbt Hfits (HV0 & HT0) sbs' vc' dc' node Hnode.
  destruct (realizeVelocityOfWelds_at_rest nodes sbs Hbt Hfits HV0)
    as (Hpc & Hdc & HV0' & HV).
  assert (Hfits' : fits nodes (realizeVelocityOfWelds nodes sbs)).
  { intros x Hx. destruct (Hfits x Hx) as (Hn & F1 & F2 & F3 & Hal).
    split; [done|]. rewrite Hdc. split; [|split; [|split; [|done]]].
    all: unfold realizeVelocityOfWelds;
      apply (foldl_preserves (fun s =>
        (nodeNum x < length (V_FM (getVelocityCache s)))%nat /\
        (nodeNum x < length (V_PB_G (getVelocityCache s)))%nat /\
        (nodeNum x < length (V_GB (getVelocityCache s)))%nat)); [done|];
      intros s y _ (G1 & G2 & G3);
      destruct (weld_realizeVelocity_frame y s) as (_ & _ & _ & -> & -> & ->); done. }
  destruct (realizeDynamicsOfWelds_at_rest nodes (realizeVelocityOfWelds nodes sbs)
              Hbt Hfits' HV0' HV) as (Hvc & Hz); [by rewrite Hdc|].
  split; [|by apply Hz]. unfold vc', sbs'. rewrite Hvc. by apply HV.
Qed.
End WeldTrees.

Lemma sample_welds_baseToTip : baseToTip [TreeSamples.weld1; TreeSamples.weld2].
Proof.
  intros [|[|k]] node Hk; simpl in Hk; try discriminate; injection Hk as <-.
  - by left.
  - right. exists 0, TreeSamples.weld1. repeat split. lia.
Qed.

Lemma sample_welds_fit :
  fits [TreeSamples.weld1; TreeSamples.weld2] TreeSamples.leftovers.
Proof.
  intros node Hnode. unfold allocated.
  apply elem_of_cons in Hnode. destruct Hnode as [->|Hnode].
  - simpl. repeat split; lia.
  - apply list_elem_of_singleton in Hnode. subst. simpl. repeat split; lia.
Qed.

Lemma welded_tree_has_no_velocity_terms_sample :
  getTotalCentrifugalForces 2
    (getDynamicsCache
       (realizeDynamicsOfWelds [TreeSamples.weld1; TreeSamples.weld2]
          (realizeVelocityOfWelds [TreeSamples.weld1; TreeSamples.weld2]
             TreeSamples.leftovers))) = SpatialVec_0.
Proof.
  refine (proj2 (proj2 (proj2 (proj2 (proj2
    (welded_tree_has_no_velocity_terms [TreeSamples.weld1; TreeSamples.weld2]
       TreeSamples.leftovers sample_welds_baseToTip sample_welds_fit
       (conj eq_refl eq_refl) TreeSamples.weld2 _)))))).
  apply elem_of_cons. right. apply list_elem_of_singleton. reflexivity.
Defined.

(** ** The acceleration passes over a tree of welds *)

Section WeldPasses.
Local Open Scope R_scope.

Lemma weld_outward_zero (node : RigidBodyNode R) (pc : SBPositionCache R)
    (allA_GB : list (SpatialVec R)) :
  (nodeNum node < length allA_GB)%nat ->
  (parent node = 0%nat \/ allA_GB !!! parent node = SpatialVec_0) ->
  let A' := RBNodeWeld.calcMInverseFPass2Outward node pc allA_GB in
  RBNodeWeld.calcMAPass1Outward node pc allA_GB = A' /\
  length A' = length allA_GB /\
  A' !!! nodeNum node = SpatialVec_0 /\
  forall i, i <> nodeNum node -> A' !!! i = allA_GB !!! i.
Proof.
  intros Hn Hp. unfold RBNodeWeld.calcMInverseFPass2Outward,
    RBNodeWeld.calcMAPass1Outward. cbv zeta.
  split; [done|]. split; [apply length_insert|]. split.
  - rewrite list_lookup_total_insert_eq by done.
    destruct (Nat.eqb_spec (parent node) 0) as [E|E]; [done|].
    destruct Hp as [Hp|Hp]; [contradiction|]. rewrite Hp. apply phiT_mul_0.
  - intros i Hi. by rewrite list_lookup_total_insert_ne.
Qed.

Lemma welds_outward_zero (nodes : list (RigidBodyNode R)) (pc : SBPositionCache R)
    (A0 : list (SpatialVec R)) :
  baseToTip nodes -> inRange nodes A0 -> A0 !!! 0%nat = SpatialVec_0 ->
  let A' := foldl (fun A node => RBNodeWeld.calcMInverseFPass2Outward node pc A)
                  A0 nodes in
  foldl (fun A node => RBNodeWeld.calcMAPass1Outward node pc A) A0 nodes = A' /\
  length A' = length A0 /\
  A' !!! 0%nat = SpatialVec_0 /\
  forall node, node ∈ nodes -> A' !!! nodeNum node = SpatialVec_0.
Proof.
  intros Hbt Hrange H0.
  pose (Q := fun (pre : list (RigidBodyNode R)) (A : list (SpatialVec R)) =>
    foldl (fun A node => RBNodeWeld.calcMAPass1Outward node pc A) A0 pre = A /\
    length A = length A0 /\ A !!! 0%nat = SpatialVec_0 /\
    forall node, node ∈ pre -> A !!! nodeNum node = SpatialVec_0).
  assert (HQ : Q nodes (foldl (fun A node =>
                                 RBNodeWeld.calcMInverseFPass2Outward node pc A)
                          A0 nodes)).
  { apply foldl_prefix_invariant.
    - unfold Q. repeat split; try done. intros node Hin. by apply elem_of_nil in Hin.
    - intros pre x A Hx Hpre (Hsame & Hlen & Hg0 & Hz).
      assert (Hin : x ∈ nodes) by (by apply list_elem_of_lookup_2 in Hx).
      destruct (weld_outward_zero x pc A) as (Esame & Elen & Ezero & Eoth).
      { rewrite Hlen. by apply Hrange. }
      { destruct (baseToTip_parent nodes pre x Hbt Hx Hpre) as [E|(p & Hp & <-)];
          [by left | right; by apply Hz]. }
      unfold Q. split; [|split; [congruence|split]].
      + rewrite foldl_snoc, Hsame. exact Esame.
      + destruct (decide (0%nat = nodeNum x)) as [E|E]; [by rewrite E|].
        by rewrite Eoth.
      + intros node Hnode. destruct (decide (nodeNum node = nodeNum x)) as [->|Hne];
          [done|]. rewrite Eoth by done.
        apply elem_of_app in Hnode. destruct Hnode as [Hnode|Hnode]; [by apply Hz|].
        apply list_elem_of_singleton in Hnode. by subst. }
  destruct HQ as (Hsame & Hlen & Hg0 & Hz). done.
Qed.

(** X24: the outward acceleration passes over a tree of welds.  With every
    node other than Ground a weld and the nodes visited base to tip after
    Ground, the second pass of M^-1 f ([calcMInverseFPass2Outward]) and the
    first pass of M a ([calcMAPass1Outward]) compute the same array, in which
    the spatial acceleration of Ground and of every body is zero, whatever
    the array held before; no generalized acceleration is written. *)
Theorem welded_tree_outward_accelerations_zero (nodes : list (RigidBodyNode R))
    (pc : SBPositionCache R) (allA_GB : list (SpatialVec R)) :
  baseToTip nodes -> inRange nodes allA_GB -> (0 < length allA_GB)%nat ->
  let A' := calcMInverseFPass2OutwardOfWelds nodes pc allA_GB in
  calcMAPass1OutwardOfWelds nodes pc allA_GB = A' /\
  length A' = length allA_GB /\
  A' !!! 0%nat = SpatialVec_0 /\
  forall node, node ∈ nodes -> A' !!! nodeNum node = SpatialVec_0.
Proof.
  intros Hbt Hrange Hlen.
  unfold calcMInverseFPass2OutwardOfWelds, calcMAPass1OutwardOfWelds,
    RBGroundBody.calcMInverseFPass2Outward, RBGroundBody.calcMAPass1Outward.
  destruct (welds_outward_zero nodes pc
              (<[0%nat := mkSpatialVec Vec3_0 Vec3_0]> allA_GB) Hbt)
    as (Hsame & Hl & H0 & Hz).
  - intros node Hnode. rewrite length_insert. by apply Hrange.
  - by apply list_lookup_total_insert_eq.
  - rewrite length_insert in Hl. done.
Qed.

Lemma weld_inward_zero (node : RigidBodyNode R) (children : list (RigidBodyNode R))
    (pc : SBPositionCache R) (allZ allGepsilon : list (SpatialVec R)) :
  (nodeNum node < length allZ)%nat -> (nodeNum node < length allGepsilon)%nat ->
  (forall c, c ∈ children ->
     allZ !!! nodeNum c = SpatialVec_0 /\ allGepsilon !!! nodeNum c = SpatialVec_0) ->
  let r := RBNodeWeld.calcMInverseFPass1Inward node children pc allZ allGepsilon in
  length r.1 = length allZ /\ length r.2 = length allGepsilon /\
  r.1 !!! nodeNum node = SpatialVec_0 /\ r.2 !!! nodeNum node = SpatialVec_0 /\
  forall i, i <> nodeNum node ->
    r.1 !!! i = allZ !!! i /\ r.2 !!! i = allGepsilon !!! i.
Proof.
  intros Hz Hg Hc. unfold RBNodeWeld.calcMInverseFPass1Inward. cbv zeta.
  cbn [fst snd].
  set (n := nodeNum node) in *.
  set (step := fun (allZ0 : list (SpatialVec R)) (child : RigidBodyNode R) =>
       <[n := svadd (allZ0 !!! n)
                (phi_mul (getPhi (nodeNum child) pc)
                   (svadd (allZ0 !!! nodeNum child)
                      (allGepsilon !!! nodeNum child)))]> allZ0).
  assert (HP : let Z := foldl step (<[n := mkSpatialVec Vec3_0 Vec3_0]> allZ) children in
               length Z = length allZ /\ Z !!! n = SpatialVec_0 /\
               forall i, i <> n -> Z !!! i = allZ !!! i).
  { apply (foldl_preserves (fun Z => length Z = length allZ /\
                                       Z !!! n = SpatialVec_0 /\
                                       forall i, i <> n -> Z !!! i = allZ !!! i)).
    - split; [apply length_insert|]. split.
      + by apply list_lookup_total_insert_eq.
      + intros i Hi. by apply list_lookup_total_insert_ne.
    - intros Z c Hin (Hl & Hn & Ho). destruct (Hc c Hin) as (Hzc & Hgc).
      unfold step. split; [by rewrite length_insert|]. split.
      + rewrite list_lookup_total_insert_eq by lia. rewrite Hn, Hgc.
        assert (HZc : Z !!! nodeNum c = SpatialVec_0).
        { destruct (decide (nodeNum c = n)) as [->|Hne]; [done|].
          by rewrite Ho. }
        rewrite HZc, (svadd_0_l SpatialVec_0), phi_mul_0. apply svadd_0_l.
      + intros i Hi. rewrite list_lookup_total_insert_ne by done. by apply Ho. }
  destruct HP as (Hl & Hn & Ho).
  split; [done|]. split; [apply length_insert|]. split; [done|]. split.
  - by apply list_lookup_total_insert_eq.
  - intros i Hi. split; [by apply Ho|]. by apply list_lookup_total_insert_ne.
Qed.

(** X25: the inward pass of M^-1 f over a tree of welds.  With every node
    other than Ground a weld and the nodes visited tip to base before Ground
    (every child before its parent), [calcMInverseFPass1Inward] leaves the
    accumulated force z and the term G*epsilon of Ground and of every body
    zero, whatever the arrays held before: a weld has no mobility to take up
    any of the force. *)
Theorem welded_tree_inward_forces_zero
    (nodes : list (RigidBodyNode R * list (RigidBodyNode R)))
    (pc : SBPositionCache R) (allZ allGepsilon : list (SpatialVec R)) :
  tipToBase nodes ->
  inRange nodes.*1 allZ -> inRange nodes.*1 allGepsilon ->
  (0 < length allZ)%nat -> (0 < length allGepsilon)%nat ->
  let r := calcMInverseFPass1InwardOfWelds nodes pc allZ allGepsilon in
  r.1 !!! 0%nat = SpatialVec_0 /\ r.2 !!! 0%nat = SpatialVec_0 /\
  forall node, node ∈ nodes.*1 ->
    r.1 !!! nodeNum node = SpatialVec_0 /\ r.2 !!! nodeNum node = SpatialVec_0.
Proof.
  intros Htb HrZ HrG HlZ HlG.
  unfold calcMInverseFPass1InwardOfWelds.
  pose (Q := fun (pre : list (RigidBodyNode R * list (RigidBodyNode R)))
                 (s : list (SpatialVec R) * list (SpatialVec R)) =>
    length s.1 = length allZ /\ length s.2 = length allGepsilon /\
    forall node, node ∈ pre.*1 ->
      s.1 !!! nodeNum node = SpatialVec_0 /\ s.2 !!! nodeNum node = SpatialVec_0).
  assert (HQ : Q nodes
    (foldl (fun '(allZ, allGepsilon) '(node, children) =>
              RBNodeWeld.calcMInverseFPass1Inward node children pc allZ allGepsilon)
       (allZ, allGepsilon) nodes)).
  { apply foldl_prefix_invariant.
    - unfold Q. split; [done|]. split; [done|].
      intros node Hin. by apply elem_of_nil in Hin.
    - intros pre [x cs] [Z G] Hx Hpre (Hl1 & Hl2 & Hz). cbn [fst snd] in *.
      assert (Hin : x ∈ nodes.*1).
      { apply list_elem_of_fmap. exists (x, cs). split; [done|].
        by apply list_elem_of_lookup_2 in Hx. }
      destruct (weld_inward_zero x cs pc Z G) as (E1 & E2 & Ez & Eg & Eo).
      { rewrite Hl1. by apply HrZ. }
      { rewrite Hl2. by apply HrG. }
      { intros c Hc. destruct (Htb _ _ _ _ Hx Hc) as (j & c' & cs' & Hj & Hc' & Hnum).
        rewrite <- Hnum. apply Hz. apply list_elem_of_fmap. exists (c', cs').
        split; [done|]. rewrite (Hpre j Hj) in Hc'.
        by apply list_elem_of_lookup_2 in Hc'. }
      unfold Q. split; [congruence|]. split; [congruence|].
      intros node Hnode.
      destruct (decide (nodeNum node = nodeNum x)) as [->|Hne]; [done|].
      destruct (Eo (nodeNum node) Hne) as (-> & ->).
      rewrite fmap_app in Hnode. apply elem_of_app in Hnode.
      destruct Hnode as [Hnode|Hnode]; [by apply Hz|].
      apply list_elem_of_singleton in Hnode. by subst. }
  destruct (foldl _ _ nodes) as [Z G]. destruct HQ as (Hl1 & Hl2 & Hz).
  cbn [fst snd] in *. unfold RBGroundBody.calcMInverseFPass1Inward. cbn [fst snd].
  split; [apply list_lookup_total_insert_eq; lia|].
  split; [apply list_lookup_total_insert_eq; lia|].
  intros node Hnode. destruct (Hz node Hnode) as (Hzn & Hgn).
  destruct (decide (nodeNum node = 0%nat)) as [->|Hne].
  - split; apply list_lookup_total_insert_eq; lia.
  - by rewrite !list_lookup_total_insert_ne by done.
Qed.

(** X29: forward dynamics of a tree of welds.  With every node other than
    Ground a weld, visited base to tip after Ground, and a dynamics cache
    whose total Coriolis accelerations were realized, the outward pass of the
    forward dynamics ([calcUDotPass2Outward]) gives every body the spatial
    acceleration that is its total Coriolis acceleration, and Ground zero:
    with no mobility the only acceleration is the one the velocities
    imply. *)
Theorem welded_tree_acceleration_is_total_coriolis (nodes : list (RigidBodyNode R))
    (pc : SBPositionCache R) (dc : SBDynamicsCache R) (allA_GB : list (SpatialVec R)) :
  baseToTip nodes -> inRange nodes allA_GB -> (0 < length allA_GB)%nat ->
  totalCoriolisRealized nodes pc dc ->
  let A' := calcUDotPass2OutwardOfWelds nodes pc dc allA_GB in
  length A' = length allA_GB /\
  A' !!! 0%nat = SpatialVec_0 /\
  forall node, node ∈ nodes ->
    A' !!! nodeNum node = getTotalCoriolisAcceleration (nodeNum node) dc.
Proof.
  intros Hbt Hrange Hlen (HT0 & HT).
  unfold calcUDotPass2OutwardOfWelds, RBGroundBody.calcUDotPass2Outward.
  pose (Q := fun (pre : list (RigidBodyNode R)) (A : list (SpatialVec R)) =>
    length A = length allA_GB /\ A !!! 0%nat = SpatialVec_0 /\
    forall node, node ∈ pre ->
      A !!! nodeNum node = getTotalCoriolisAcceleration (nodeNum node) dc).
  assert (HQ : Q nodes (foldl (fun A node =>
                                 RBNodeWeld.calcUDotPass2Outward node pc dc A)
                          (<[0%nat := mkSpatialVec Vec3_0 Vec3_0]> allA_GB) nodes)).
  { apply foldl_prefix_invariant.
    - unfold Q. split; [apply length_insert|]. split.
      + by apply list_lookup_total_insert_eq.
      + intros node Hin. by apply elem_of_nil in Hin.
    - intros pre x A Hx Hpre (Hl & Hg0 & Hz).
      assert (Hin : x ∈ nodes) by (by apply list_elem_of_lookup_2 in Hx).
      assert (Hxr : (nodeNum x < length A)%nat) by (rewrite Hl; by apply Hrange).
      assert (Hnew : RBNodeWeld.calcUDotPass2Outward x pc dc A !!! nodeNum x
                     = getTotalCoriolisAcceleration (nodeNum x) dc).
      { unfold RBNodeWeld.calcUDotPass2Outward. cbv zeta.
        rewrite list_lookup_total_insert_eq by done. rewrite (HT x Hin).
        destruct (Nat.eqb_spec (parent x) 0) as [E|E].
        - rewrite E, HT0, phiT_mul_0. reflexivity.
        - destruct (baseToTip_parent nodes pre x Hbt Hx Hpre) as [E0|(p & Hp & Ep)];
            [contradiction|].
          rewrite <- Ep at 1. rewrite (Hz p Hp), Ep. reflexivity. }
      assert (Hoth : forall i, i <> nodeNum x ->
                RBNodeWeld.calcUDotPass2Outward x pc dc A !!! i = A !!! i).
      { intros i Hi. unfold RBNodeWeld.calcUDotPass2Outward. cbv zeta.
        by rewrite list_lookup_total_insert_ne. }
      unfold Q. split; [|split].
      + unfold RBNodeWeld.calcUDotPass2Outward. cbv zeta. by rewrite length_insert.
      + destruct (decide (0%nat = nodeNum x)) as [E|E].
        * rewrite E, Hnew, <- E. exact HT0.
        * by rewrite Hoth.
      + intros node Hnode. destruct (decide (nodeNum node = nodeNum x)) as [->|Hne];
          [done|]. rewrite Hoth by done.
        apply elem_of_app in Hnode. destruct Hnode as [Hnode|Hnode]; [by apply Hz|].
        apply list_elem_of_singleton in Hnode. by subst. }
  exact HQ.
Qed.
End WeldPasses.

Lemma sample_welds_inRange :
  inRange [TreeSamples.weld1; TreeSamples.weld2]
    [TreeSamples.junk; TreeSamples.junk; TreeSamples.junk].
Proof.
  intros node Hnode. apply elem_of_cons in Hnode. destruct Hnode as [->|Hnode].
  - simpl. lia.
  - apply list_elem_of_singleton in Hnode. subst. simpl. lia.
Qed.

Lemma sample_welds_tipToBase :
  tipToBase [(TreeSamples.weld2, []); (TreeSamples.weld1, [TreeSamples.weld2])].
Proof.
  intros [|[|k]] node children child Hk Hc; simpl in Hk; try discriminate;
    injection Hk as <- <-.
  - by apply elem_of_nil in Hc.
  - apply list_elem_of_singleton in Hc. subst.
    exists 0, TreeSamples.weld2, []. repeat split. lia.
Qed.

Lemma welded_tree_outward_accelerations_zero_sample :
  calcMInverseFPass2OutwardOfWelds [TreeSamples.weld1; TreeSamples.weld2]
    (getPositionCache TreeSamples.leftovers)
    [TreeSamples.junk; TreeSamples.junk; TreeSamples.junk] !!! 2%nat
  = SpatialVec_0.
Proof.
  refine (proj2 (proj2 (proj2
    (welded_tree_outward_accelerations_zero [TreeSamples.weld1; TreeSamples.weld2]
       (getPositionCache TreeSamples.leftovers)
       [TreeSamples.junk; TreeSamples.junk; TreeSamples.junk]
       sample_welds_baseToTip sample_welds_inRange _))) TreeSamples.weld2 _).
  - simpl. lia.
  - apply elem_of_cons. right. apply list_elem_of_singleton. reflexivity.
Defined.

Lemma welded_tree_inward_forces_zero_sample :
  (calcMInverseFPass1InwardOfWelds
     [(TreeSamples.weld2, []); (TreeSamples.weld1, [TreeSamples.weld2])]
     (getPositionCache TreeSamples.leftovers)
     [TreeSamples.junk; TreeSamples.junk; TreeSamples.junk]
     [TreeSamples.junk; TreeSamples.junk; TreeSamples.junk]).1 !!! 1%nat
  = SpatialVec_0.
Proof.
  refine (proj1 (proj2 (proj2
    (welded_tree_inward_forces_zero
       [(TreeSamples.weld2, []); (TreeSamples.weld1, [TreeSamples.weld2])]
       (getPositionCache TreeSamples.leftovers)
       [TreeSamples.junk; TreeSamples.junk; TreeSamples.junk]
       [TreeSamples.junk; TreeSamples.junk; TreeSamples.junk]
       sample_welds_tipToBase _ _ _ _)) TreeSamples.weld1 _)).
  - intros node Hnode. apply elem_of_cons in Hnode. destruct Hnode as [->|Hnode].
    + simpl. lia.
    + apply list_elem_of_singleton in Hnode. subst. simpl. lia.
  - intros node Hnode. apply elem_of_cons in Hnode. destruct Hnode as [->|Hnode].
    + simpl. lia.
    + apply list_elem_of_singleton in Hnode. subst. simpl. lia.
  - simpl. lia.
  - simpl. lia.
  - apply elem_of_cons. right. apply list_elem_of_singleton. reflexivity.
Defined.

Lemma sample_totalCoriolisRealized :
  totalCoriolisRealized [TreeSamples.weld1; TreeSamples.weld2]
    (getPositionCache TreeSamples.leftovers) quiet.
Proof.
  split; [reflexivity|]. intros node Hnode.
  apply elem_of_cons in Hnode. destruct Hnode as [->|Hnode].
  - symmetry. etrans; [apply svadd_0_r|]. apply phiT_mul_0.
  - apply list_elem_of_singleton in Hnode. subst.
    symmetry. etrans; [apply svadd_0_r|]. apply phiT_mul_0.
Qed.

Lemma welded_tree_acceleration_is_total_coriolis_sample :
  calcUDotPass2OutwardOfWelds [TreeSamples.weld1; TreeSamples.weld2]
    (getPositionCache TreeSamples.leftovers) quiet
    [TreeSamples.junk; TreeSamples.junk; TreeSamples.junk] !!! 2%nat
  = getTotalCoriolisAcceleration 2 quiet.
Proof.
  refine (proj2 (proj2
    (welded_tree_acceleration_is_total_coriolis
       [TreeSamples.weld1; TreeSamples.weld2]
       (getPositionCache TreeSamples.leftovers) quiet
       [TreeSamples.junk; TreeSamples.junk; TreeSamples.junk]
       sample_welds_baseToTip sample_welds_inRange _
       sample_totalCoriolisRealized)) TreeSamples.weld2 _).
  - simpl. lia.
  - apply elem_of_cons. right. apply list_elem_of_singleton. reflexivity.
Defined.

(** ** The bend-stretch joint *)

Section BendStretch.
Local Open Scope R_scope.

(** X21: the bend-stretch joint turns about z by its first coordinate and
    then moves along the turned x axis by its second.  The translation of
    the transform is x*(cos theta, sin theta, 0): x times M's x axis
    expressed in F, in the x-y plane.  When
    the cached transform is this one, the Jacobian's first column is rotation
    about z with the linear part z % p = x*(-sin theta, cos theta, 0), and
    its second column is translation along M's x axis. *)
Theorem bendStretch_moves_along_turned_x (FI : Finders R) (node : RigidBodyNode R)
    (sbs : SBStateDigest R) (q : list R) :
  let theta := fromQ_at node q 0 in
  let x := fromQ_at node q 1 in
  let X := RBNodeBendStretch.calcAcrossJointTransform node sbs q in
  R_ X = setRotationFromAngleAboutZ theta /\
  p_ X = mkVec3 (x * cos theta) (x * sin theta) 0 /\
  p_ X = vscale x (col_x (R_ X)) /\
  (findX_F0M0 node (getPositionCache sbs) = X ->
   RBNodeBendStretch.calcAcrossJointVelocityJacobian node sbs
   = [ mkSpatialVec (mkVec3 0 0 1) (mkVec3 (- (x * sin theta)) (x * cos theta) 0);
       mkSpatialVec (mkVec3 0 0 0) (mkVec3 (cos theta) (sin theta) 0) ]).
Proof.
  intros theta x X.
  assert (Hp : p_ X = mkVec3 (x * cos theta) (x * sin theta) 0).
  { unfold X, RBNodeBendStretch.calcAcrossJointTransform,
      setRotationFromAngleAboutZ, mvmul, vdot. fold theta x. simpl.
    f_equal; ring. }
  split; [done|]. split; [done|]. split.
  - rewrite Hp. unfold X, RBNodeBendStretch.calcAcrossJointTransform,
      setRotationFromAngleAboutZ, col_x, transpose, vscale. fold theta x. simpl.
    f_equal; ring.
  - intros HX. unfold RBNodeBendStretch.calcAcrossJointVelocityJacobian.
    rewrite HX, Hp. unfold X, RBNodeBendStretch.calcAcrossJointTransform,
      setRotationFromAngleAboutZ, col_x, transpose, cross, Vec3_0.
    fold theta x. simpl. f_equal. f_equal. f_equal; ring.
Qed.
End BendStretch.

(** * More of the code: mass properties and kinetic energy *)

Section SpatialInertia.
Local Open Scope R_scope.

Lemma calcJointIndependentKinematicsPos_entries (node : RigidBodyNode R)
    (mProps_B : MassProperties R) (pc : SBPositionCache R)
    (pf : SBPositionCacheFrames R) :
  let n := nodeNum node in
  (n < length (Phi pc))%nat -> (n < length (Inertia_OB_G pc))%nat ->
  (n < length (CB_G pc))%nat -> (n < length (COM_G pf))%nat ->
  (n < length (Mk pf))%nat ->
  let r := calcJointIndependentKinematicsPos node mProps_B pc pf in
  let R_GB := R_ (getX_GB n pf) in
  let c := mvmul R_GB (getCOM_B mProps_B) in
  let I_G := reexpress (getInertia_OB_B mProps_B) (transpose R_GB) in
  getPhi n r.1 = mkPhiMatrix (mvmul (R_ (getX_GP node pf)) (p_ (getX_PB n pf))) /\
  getInertia_OB_G n r.1 = I_G /\
  getCB_G n r.1 = c /\
  getCOM_G n r.2 = vadd (p_ (getX_GB n pf)) c /\
  getMk n r.2
    = mkSpatialMat I_G (mscale (getMass node) (crossMat c))
        (mneg (mscale (getMass node) (crossMat c)))
        (mscale (getMass node) Mat33_1) /\
  X_PB r.2 = X_PB pf /\ X_GB r.2 = X_GB pf /\ X_FM r.1 = X_FM pc.
Proof.
  intros n HP HI HC HG HM r R_GB c I_G.
  unfold r, calcJointIndependentKinematicsPos, getPhi, getInertia_OB_G, getCB_G,
    getCOM_G, getMk. fold n. cbv zeta.
  cbn [fst snd Phi Inertia_OB_G CB_G COM_G Mk X_PB X_GB X_FM].
  rewrite !list_lookup_total_insert_eq by done. done.
Qed.

(** X26: the spatial inertia that the position step builds.
    [calcJointIndependentKinematicsPos] writes the node's own entries and no
    others: the mass center station c = R_GB * COM_B, the mass center in
    Ground p_GB + c, the inertia re-expressed in Ground, and the spatial
    inertia Mk with the blocks [I, m*crossMat(c); -m*crossMat(c), m*1].  As
    the source remarks, the off-diagonal block is skew: the lower left block
    is the transpose of the upper right one; the lower right block is
    symmetric.  The entries of every other node, and the frames X_PB, X_GB
    and X_FM, are left as they were. *)
Theorem spatial_inertia_blocks (node : RigidBodyNode R)
    (mProps_B : MassProperties R) (pc : SBPositionCache R)
    (pf : SBPositionCacheFrames R) :
  let n := nodeNum node in
  (n < length (Phi pc))%nat -> (n < length (Inertia_OB_G pc))%nat ->
  (n < length (CB_G pc))%nat -> (n < length (COM_G pf))%nat ->
  (n < length (Mk pf))%nat ->
  let r := calcJointIndependentKinematicsPos node mProps_B pc pf in
  let M := getMk n r.2 in
  let I_G := getInertia_OB_G n r.1 in
  let c := getCB_G n r.1 in
  let m := getMass node in
  c = mvmul (R_ (getX_GB n pf)) (getCOM_B mProps_B) /\
  getCOM_G n r.2 = vadd (p_ (getX_GB n pf)) c /\
  I_G = reexpress (getInertia_OB_B mProps_B) (transpose (R_ (getX_GB n pf))) /\
  M = mkSpatialMat I_G (mscale m (crossMat c)) (mneg (mscale m (crossMat c)))
        (mscale m Mat33_1) /\
  m10 M = transpose (m01 M) /\
  transpose (m11 M) = m11 M /\
  (forall j, j <> n ->
     getPhi j r.1 = getPhi j pc /\ getInertia_OB_G j r.1 = getInertia_OB_G j pc /\
     getCB_G j r.1 = getCB_G j pc /\ getCOM_G j r.2 = getCOM_G j pf /\
     getMk j r.2 = getMk j pf) /\
  X_PB r.2 = X_PB pf /\ X_GB r.2 = X_GB pf /\ X_FM r.1 = X_FM pc.
Proof.
  intros n HP HI HC HG HM r M I_G c m.
  destruct (calcJointIndependentKinematicsPos_entries node mProps_B pc pf
              HP HI HC HG HM) as (_ & EI & Ec & EG & EM & EPB & EGB & EFM).
  fold n r in EI, Ec, EG, EM, EPB, EGB, EFM.
  fold M in EM. fold I_G in EI. fold c in Ec.
  split; [exact Ec|]. split; [by rewrite EG, <- Ec|]. split; [exact EI|].
  split; [by rewrite EM, <- EI, <- Ec|].
  rewrite EM. cbn [m00 m01 m10 m11]. rewrite <- Ec. fold m.
  split; [|split; [|split; [|done]]].
  - generalize c. intros [c0 c1 c2].
    unfold mneg, mscale, crossMat, transpose, vscale, vneg; simpl.
    f_equal; f_equal; ring.
  - unfold mscale, Mat33_1, transpose, vscale; simpl. reflexivity.
  - intros j Hj.
    unfold r, calcJointIndependentKinematicsPos, getPhi, getInertia_OB_G,
      getCB_G, getCOM_G, getMk. fold n. cbv zeta.
    cbn [fst snd Phi Inertia_OB_G CB_G COM_G Mk].
    by rewrite !list_lookup_total_insert_ne by done.
Qed.
End SpatialInertia.

Lemma spatial_inertia_blocks_sample :
  let M := getMk 1 (calcJointIndependentKinematicsPos TreeSamples.weld1
                      sampleMassProperties
                      (getPositionCache TreeSamples.leftovers) sampleFrames).2 in
  m10 M = transpose (m01 M).
Proof.
  refine (proj1 (proj2 (proj2 (proj2 (proj2
            (spatial_inertia_blocks TreeSamples.weld1
               sampleMassProperties (getPositionCache TreeSamples.leftovers)
               sampleFrames _ _ _ _ _))))));
    simpl; lia.
Defined.

(** * More of the code: the package version check and resetForces *)

Section ConfigVersion.
Import SimbodyConfigVersion.

Lemma check_spec (this : Version) (major minor patch : nat) :
  check this major minor patch
  = mkAnswer
      (Nat.eqb (SIMBODY_MAJOR_VERSION this) major
       && Nat.eqb (SIMBODY_MINOR_VERSION this) minor
       && Nat.leb patch (SIMBODY_PATCH_VERSION this))
      (Nat.eqb (SIMBODY_MAJOR_VERSION this) major
       && Nat.eqb (SIMBODY_MINOR_VERSION this) minor
       && Nat.eqb (SIMBODY_PATCH_VERSION this) patch).
Proof.
  destruct this as [vM vm vp]. unfold check, VERSION_EQUAL, VERSION_LESS. simpl.
  destruct (Nat.compare_spec vM major) as [E1|E1|E1];
    destruct (Nat.compare_spec vm minor) as [E2|E2|E2];
    destruct (Nat.compare_spec vp patch) as [E3|E3|E3];
    destruct (Nat.eqb_spec vM major) as [F1|F1];
    destruct (Nat.eqb_spec vm minor) as [F2|F2];
    destruct (Nat.eqb_spec vp patch) as [F3|F3];
    destruct (Nat.leb_spec patch vp) as [F4|F4];
    simpl; try reflexivity; lia.
Qed.

(** X27: which requests this installation satisfies.  The version file
    answers "compatible" exactly when the requested major and minor versions
    are the installed ones and the requested patch level is not above the
    installed one, and "exact" exactly when all three components agree.  So
    an exact match is always compatible, a request for another minor version
    is never compatible (not even an older one), and installing a higher
    patch level of the same major.minor keeps every compatible request
    compatible. *)
Theorem version_check_same_major_minor (this : Version) (major minor patch : nat) :
  let a := check this major minor patch in
  (PACKAGE_VERSION_COMPATIBLE a = true
   <-> SIMBODY_MAJOR_VERSION this = major /\ SIMBODY_MINOR_VERSION this = minor /\
       patch <= SIMBODY_PATCH_VERSION this) /\
  (PACKAGE_VERSION_EXACT a = true <-> this = mkVersion major minor patch) /\
  (PACKAGE_VERSION_EXACT a = true -> PACKAGE_VERSION_COMPATIBLE a = true) /\
  (forall newer,
     PACKAGE_VERSION_COMPATIBLE a = true ->
     SIMBODY_PATCH_VERSION this <= newer ->
     PACKAGE_VERSION_COMPATIBLE
       (check (mkVersion (SIMBODY_MAJOR_VERSION this) (SIMBODY_MINOR_VERSION this)
                 newer) major minor patch) = true).
Proof.
  assert (Hc : forall v M m p,
    PACKAGE_VERSION_COMPATIBLE (check v M m p) = true
    <-> SIMBODY_MAJOR_VERSION v = M /\ SIMBODY_MINOR_VERSION v = m /\
        p <= SIMBODY_PATCH_VERSION v).
  { intros v M m p. rewrite check_spec. cbn [PACKAGE_VERSION_COMPATIBLE].
    rewrite !andb_true_iff, !Nat.eqb_eq, Nat.leb_le. tauto. }
  assert (He : forall v M m p,
    PACKAGE_VERSION_EXACT (check v M m p) = true <-> v = mkVersion M m p).
  { intros [vM vm vp] M m p. rewrite check_spec. cbn [PACKAGE_VERSION_EXACT
      SIMBODY_MAJOR_VERSION SIMBODY_MINOR_VERSION SIMBODY_PATCH_VERSION].
    rewrite !andb_true_iff, !Nat.eqb_eq. split.
    - intros ((-> & ->) & ->). reflexivity.
    - intros E. injection E as -> -> ->. done. }
  intros a. split; [apply Hc|]. split; [apply He|]. split.
  - intros Hx. apply He in Hx. apply Hc. subst this. simpl. done.
  - intros newer Hcomp Hnew. apply Hc in Hcomp. apply Hc. simpl.
    destruct Hcomp as (? & ? & ?). repeat split; try done. lia.
Qed.
End ConfigVersion.

Section ResetForces.
Context {T : Type} {SC : Scalar T}.

(** X28: [resetForces] forgets what the arrays held.  Whatever their sizes
    and contents on entry, on return there is one zero spatial force per
    body, no particle force, and one zero mobility force per mobility; so a
    second call changes nothing. *)
Theorem resetForces_sizes_and_zeroes (getNBodies getNMobilities : nat)
    (bodyForces : list (SpatialVec T)) (particleForces : list (Vec3 T))
    (mobilityForces : list T) :
  let r := MatterSubsystem.resetForces getNBodies getNMobilities bodyForces
             particleForces mobilityForces in
  r = (replicate getNBodies SpatialVec_0, [], replicate getNMobilities rzero) /\
  MatterSubsystem.resetForces getNBodies getNMobilities r.1.1 r.1.2 r.2 = r.
Proof.
  assert (H : forall bF pF mF,
    MatterSubsystem.resetForces getNBodies getNMobilities bF pF mF
    = (replicate getNBodies SpatialVec_0, [], replicate getNMobilities rzero)).
  { intros bF pF mF. unfold MatterSubsystem.resetForces, MatterSubsystem.setToZero.
    cbv zeta. by rewrite !length_resize, resize_0. }
  intros r. split; [apply H|]. unfold r. by rewrite !H.
Qed.
End ResetForces.
